(** * The collaborator-suggestion pipeline of [collaborators-connector/function_app.py]

    A shallow embedding of the term extractor ([_build_terms]), the scorer
    ([_score_match]), the aggregation helpers ([_dedupe_keep_best], [_clip]),
    the five adapters and the HTTP handler ([suggest_collaborators]),
    followed by the properties of the pipeline.

    Modelling conventions.
    - A Python [str] is a [string]; the text is ASCII, so [str.lower],
      [str.isspace] and the regular-expression classes [\w] and [\s] are the
      ASCII ones.
    - A score is a Python [float], kept as the rational number [Q] it
      denotes; [==] is the equality of scores.  The scorer and the
      StackExchange adapter add 2.0, 0.5 and 1.0 to multiples of a half, on
      which float arithmetic is exact.  The bonuses of the GitHub, Hugging
      Face and Kaggle adapters are multiples of 0.3 and 0.2, and the
      aggregation-level boost adds 0.5 to a score of any adapter: there the
      sums and products are rounded to binary64 ([fl]).
    - A raised exception is the [Raise] case of [outcome].
    - The adapters reach third-party services over HTTP.  The handler sees
      each of them as a call that returns candidates or raises ([sources]);
      each adapter is embedded over the calls it makes ([github_api],
      [stack_api], [hf_api], [pwc_api], [kaggle_api]), whose answers carry
      the fields the adapter reads, at the types the services give them. *)

From Stdlib Require Import String Ascii List ZArith QArith Lia Bool.
From Stdlib Require Import Permutation Sorted DecimalString.
Import ListNotations.

Close Scope Q_scope.
Open Scope string_scope.
Open Scope list_scope.

(** ** Python built-ins on strings *)

Module Py.

(** [str.isspace] on ASCII: TAB, LF, VT, FF, CR, FS, GS, RS, US and SPACE.
    The class [\s] of [re] and the separators of [str.split()] and
    [str.strip()] are the same set. *)
Definition isspace (c : ascii) : bool :=
  let n := nat_of_ascii c in
  (((9 <=? n) && (n <=? 13)) || ((28 <=? n) && (n <=? 32)))%nat.

Definition isupper (c : ascii) : bool :=
  let n := nat_of_ascii c in ((65 <=? n) && (n <=? 90))%nat.

Definition isalpha (c : ascii) : bool :=
  let n := nat_of_ascii c in
  (((65 <=? n) && (n <=? 90)) || ((97 <=? n) && (n <=? 122)))%nat.

Definition isdigit (c : ascii) : bool :=
  let n := nat_of_ascii c in ((48 <=? n) && (n <=? 57))%nat.

(** The class [\w] of [re]: letters, digits and the underscore. *)
Definition isword (c : ascii) : bool :=
  isalpha c || isdigit c || Ascii.eqb c "_".

Definition lower_char (c : ascii) : ascii :=
  if isupper c then ascii_of_nat (nat_of_ascii c + 32) else c.

(** [s.lower()] *)
Fixpoint lower (s : string) : string :=
  match s with
  | EmptyString => EmptyString
  | String c r => String (lower_char c) (lower r)
  end.

(** Truth value of a [str]: false exactly for the empty string. *)
Definition truthy_str (s : string) : bool := negb (s =? "").

(** [x or ""] for an optional string. *)
Definition or_empty (o : option string) : string :=
  match o with
  | Some s => s
  | None => ""
  end.

(** [sub in s] *)
Fixpoint contains (sub s : string) : bool :=
  prefix sub s ||
  match s with
  | EmptyString => false
  | String _ r => contains sub r
  end.

(** [s.count(sub)]: the occurrences of [sub] met by a scan from the left that
    resumes after each match, so counted occurrences do not overlap.  [skip]
    is the number of characters of the last match still to pass. *)
Fixpoint count_from (sub : string) (skip : nat) (s : string) : nat :=
  match s with
  | EmptyString =>
      match skip with
      | O => if sub =? "" then 1 else 0
      | S _ => 0
      end
  | String _ r =>
      match skip with
      | S k => count_from sub k r
      | O => if prefix sub s
             then S (count_from sub (String.length sub - 1) r)
             else count_from sub 0 r
      end
  end.

Definition count (s sub : string) : nat := count_from sub 0 s.

(** [s.lstrip()], [s.rstrip()], [s.strip()] *)
Fixpoint lstrip (s : string) : string :=
  match s with
  | EmptyString => EmptyString
  | String c r => if isspace c then lstrip r else s
  end.

Fixpoint rstrip (s : string) : string :=
  match s with
  | EmptyString => EmptyString
  | String c r =>
      match rstrip r with
      | EmptyString => if isspace c then EmptyString else String c EmptyString
      | r' => String c r'
      end
  end.

Definition strip (s : string) : string := rstrip (lstrip s).

(** [re.split] on a one-character class: a cut at every separator, empty
    pieces kept. *)
Fixpoint split_on (sep : ascii -> bool) (s : string) : list string :=
  match s with
  | EmptyString => [EmptyString]
  | String c r =>
      if sep c then EmptyString :: split_on sep r
      else match split_on sep r with
           | [] => [String c EmptyString]
           | w :: ws => String c w :: ws
           end
  end.

(** [s.split()]: the maximal runs of non-space characters. *)
Definition split (s : string) : list string :=
  filter truthy_str (split_on isspace s).

(** [sep.join(parts)] *)
Fixpoint join (sep : string) (parts : list string) : string :=
  match parts with
  | [] => ""
  | [p] => p
  | p :: ps => append p (append sep (join sep ps))
  end.

(** The characters of a string, the way Python iterates over a [str]. *)
Fixpoint chars (s : string) : list string :=
  match s with
  | EmptyString => []
  | String c r => String c EmptyString :: chars r
  end.

(** A slice [l[:n]]: the first [n] items, or for a negative [n] all but the
    last [-n]. *)
Definition slice_to {A : Type} (n : Z) (l : list A) : list A :=
  if (0 <=? n)%Z then firstn (Z.to_nat n) l
  else firstn (List.length l - Z.to_nat (- n)) l.

End Py.

(** ** Values and exceptions *)

(** The outcome of a call that may raise. *)
Inductive outcome (A : Type) : Type :=
| Ok (a : A)
| Raise.
Arguments Ok {A} a.
Arguments Raise {A}.

(** A decoded JSON value: what [req.get_json()] returns and what the
    [evidence] of a candidate holds.  [JFloat] is a finite float. *)
#[local] Unset Elimination Schemes.
Inductive json : Type :=
| JNull
| JBool (b : bool)
| JInt (n : Z)
| JFloat (q : Q)
| JStr (s : string)
| JList (items : list json)
| JDict (fields : list (string * json)).
#[local] Set Elimination Schemes.

(** Truth value of a JSON value, as [or] and [if] test it. *)
Definition truthy (v : json) : bool :=
  match v with
  | JNull => false
  | JBool b => b
  | JInt n => negb (n =? 0)%Z
  | JFloat q => negb (Qeq_bool q 0)
  | JStr s => Py.truthy_str s
  | JList items => match items with [] => false | _ => true end
  | JDict fields => match fields with [] => false | _ => true end
  end.

(** [a or b] *)
Definition py_or (a b : json) : json := if truthy a then a else b.

(** [payload.get(key)] on the fields of a dict: [None] when absent. *)
Fixpoint get (key : string) (fields : list (string * json)) : json :=
  match fields with
  | [] => JNull
  | (k, v) :: rest => if key =? k then v else get key rest
  end.

(** The items of a JSON list. *)
Definition items_of (v : json) : list json :=
  match v with
  | JList items => items
  | _ => []
  end.

(** The strings among a list of JSON values. *)
Fixpoint strs (items : list json) : list string :=
  match items with
  | [] => []
  | JStr s :: rest => s :: strs rest
  | _ :: rest => strs rest
  end.

(** [str(n)] for an integer. *)
Definition str_of_int (n : Z) : string := NilZero.string_of_int (Z.to_int n).

(** The value of a run of decimal digits in which single underscores may
    separate digits; [seen] counts the digits read. *)
Fixpoint digits_value (acc : Z) (after_digit : bool) (seen : nat) (s : string)
  : option (Z * nat) :=
  match s with
  | EmptyString => if after_digit then Some (acc, seen) else None
  | String c r =>
      if Py.isdigit c
      then digits_value (10 * acc + Z.of_nat (nat_of_ascii c - 48)) true (S seen) r
      else if Ascii.eqb c "_" && after_digit then digits_value acc false seen r
      else None
  end.

(** The space [int()] skips around a numeral: TAB, LF, VT, FF, CR and SPACE.
    Unlike [str.strip()] it leaves FS, GS, RS and US, on which it raises. *)
Definition int_space (c : ascii) : bool :=
  let n := nat_of_ascii c in
  (((9 <=? n) && (n <=? 13)) || (n =? 32))%nat.

Fixpoint int_lstrip (s : string) : string :=
  match s with
  | EmptyString => EmptyString
  | String c r => if int_space c then int_lstrip r else s
  end.

Fixpoint int_rstrip (s : string) : string :=
  match s with
  | EmptyString => EmptyString
  | String c r =>
      match int_rstrip r with
      | EmptyString => if int_space c then EmptyString else String c EmptyString
      | r' => String c r'
      end
  end.

(** [int(s)] for a string: optional surrounding space, an optional sign, then
    digits; anything else raises [ValueError], as does a numeral of more than
    4300 digits. *)
Definition int_of_str (s : string) : outcome Z :=
  let t := int_rstrip (int_lstrip s) in
  let '(negative, body) :=
    match t with
    | String "-" r => (true, r)
    | String "+" r => (false, r)
    | _ => (false, t)
    end in
  match digits_value 0 false 0 body with
  | Some (v, n) =>
      if (n <=? 4300)%nat then Ok (if negative then (- v)%Z else v) else Raise
  | None => Raise
  end.

(** [int(v)]: a float is truncated towards zero; [None], a list and a dict
    raise [TypeError]. *)
Definition py_int (v : json) : outcome Z :=
  match v with
  | JBool b => Ok (if b then 1 else 0)%Z
  | JInt n => Ok n
  | JFloat q => Ok (Z.quot (Qnum q) (Zpos (Qden q)))
  | JStr s => int_of_str s
  | JNull | JList _ | JDict _ => Raise
  end.

(** [a > b] on scores. *)
Definition Qgtb (a b : Q) : bool :=
  match (a ?= b)%Q with
  | Gt => true
  | _ => false
  end.

(** ** A dict with string keys

    A Python dict keeps its keys in the order of their first insertion, and
    [list(d.values())] reads the values in that order. *)
Section Dict.
Context {V : Type}.

Definition dict := list (string * V).

Fixpoint dict_get (k : string) (d : dict) : option V :=
  match d with
  | [] => None
  | (k', v) :: rest => if k =? k' then Some v else dict_get k rest
  end.

(** [d[k] = v]: the value under an existing key is replaced where the key
    stands; a new key goes last. *)
Fixpoint dict_set (k : string) (v : V) (d : dict) : dict :=
  match d with
  | [] => [(k, v)]
  | (k', v') :: rest =>
      if k =? k' then (k', v) :: rest else (k', v') :: dict_set k v rest
  end.

Definition dict_keys (d : dict) : list string := map fst d.
Definition dict_values (d : dict) : list V := map snd d.
End Dict.
Arguments dict V : clear implicits.

(** [sorted(l, key=key, reverse=True)]: the stable sort by decreasing key,
    written as an insertion sort.  An item is put before the first item whose
    key is not greater than its own, so items with equal keys keep the order
    they had in [l]. *)
Section Sorted.
Context {A : Type} (key : A -> Q).

Fixpoint insert_desc (x : A) (l : list A) : list A :=
  match l with
  | [] => [x]
  | y :: ys => if Qgtb (key y) (key x) then y :: insert_desc x ys else x :: l
  end.

Fixpoint sorted_desc (l : list A) : list A :=
  match l with
  | [] => []
  | x :: xs => insert_desc x (sorted_desc xs)
  end.
End Sorted.

(** ** function_app.py: configuration *)

Definition DEFAULT_MAX : Z := 10.
Definition PER_SOURCE_CAP : Z := 20.

(** ** function_app.py: the scorer *)

(** The loop body of [_score_match]: [t] is the lowercased text. *)
Definition score_step (t : string) (score : Q) (term : string) : Q :=
  if Py.truthy_str term then
    let term := Py.lower term in
    let score := if Py.contains term t then (score + 2)%Q else score in
    (score + inject_Z (Z.of_nat (Py.count t term)) * (1 # 2))%Q
  else score.

Definition _score_match (text : string) (terms : list string) : Q :=
  if Py.truthy_str text then
    let t := Py.lower text in
    fold_left (score_step t) terms 0%Q
  else 0%Q.

(** ** function_app.py: the term extractor *)

Definition stop : list string :=
  Py.split "and or for the a an to of on in with by from at into over under across".

(** [x in l] for a list or set of strings. *)
Definition mem (x : string) (l : list string) : bool :=
  existsb (String.eqb x) l.

(** The characters [[^\w\s\-+/]] does not match. *)
Definition kept_char (c : ascii) : bool :=
  Py.isword c || Py.isspace c ||
  Ascii.eqb c "-" || Ascii.eqb c "+" || Ascii.eqb c "/".

(** [re.sub(r"[^\w\s\-+/]", " ", s)] *)
Fixpoint drop_punctuation (s : string) : string :=
  match s with
  | EmptyString => EmptyString
  | String c r =>
      String (if kept_char c then c else " "%char) (drop_punctuation r)
  end.

(** The separators of [re.split(r"[-/+]", w)]. *)
Definition compound_sep (c : ascii) : bool :=
  Ascii.eqb c "-" || Ascii.eqb c "/" || Ascii.eqb c "+".

(** The test a part passes to become a token. *)
Definition token_ok (w : string) : bool :=
  (2 <=? String.length w)%nat && negb (mem (Py.lower w) stop).

(** [add_tokens(s)], with the list [tokens] it appends to passed in and
    returned. *)
Definition add_tokens (tokens : list string) (s : string) : list string :=
  let s := drop_punctuation s in
  let parts :=
    fold_left (fun parts w => parts ++ Py.split_on compound_sep w)
              (Py.split s) [] in
  fold_left (fun tokens w =>
               let w := Py.strip w in
               if token_ok w then tokens ++ [w] else tokens)
            parts tokens.

(** Lines 83-88: the tokens of the ideas, then those of the keywords that are
    strings. *)
Definition collect_tokens (ideas : list string)
    (extra_keywords : option (list json)) : list string :=
  let tokens := fold_left add_tokens ideas [] in
  match extra_keywords with
  | Some (k :: ks) =>
      fold_left (fun tokens k =>
                   match k with
                   | JStr s => add_tokens tokens s
                   | _ => tokens
                   end)
                (k :: ks) tokens
  | _ => tokens
  end.

(** Lines 92-102: the body of the synonym loop. *)
Definition expand_step (expanded : list string) (t : string) : list string :=
  let tl := Py.lower t in
  let expanded := expanded ++ [t] in
  let expanded :=
    if tl =? "llm" then expanded ++ ["large language model"] else expanded in
  let expanded :=
    if tl =? "rag" then expanded ++ ["retrieval augmented generation"]
    else expanded in
  let expanded :=
    if mem tl ["geospatial"; "gis"]
    then expanded ++ ["geopandas"; "openstreetmap"; "osmnx"; "mapbox"]
    else expanded in
  if tl =? "langchain" then expanded ++ ["chatbot"] else expanded.

(** Lines 105-111: the body of the dedupe loop on the pair [(seen, out)]. *)
Definition dedupe_step (st : list string * list string) (t : string)
  : list string * list string :=
  let '(seen, out) := st in
  let key := Py.lower t in
  if mem key seen then (seen, out) else (key :: seen, out ++ [t]).

Definition dedupe_terms (expanded : list string) : list string :=
  snd (fold_left dedupe_step expanded ([], [])).

Definition expand_terms (ideas : list string)
    (extra_keywords : option (list json)) : list string :=
  fold_left expand_step (collect_tokens ideas extra_keywords) [].

Definition _build_terms (ideas : list string)
    (extra_keywords : option (list json)) : list string :=
  let expanded := expand_terms ideas extra_keywords in
  let out := dedupe_terms expanded in
  Py.slice_to 20 out.

(** ** function_app.py: candidates, dedup and ranking *)

(** A candidate: the ten-key dict every adapter builds.  A field the adapter
    sets to [None] is [None] here, any other is a string; [score] is always
    set, so the default of [x.get("score", 0)] never applies. *)
Record candidate : Type := mkCandidate {
  source : string;
  name : option string;
  username : option string;
  profile_url : option string;
  public_email : option string;
  blog : option string;
  location : option string;
  company : option string;
  evidence : json;
  score : Q
}.

(** [r["score"] = s] *)
Definition set_score (r : candidate) (s : Q) : candidate :=
  mkCandidate (source r) (name r) (username r) (profile_url r)
              (public_email r) (blog r) (location r) (company r)
              (evidence r) s.

(** Line 117: the key under which [_dedupe_keep_best] files a candidate. *)
Definition dedup_key (it : candidate) : string :=
  Py.join "||"
    (Py.chars (append (Py.lower (Py.or_empty (profile_url it)))
                      (append "|" (Py.lower (Py.or_empty (username it)))))).

(** Lines 116-122: the loop body on the dict [bykey]. *)
Definition dedupe_step_best (bykey : dict candidate) (it : candidate)
  : dict candidate :=
  let k := dedup_key it in
  match dict_get k bykey with
  | Some cur =>
      if Qgtb (score it) (score cur) then dict_set k it bykey else bykey
  | None => dict_set k it bykey
  end.

Definition _dedupe_keep_best (items : list candidate) : list candidate :=
  dict_values (fold_left dedupe_step_best items []).

Definition _clip (items : list candidate) (n : Z) : list candidate :=
  Py.slice_to n (sorted_desc score items).

(** ** function_app.py: the StackExchange adapter *)

(** An item of the [/users] answer, with the fields the adapter reads. *)
Record so_user : Type := mkSoUser {
  user_id : Z;
  display_name : option string;
  link : option string;
  website_url : option string;
  user_location : option string
}.

(** The two StackExchange calls made through [_http_get]: the users whose
    name holds [inname], and the [tag_name] of each top tag of a user.  A
    call that fails raises. *)
Record stack_api : Type := mkStackApi {
  get_users : string -> Z -> outcome (list so_user);
  get_top_tags : Z -> outcome (list (option string))
}.

(** Lines 218-219: the text the adapter scores. *)
Definition so_text (u : so_user) (tag_names : list string) : string :=
  Py.join " " [Py.or_empty (display_name u); Py.join " " tag_names].

(** Lines 221-222: whether the adapter adds its own location bonus;
    [location.lower()] raises on a location that is not a string. *)
Definition so_location_hit (location_ : json) (u : so_user) : outcome bool :=
  if truthy location_ && Py.truthy_str (Py.or_empty (user_location u)) then
    match location_ with
    | JStr loc =>
        Ok (Py.contains (Py.lower loc)
                        (Py.lower (Py.or_empty (user_location u))))
    | _ => Raise
    end
  else Ok false.

(** Lines 210-234: the candidate built for one user. *)
Definition so_candidate (terms : list string) (location_ : json)
    (u : so_user) (tag_items : list (option string)) : outcome candidate :=
  let tag_names := filter Py.truthy_str (map Py.or_empty tag_items) in
  let text := so_text u tag_names in
  let score := _score_match text terms in
  match so_location_hit location_ u with
  | Raise => Raise
  | Ok hit =>
      let score := if hit then (score + 1)%Q else score in
      Ok (mkCandidate "stackexchange" (display_name u)
            (Some (str_of_int (user_id u))) (link u) None (website_url u)
            (user_location u) None
            (JDict [("top_tags", JList (map JStr tag_names))]) score)
  end.

(** The loop of lines 209-234 over the users found. *)
Fixpoint so_loop (api : stack_api) (terms : list string) (location_ : json)
    (users : list so_user) (out : list candidate) : outcome (list candidate) :=
  match users with
  | [] => Ok out
  | u :: rest =>
      match get_top_tags api (user_id u) with
      | Raise => Raise
      | Ok tag_items =>
          match so_candidate terms location_ u tag_items with
          | Raise => Raise
          | Ok c => so_loop api terms location_ rest (out ++ [c])
          end
      end
  end.

Definition search_stackexchange_users (api : stack_api) (terms : list string)
    (location_ : json) (pagesize : Z) : outcome (list candidate) :=
  let top_term := match terms with t :: _ => t | [] => "engineer" end in
  match get_users api top_term pagesize with
  | Raise => Raise
  | Ok users => so_loop api terms location_ users []
  end.

(** ** function_app.py: the Papers with Code adapter *)

(** [urllib.parse.quote_plus(s)]: letters, digits and [_.-~] stay, a space
    becomes [+], any other character becomes [%] and its code in two
    uppercase hexadecimal digits. *)
Definition hex_digit (n : nat) : ascii :=
  if (n <? 10)%nat then ascii_of_nat (48 + n) else ascii_of_nat (55 + n).

Definition quote_safe (c : ascii) : bool :=
  Py.isalpha c || Py.isdigit c || Ascii.eqb c "_" || Ascii.eqb c "."
  || Ascii.eqb c "-" || Ascii.eqb c "~".

Definition quote_char (c : ascii) : string :=
  if quote_safe c then String c EmptyString
  else if Ascii.eqb c " " then "+"
  else String "%" (String (hex_digit (nat_of_ascii c / 16))
                    (String (hex_digit (nat_of_ascii c mod 16)) EmptyString)).

Fixpoint quote_plus (s : string) : string :=
  match s with
  | EmptyString => EmptyString
  | String c r => append (quote_char c) (quote_plus r)
  end.

(** [f"{x}"] for a string or [None]. *)
Definition fmt (o : option string) : string :=
  match o with
  | Some s => s
  | None => "None"
  end.

(** A value that is a string or [None], as JSON. *)
Definition opt_json (o : option string) : json :=
  match o with
  | Some s => JStr s
  | None => JNull
  end.

(** An author of a paper: a dict, of which the adapter reads [name] and
    [profile_url], or a plain string. *)
Inductive pwc_author : Type :=
| AuthorDict (author_name : option string) (author_profile : option string)
| AuthorText (text : string).

(** A paper of the [results], with the fields the adapter reads;
    [paper_repo_url] is the [url] of its [repository], [None] without one. *)
Record pwc_paper : Type := mkPaper {
  paper_title : option string;
  paper_url_abs : option string;
  paper_authors : list pwc_author;
  paper_repo_url : option string
}.

(** Lines 300-307: the name and the profile URL of an author.
    [quote_plus(None)] raises [TypeError]. *)
Definition pwc_name (a : pwc_author) : option string :=
  match a with
  | AuthorDict n _ => n
  | AuthorText s => Some s
  end.

Definition pwc_profile (a : pwc_author) : outcome string :=
  let given :=
    match a with
    | AuthorDict _ (Some u) => if Py.truthy_str u then Some u else None
    | _ => None
    end in
  match given with
  | Some u => Ok u
  | None =>
      match pwc_name a with
      | Some n =>
          Ok (append "https://paperswithcode.com/search?q_author="
                     (quote_plus n))
      | None => Raise
      end
  end.

(** Lines 300-321: the candidate for one author of one paper. *)
Definition pwc_candidate (terms : list string) (p : pwc_paper)
    (a : pwc_author) : outcome candidate :=
  let name_ := pwc_name a in
  match pwc_profile a with
  | Raise => Raise
  | Ok profile =>
      let text := append (fmt (paper_title p)) (append " " (fmt name_)) in
      let score := _score_match text terms in
      Ok (mkCandidate "paperswithcode" name_ None (Some profile)
            None None None None
            (JDict [("paper",
                     JDict [("title", opt_json (paper_title p));
                            ("url", opt_json (paper_url_abs p));
                            ("repo", opt_json (paper_repo_url p))])])
            (score + (if Py.truthy_str (Py.or_empty (paper_repo_url p))
                      then 1 else 0))%Q)
  end.

(** The loop of line 299 over the first three authors. *)
Fixpoint pwc_authors_loop (terms : list string) (p : pwc_paper)
    (authors : list pwc_author) (out : list candidate)
  : outcome (list candidate) :=
  match authors with
  | [] => Ok out
  | a :: rest =>
      match pwc_candidate terms p a with
      | Raise => Raise
      | Ok c => pwc_authors_loop terms p rest (out ++ [c])
      end
  end.

(** The loop of line 292 over the papers. *)
Fixpoint pwc_papers_loop (terms : list string) (papers : list pwc_paper)
    (out : list candidate) : outcome (list candidate) :=
  match papers with
  | [] => Ok out
  | p :: rest =>
      match pwc_authors_loop terms p (Py.slice_to 3 (paper_authors p)) out with
      | Raise => Raise
      | Ok out => pwc_papers_loop terms rest out
      end
  end.

(** The search call: the [results] of the answer, [None] when the answer is
    not a dict; a call that fails raises. *)
Definition pwc_api : Type := string -> Z -> outcome (option (list pwc_paper)).

Definition search_paperswithcode_authors (api : pwc_api)
    (terms : list string) (per_page : Z) : outcome (list candidate) :=
  let q := Py.join " " (Py.slice_to 6 terms) in
  match api q per_page with
  | Raise => Raise
  | Ok None => Ok []
  | Ok (Some papers) => pwc_papers_loop terms papers []
  end.

(** ** Floating-point arithmetic *)

(** A Python [float] is an IEEE-754 binary64.  The scores are kept as the
    rationals they denote; [fl q] is the binary64 nearest to [q], ties to the
    even significand, for [q] in the normal range.  A sum or product of two
    floats is the rounded exact result. *)
Definition round_half_even (n d : Z) : Z :=
  let q := (n / d)%Z in
  match (2 * (n mod d) ?= d)%Z with
  | Lt => q
  | Gt => (q + 1)%Z
  | Eq => if Z.even q then q else (q + 1)%Z
  end.

(** [a / (d * 2^e)] as a numerator and a denominator. *)
Definition scale2 (a d e : Z) : Z * Z :=
  if (0 <=? e)%Z then (a, (d * 2 ^ e)%Z) else ((a * 2 ^ (- e))%Z, d).

Definition fl (x : Q) : Q :=
  let n := Qnum x in
  let d := Zpos (Qden x) in
  if (n =? 0)%Z then 0%Q
  else
    let a := Z.abs n in
    let e0 := (Z.log2 a - Z.log2 d - 53)%Z in
    let '(n0, d0) := scale2 a d e0 in
    let e := if (n0 / d0 <? 2 ^ 53)%Z then e0 else (e0 + 1)%Z in
    let '(n1, d1) := scale2 a d e in
    let m := (Z.sgn n * round_half_even n1 d1)%Z in
    if (0 <=? e)%Z then inject_Z (m * 2 ^ e)
    else Qred (m # Z.to_pos (2 ^ (- e))).

Definition fadd (a b : Q) : Q := fl (a + b).
Definition fmul (a b : Q) : Q := fl (a * b).

(** ** function_app.py: the Hugging Face adapter *)

(** [n or 0] for an optional integer. *)
Definition or_zero (o : option Z) : Z :=
  match o with
  | Some n => n
  | None => 0%Z
  end.

(** A model of the answer, with the fields the adapter reads: strings or
    [None] for [author], integers or [None] for [likes] and [downloads].
    [model_id] is [None] for a dict without the key [modelId] and
    [Some None] for a [modelId] that is [None]. *)
Record hf_model : Type := mkModel {
  model_author : option string;
  model_id : option (option string);
  model_likes : option Z;
  model_downloads : option Z
}.

Definition is_slash (c : ascii) : bool := Ascii.eqb c "/".

(** Line 254: [m.get("author") or m.get("modelId", "").split("/")[0]];
    [None.split] raises [AttributeError]. *)
Definition hf_author (m : hf_model) : outcome string :=
  let a := Py.or_empty (model_author m) in
  if Py.truthy_str a then Ok a
  else
    match model_id m with
    | None => Ok (hd "" (Py.split_on is_slash ""))
    | Some None => Raise
    | Some (Some s) => Ok (hd "" (Py.split_on is_slash s))
    end.

(** Lines 254-257: the body of the grouping loop;
    [by_author.setdefault(author, []).append(m)]. *)
Definition hf_group_step (by_author : dict (list hf_model)) (m : hf_model)
  : outcome (dict (list hf_model)) :=
  match hf_author m with
  | Raise => Raise
  | Ok author =>
      if negb (Py.truthy_str author) then Ok by_author
      else
        let amodels :=
          match dict_get author by_author with
          | Some l => l
          | None => []
          end in
        Ok (dict_set author (amodels ++ [m]) by_author)
  end.

Fixpoint hf_group_loop (models : list hf_model)
    (by_author : dict (list hf_model)) : outcome (dict (list hf_model)) :=
  match models with
  | [] => Ok by_author
  | m :: rest =>
      match hf_group_step by_author m with
      | Raise => Raise
      | Ok by_author => hf_group_loop rest by_author
      end
  end.

(** Lines 265-269: [m.get("modelId") or ""], the evidence entry and the
    texts of one model. *)
Definition hf_mid (m : hf_model) : string :=
  match model_id m with
  | Some (Some s) => s
  | _ => ""
  end.

Definition hf_top_entry (m : hf_model) : json :=
  JDict [("model", JStr (hf_mid m));
         ("likes", JInt (or_zero (model_likes m)));
         ("downloads", JInt (or_zero (model_downloads m)));
         ("url", JStr (append "https://huggingface.co/" (hf_mid m)))].

Definition hf_blob (m : hf_model) : list string :=
  [hf_mid m; str_of_int (or_zero (model_likes m));
   str_of_int (or_zero (model_downloads m))].

(** Lines 259-281: the candidate of one author. *)
Definition hf_candidate (terms : list string) (author : string)
    (amodels : list hf_model) : candidate :=
  let shown := Py.slice_to 5 amodels in
  let top := map hf_top_entry shown in
  let text_blob := flat_map hf_blob shown in
  let score :=
    fadd (_score_match (Py.join " " text_blob) terms)
         (fmul (inject_Z (Z.min (Z.of_nat (List.length amodels)) 5))
               (fl (2 # 10))) in
  mkCandidate "huggingface" (Some author) (Some author)
    (Some (append "https://huggingface.co/" author))
    None None None None
    (JDict [("top_models", JList top)])
    score.

(** The search call: the models of the answer, [None] when the answer is not
    a list; a call that fails raises. *)
Definition hf_api : Type := string -> outcome (option (list hf_model)).

Definition search_huggingface_authors (api : hf_api) (terms : list string)
    (max_models : Z) : outcome (list candidate) :=
  let q := Py.join " " (Py.slice_to 4 terms) in
  match api q with
  | Raise => Raise
  | Ok models =>
      let grouped :=
        match models with
        | Some models => hf_group_loop (Py.slice_to max_models models) []
        | None => Ok []
        end in
      match grouped with
      | Raise => Raise
      | Ok by_author =>
          Ok (map (fun '(author, amodels) => hf_candidate terms author amodels)
                  by_author)
      end
  end.

(** ** function_app.py: the Kaggle adapter *)

(** A dataset of the listing, with the attributes the adapter reads; an
    attribute that is missing or [None] is [None], except [datasetSlug],
    [None] when missing and [Some None] when [None]. *)
Record kaggle_dataset : Type := mkDataset {
  ownerRef : option string;
  ownerUser : option string;
  dataset_title : option string;
  datasetSlug : option (option string)
}.

(** The entry of an owner in [by_owner]; a dataset is kept as its title and
    its url. *)
Record kaggle_info : Type := mkInfo {
  info_count : Z;
  info_datasets : list (option string * string)
}.

(** Line 342: [getattr(d, "ownerRef", None) or getattr(d, "ownerUser", None)]. *)
Definition kaggle_owner (d : kaggle_dataset) : option string :=
  if Py.truthy_str (Py.or_empty (ownerRef d)) then ownerRef d
  else ownerUser d.

(** Line 344. *)
Definition kaggle_url (d : kaggle_dataset) : string :=
  append "https://www.kaggle.com/"
    (append (fmt (kaggle_owner d))
       (append "/"
          match datasetSlug d with
          | None => ""
          | Some slug => fmt slug
          end)).

(** Lines 342-348: the body of the grouping loop. *)
Definition kaggle_group_step (by_owner : dict kaggle_info)
    (d : kaggle_dataset) : dict kaggle_info :=
  let owner := Py.or_empty (kaggle_owner d) in
  if Py.truthy_str owner then
    let e :=
      match dict_get owner by_owner with
      | Some e => e
      | None => mkInfo 0 []
      end in
    dict_set owner
      (mkInfo (info_count e + 1)
              (info_datasets e ++ [(dataset_title d, kaggle_url d)]))
      by_owner
  else by_owner.

Definition kaggle_evidence (x : option string * string) : json :=
  JDict [("title", opt_json (fst x)); ("url", JStr (snd x))].

(** Lines 349-363: the candidate of one owner. *)
Definition kaggle_candidate (terms : list string) (owner : string)
    (info : kaggle_info) : candidate :=
  let text :=
    Py.join " "
      (flat_map (fun x => let t := Py.or_empty (fst x) in
                          if Py.truthy_str t then [t] else [])
                (info_datasets info)) in
  let score :=
    fadd (_score_match text terms)
         (fmul (inject_Z (Z.min (info_count info) 5)) (fl (3 # 10))) in
  mkCandidate "kaggle" (Some owner) (Some owner)
    (Some (append "https://www.kaggle.com/" owner))
    None None None None
    (JDict [("datasets",
             JList (map kaggle_evidence
                        (Py.slice_to 5 (info_datasets info))))])
    score.

(** [kaggle.api.dataset_list(search=q, ...)]: the datasets, [None] when the
    result is not a list; a call that fails raises. *)
Definition kaggle_api : Type := string -> outcome (option (list kaggle_dataset)).

(** [enabled] is [KAGGLE_ENABLED].  What the listing raises is caught: the
    adapter returns [out], still empty. *)
Definition search_kaggle_owners_by_datasets (enabled : bool)
    (api : kaggle_api) (terms : list string) (max_rows : Z)
  : list candidate :=
  if negb enabled then []
  else
    let q := Py.join " " (Py.slice_to 4 terms) in
    match api q with
    | Raise => []
    | Ok ds =>
        let rows :=
          match ds with
          | Some ds => Py.slice_to max_rows ds
          | None => []
          end in
        let by_owner := fold_left kaggle_group_step rows [] in
        map (fun '(owner, info) => kaggle_candidate terms owner info)
            by_owner
    end.

(** ** function_app.py: the GitHub adapter *)

(** An item of the user search, of which the adapter reads [login]. *)
Record gh_item : Type := mkGhItem {
  item_login : option string
}.

(** The fields the adapter reads of a user and of a repository: strings or
    [None], an integer or [None] for [stargazers_count]. *)
Record gh_user : Type := mkGhUser {
  gh_name : option string;
  gh_bio : option string;
  gh_company : option string;
  gh_blog : option string;
  gh_html_url : option string;
  gh_email : option string;
  gh_location : option string
}.

Record gh_repo : Type := mkGhRepo {
  repo_name : option string;
  repo_html_url : option string;
  repo_stars : option Z;
  repo_language : option string
}.

(** The three calls.  [gh_search q per_page] is [run(q)]: the items of the
    answer, none when the answer is not a dict or has no items.
    [gh_get_user] raises also when the answer is not a dict, on which
    [user.get] fails; [gh_get_repos] is [None] when the answer is not a
    list. *)
Record github_api : Type := mkGithubApi {
  gh_search : string -> Z -> outcome (list gh_item);
  gh_get_user : string -> outcome gh_user;
  gh_get_repos : string -> outcome (option (list gh_repo))
}.

(** [f'"{t}"'] *)
Definition quoted (t : string) : string :=
  String "034" (append t (String "034" EmptyString)).

(** Lines 142-144. *)
Definition github_key_terms (terms : list string) : list string :=
  let key_terms :=
    Py.slice_to 6 (filter (fun t => (3 <=? String.length t)%nat) terms) in
  match key_terms with
  | [] => ["developer"]
  | _ => key_terms
  end.

Definition github_or_block (terms : list string) : string :=
  Py.join " OR " (map quoted (github_key_terms terms)).

(** Lines 147-151: the targeted query, with the location if there is one. *)
Definition github_qA (terms : list string) (location_ : option string)
  : string :=
  let qualifiers := "in:login in:name in:bio in:readme" in
  let q_core :=
    append "(" (append (github_or_block terms) (append ") " qualifiers)) in
  append q_core
    (if Py.truthy_str (Py.or_empty location_)
     then append " location:" (Py.or_empty location_)
     else "").

(** Line 156: the broader query. *)
Definition github_qB (terms : list string) : string :=
  append "(" (append (github_or_block terms) ") in:login in:name in:bio").

Definition opt_int_json (o : option Z) : json :=
  match o with
  | Some n => JInt n
  | None => JNull
  end.

Definition gh_repo_entry (r : gh_repo) : json :=
  JDict [("name", opt_json (repo_name r));
         ("url", opt_json (repo_html_url r));
         ("stars", opt_int_json (repo_stars r));
         ("language", opt_json (repo_language r))].

(** [a or b] for an optional string and a string. *)
Definition or_else (a : option string) (b : string) : string :=
  if Py.truthy_str (Py.or_empty a) then Py.or_empty a else b.

(** Lines 164-195: the candidate of one user. *)
Definition gh_candidate (terms : list string) (username_ : string)
    (user : gh_user) (repo_list : list gh_repo) : candidate :=
  let text :=
    Py.join " "
      [Py.or_empty (gh_bio user);
       Py.or_empty (gh_company user);
       Py.or_empty (gh_blog user);
       Py.join " " (map (fun r => Py.or_empty (repo_name r)) repo_list)] in
  let score := _score_match text terms in
  mkCandidate "github"
    (Some (or_else (gh_name user) username_))
    (Some username_)
    (Some (or_else (gh_html_url user)
                   (append "https://github.com/" username_)))
    (gh_email user) (gh_blog user) (gh_location user) (gh_company user)
    (JDict [("top_repos", JList (map gh_repo_entry repo_list))])
    (fadd score
          (fmul (inject_Z (Z.min (Z.of_nat (List.length repo_list)) 5))
                (fl (3 # 10)))).

(** Lines 159-196: the loop over the items; an item without a login is
    skipped, a call that fails ends the loop with its exception. *)
Fixpoint gh_loop (api : github_api) (terms : list string)
    (items : list gh_item) (out : list candidate)
  : outcome (list candidate) :=
  match items with
  | [] => Ok out
  | u :: rest =>
      let username_ := Py.or_empty (item_login u) in
      if negb (Py.truthy_str username_) then gh_loop api terms rest out
      else
        match gh_get_user api username_ with
        | Raise => Raise
        | Ok user =>
            match gh_get_repos api username_ with
            | Raise => Raise
            | Ok repos =>
                let repo_list :=
                  match repos with
                  | Some l => l
                  | None => []
                  end in
                gh_loop api terms rest
                  (out ++ [gh_candidate terms username_ user repo_list])
            end
        end
  end.

Definition search_github_users (api : github_api) (terms : list string)
    (location_ : option string) (per_page : Z) : outcome (list candidate) :=
  match gh_search api (github_qA terms location_) per_page with
  | Raise => Raise
  | Ok items =>
      let second :=
        match items with
        | [] => gh_search api (github_qB terms) per_page
        | _ => Ok items
        end in
      match second with
      | Raise => Raise
      | Ok items => gh_loop api terms items []
      end
  end.

(** ** function_app.py: the request handler *)

(** The five adapters as the handler calls them: the terms, the location
    where the adapter takes one, and the size limit. *)
Record sources : Type := mkSources {
  github : list string -> json -> Z -> outcome (list candidate);
  stackexchange : list string -> json -> Z -> outcome (list candidate);
  huggingface : list string -> Z -> outcome (list candidate);
  paperswithcode : list string -> Z -> outcome (list candidate);
  kaggle : list string -> Z -> outcome (list candidate)
}.

Inductive response_body : Type :=
| ErrorBody (error : string)
| ResultBody (candidates : list candidate) (query_terms : list string)
             (meta_location : json).

(** What the handler gives back: a response, or an exception it lets escape. *)
Inductive response : Type :=
| HttpResponse (status_code : Z) (body : response_body)
| Unhandled.

(** Line 402: [isinstance(x, str) and x.strip()] *)
Definition idea_ok (x : json) : bool :=
  match x with
  | JStr s => Py.truthy_str (Py.strip s)
  | _ => false
  end.

(** Line 402: the check [ideas] has to pass. *)
Definition ideas_ok (ideas : json) : bool :=
  match ideas with
  | JList items => forallb idea_ok items
  | _ => false
  end.

(** [try: results += call except Exception: ...] *)
Definition attempt (results : list candidate)
    (call : outcome (list candidate)) : list candidate :=
  match call with
  | Ok found => results ++ found
  | Raise => results
  end.

(** Lines 416-436: the fan-out. *)
Definition gather (src : sources) (terms : list string) (location_ : json)
    (max_results : Z) : list candidate :=
  let results := [] in
  let results :=
    attempt results
      (github src terms location_ (Z.min PER_SOURCE_CAP max_results)) in
  let results :=
    attempt results
      (stackexchange src terms location_ (Z.min PER_SOURCE_CAP max_results)) in
  let results := attempt results (huggingface src terms 40) in
  let results :=
    attempt results (paperswithcode src terms (Z.min 50 (max_results * 2))) in
  attempt results (kaggle src terms (Z.min 40 (max_results * 2))).

(** Lines 441-443: the aggregation-level boost of one candidate.  The
    candidates of [results] are distinct dicts, each built by one
    [out.append], so updating them in place is a map over the list.  The
    location of a candidate is a string or [None], so [loc] is a string and
    the test [isinstance(loc, str)] holds.  The sum is one of floats. *)
Definition boost_one (loc : string) (r : candidate) : candidate :=
  let l := Py.or_empty (location r) in
  if Py.contains (Py.lower loc) (Py.lower l)
  then set_score r (fadd (score r) (1 # 2))
  else r.

(** Lines 439-443; [location.lower()] raises on a location that is not a
    string as soon as there is a candidate to test. *)
Definition location_boost (location_ : json) (results : list candidate)
  : outcome (list candidate) :=
  if truthy location_ then
    match location_, results with
    | JStr loc, _ => Ok (map (boost_one loc) results)
    | _, [] => Ok []
    | _, _ :: _ => Raise
    end
  else Ok results.

(** Lines 439-447: boost, dedupe, rank and clip. *)
Definition aggregate (results : list candidate) (location_ : json)
    (limit : Z) : outcome (list candidate) :=
  match location_boost location_ results with
  | Raise => Raise
  | Ok results => Ok (_clip (_dedupe_keep_best results) limit)
  end.

Definition bad_request (msg : string) : response :=
  HttpResponse 400 (ErrorBody msg).

(** [suggest_collaborators(req)]; [req_json] is [None] when
    [req.get_json()] raises [ValueError]. *)
Definition suggest_collaborators (src : sources) (req_json : option json)
  : response :=
  match req_json with
  | None => bad_request "Invalid JSON body"
  | Some (JDict payload) =>
      let ideas := get "ideas" payload in
      if negb (ideas_ok ideas) then
        bad_request "'ideas' must be a non-empty list of strings"
      else
        match py_or (get "keywords" payload) (JList []) with
        | JList keywords =>
            let location_ := get "location" payload in
            match py_int (py_or (get "max_results" payload) (JInt DEFAULT_MAX)) with
            | Raise => Unhandled
            | Ok max_results =>
                let terms := _build_terms (strs (items_of ideas)) (Some keywords) in
                let results := gather src terms location_ max_results in
                match aggregate results location_ max_results with
                | Raise => Unhandled
                | Ok ranked =>
                    HttpResponse 200 (ResultBody ranked terms location_)
                end
            end
        | _ => bad_request "'keywords' must be a list of strings"
        end
  | Some _ => Unhandled
  end.

(** ** Notions the properties are stated with *)

(** What one term adds to the score of a text: 2 when the lowercased text
    contains the lowercased term, and a half per counted occurrence. *)
Definition term_contribution (text term : string) : Q :=
  ((if Py.contains (Py.lower term) (Py.lower text) then 2 else 0)
   + (1 # 2) * inject_Z (Z.of_nat (Py.count (Py.lower text) (Py.lower term))))%Q.

Definition Qsum (l : list Q) : Q := fold_right Qplus 0%Q l.

(** The candidates of a list filed under the key [k]. *)
Definition has_key (k : string) (it : candidate) : bool := dedup_key it =? k.

Definition group (k : string) (items : list candidate) : list candidate :=
  filter (has_key k) items.

(** [c] is the first candidate of [l] with the highest score: everything
    before it scores strictly less, nothing after it scores more. *)
Definition first_best (c : candidate) (l : list candidate) : Prop :=
  exists pre post,
    l = pre ++ c :: post
    /\ (forall d, In d pre -> (score d < score c)%Q)
    /\ (forall d, In d post -> (score d <= score c)%Q).

(** What the loop of [_dedupe_keep_best] maintains, [seen] being the items
    read so far: the keys of [bykey] are distinct, and under each key stands
    the first best candidate of its group. *)
Definition dedupe_inv (bykey : dict candidate) (seen : list candidate) : Prop :=
  NoDup (dict_keys bykey)
  /\ forall k,
       match dict_get k bykey with
       | Some c => first_best c (group k seen)
       | None => group k seen = []
       end.

(** The text line 117 joins: the lowercased profile URL, a bar, the
    lowercased username. *)
Definition composite (it : candidate) : string :=
  append (Py.lower (Py.or_empty (profile_url it)))
         (append "|" (Py.lower (Py.or_empty (username it)))).

(** Reads back a string from its characters joined by a two-character
    separator: every third character. *)
Fixpoint unjoin2 (s : string) : string :=
  match s with
  | EmptyString => EmptyString
  | String c r =>
      String c match r with
               | String _ (String _ r') => unjoin2 r'
               | _ => EmptyString
               end
  end.

(** Decreasing keys: every item is followed only by items whose key is not
    greater. *)
Definition desc {A : Type} (key : A -> Q) (l : list A) : Prop :=
  StronglySorted (fun a b => (key b <= key a)%Q) l.


(** The dedupe loop of [_build_terms] read as a recursion on the terms still
    to come: a term whose lowercase form was seen is skipped, any other is
    kept and its lowercase form recorded. *)
Fixpoint dedupe_from (seen : list string) (l : list string) : list string :=
  match l with
  | [] => []
  | t :: rest =>
      if mem (Py.lower t) seen then dedupe_from seen rest
      else t :: dedupe_from (Py.lower t :: seen) rest
  end.

(** A term that may stand in the output: at least two characters, and not a
    stopword. *)
Definition term_ok (t : string) : Prop :=
  (2 <= String.length t)%nat /\ ~ In t stop.

(** What a call to an adapter adds to [results]: its candidates, or nothing
    when it raises. *)
Definition contribution (call : outcome (list candidate)) : list candidate :=
  match call with
  | Ok found => found
  | Raise => []
  end.

(** The sources in which the adapters marked [true] raise on every call. *)
Definition fail_adapters (g s h p k : bool) (src : sources) : sources :=
  mkSources
    (if g then fun _ _ _ => Raise else github src)
    (if s then fun _ _ _ => Raise else stackexchange src)
    (if h then fun _ _ => Raise else huggingface src)
    (if p then fun _ _ => Raise else paperswithcode src)
    (if k then fun _ _ => Raise else kaggle src).

(** The requests the handler is specified for: [ideas] a non-empty list of
    non-blank strings, [keywords] absent or a list, [location] absent or a
    string, [max_results] absent or a positive integer. *)
Definition valid_ideas (payload : list (string * json)) : Prop :=
  exists items,
    get "ideas" payload = JList items
    /\ items <> []
    /\ forallb idea_ok items = true.

Definition valid_keywords (payload : list (string * json)) : Prop :=
  get "keywords" payload = JNull
  \/ exists kws, get "keywords" payload = JList kws.

Definition valid_location (payload : list (string * json)) : Prop :=
  get "location" payload = JNull
  \/ exists loc, get "location" payload = JStr loc.

Definition valid_max_results (payload : list (string * json)) : Prop :=
  get "max_results" payload = JNull
  \/ exists n, (0 < n)%Z /\ get "max_results" payload = JInt n.

Definition valid_request (payload : list (string * json)) : Prop :=
  valid_ideas payload /\ valid_keywords payload
  /\ valid_location payload /\ valid_max_results payload.

(** The terms and the limit the handler works with on a valid request. *)
Definition request_terms (payload : list (string * json)) : list string :=
  _build_terms (strs (items_of (get "ideas" payload)))
               (Some (items_of (get "keywords" payload))).

Definition request_limit (payload : list (string * json)) : Z :=
  match get "max_results" payload with
  | JInt n => n
  | _ => DEFAULT_MAX
  end.

(** Two candidates that agree on every field but the score. *)
Definition same_but_score (c r : candidate) : Prop :=
  source c = source r /\ name c = name r /\ username c = username r
  /\ profile_url c = profile_url r /\ public_email c = public_email r
  /\ blog c = blog r /\ location c = location r /\ company c = company r
  /\ evidence c = evidence r.



(** The keys of a list in the order in which each occurs first, those of
    [seen] left out. *)
Fixpoint first_new (seen : list string) (keys : list string) : list string :=
  match keys with
  | [] => []
  | k :: rest =>
      if mem k seen then first_new seen rest
      else k :: first_new (k :: seen) rest
  end.

(** Every character of a string passes a test. *)
Fixpoint all_chars (p : ascii -> bool) (s : string) : bool :=
  match s with
  | EmptyString => true
  | String c r => p c && all_chars p r
  end.

(** The phrases lines 95-102 append after a token, by its lowercase form. *)
Definition synonyms (tl : string) : list string :=
  (if tl =? "llm" then ["large language model"] else [])
  ++ (if tl =? "rag" then ["retrieval augmented generation"] else [])
  ++ (if mem tl ["geospatial"; "gis"]
      then ["geopandas"; "openstreetmap"; "osmnx"; "mapbox"] else [])
  ++ (if tl =? "langchain" then ["chatbot"] else []).

(** All the phrases the synonym loop can append. *)
Definition synonym_phrases : list string :=
  ["large language model"; "retrieval augmented generation"; "geopandas";
   "openstreetmap"; "osmnx"; "mapbox"; "chatbot"].

(** What the StackExchange adapter makes of a user: the fields it copies and
    the score, the text score with at most the adapter's own point on top. *)
Definition so_built (terms : list string) (tag_items : list (option string))
    (u : so_user) (c : candidate) : Prop :=
  source c = "stackexchange"
  /\ name c = display_name u
  /\ username c = Some (str_of_int (user_id u))
  /\ profile_url c = link u
  /\ public_email c = None
  /\ blog c = website_url u
  /\ location c = user_location u
  /\ company c = None
  /\ let text :=
        so_text u (filter Py.truthy_str (map Py.or_empty tag_items)) in
     (score c == _score_match text terms
      \/ score c == _score_match text terms + 1)%Q.

(** A location as the adapters are declared to take it: a string or [None]. *)
Definition optional_str (v : json) : Prop :=
  v = JNull \/ exists s, v = JStr s.

(** The (paper, author) pairs the Papers with Code adapter visits: the first
    three authors of each paper, paper by paper. *)
Definition pwc_pairs (papers : list pwc_paper)
  : list (pwc_paper * pwc_author) :=
  flat_map (fun p => map (pair p) (firstn 3 (paper_authors p))) papers.

(** An author the adapter has no profile URL for. *)
Definition no_profile (a : pwc_author) : bool :=
  match a with
  | AuthorDict _ (Some u) => negb (Py.truthy_str u)
  | _ => true
  end.

(** An author given as a dict with neither a name nor a profile URL. *)
Definition anonymous (a : pwc_author) : bool :=
  match pwc_name a with
  | None => no_profile a
  | Some _ => false
  end.

(** What the Papers with Code adapter makes of a paper and one of its
    authors. *)
Definition pwc_built (terms : list string) (pa : pwc_paper * pwc_author)
    (c : candidate) : Prop :=
  let (p, a) := pa in
  source c = "paperswithcode"
  /\ name c = pwc_name a
  /\ username c = None
  /\ (exists u, profile_url c = Some u /\ u <> "")
  /\ public_email c = None /\ blog c = None
  /\ location c = None /\ company c = None
  /\ score c
     = (_score_match
          (append (fmt (paper_title p)) (append " " (fmt (pwc_name a)))) terms
        + (if Py.truthy_str (Py.or_empty (paper_repo_url p)) then 1 else 0))%Q.

(** Reads a lower-cased [quote_plus] text back: [%xy] is the byte with the
    hexadecimal digits [x] and [y], [+] is a space. *)
Definition hex_value (c : ascii) : nat :=
  let n := nat_of_ascii c in
  if Py.isdigit c then (n - 48)%nat
  else if (97 <=? n)%nat then (n - 87)%nat else (n - 55)%nat.

Fixpoint unquote (s : string) : string :=
  match s with
  | EmptyString => EmptyString
  | String c r =>
      if Ascii.eqb c "%" then
        match r with
        | String h1 (String h2 r') =>
            String (ascii_of_nat (16 * hex_value h1 + hex_value h2))
                   (unquote r')
        | _ => s
        end
      else if Ascii.eqb c "+" then String " " (unquote r)
      else String c (unquote r)
  end.

(** Grouping a list by an optional string key, stated without a dict: the
    keys in the order in which each occurs first, each with the items filed
    under it, in the order of the list. *)
Definition keyed {X : Type} (key : X -> option string) (k : string) (x : X)
  : bool :=
  match key x with
  | Some k' => k' =? k
  | None => false
  end.

Definition keys_of {X : Type} (key : X -> option string) (xs : list X)
  : list string :=
  flat_map (fun x => match key x with Some k => [k] | None => [] end) xs.

Definition grouped {X : Type} (key : X -> option string) (xs : list X)
  : list (string * list X) :=
  map (fun k => (k, filter (keyed key k) xs)) (first_new [] (keys_of key xs)).

(** The step of a loop that files each item with a key under that key in a
    dict, starting an entry from [init] and extending it with [add]. *)
Definition group_step {X V : Type} (key : X -> option string) (init : V)
    (add : V -> X -> V) (d : dict V) (x : X) : dict V :=
  match key x with
  | None => d
  | Some k =>
      dict_set k
        (add match dict_get k d with Some v => v | None => init end x) d
  end.

(** The author a model is filed under, if any. *)
Definition hf_key (m : hf_model) : option string :=
  match hf_author m with
  | Ok a => if Py.truthy_str a then Some a else None
  | Raise => None
  end.

(** The owner a dataset is filed under, if any. *)
Definition kaggle_key (d : kaggle_dataset) : option string :=
  let owner := Py.or_empty (kaggle_owner d) in
  if Py.truthy_str owner then Some owner else None.

(** The entry the Kaggle adapter keeps for an owner with the datasets [g]. *)
Definition kaggle_info_of (g : list kaggle_dataset) : kaggle_info :=
  mkInfo (Z.of_nat (List.length g))
         (map (fun d => (dataset_title d, kaggle_url d)) g).

(** The logins of the items the GitHub adapter does not skip. *)
Definition gh_logins (items : list gh_item) : list string :=
  flat_map (fun u => let l := Py.or_empty (item_login u) in
                     if Py.truthy_str l then [l] else [])
           items.

(** The items the GitHub adapter works on: those of the targeted query, or
    those of the broader query when the targeted one finds nothing. *)
Definition gh_items (api : github_api) (terms : list string)
    (location_ : option string) (per_page : Z) : outcome (list gh_item) :=
  match gh_search api (github_qA terms location_) per_page with
  | Ok [] => gh_search api (github_qB terms) per_page
  | r => r
  end.

(** What the GitHub adapter makes of a login, its user and repositories. *)
Definition gh_built (api : github_api) (terms : list string)
    (login : string) (c : candidate) : Prop :=
  exists user repos,
    gh_get_user api login = Ok user
    /\ gh_get_repos api login = Ok repos
    /\ source c = "github"
    /\ username c = Some login
    /\ (exists n, name c = Some n /\ n <> ""
                  /\ (gh_name user = Some n \/ n = login))
    /\ (exists u, profile_url c = Some u /\ u <> ""
                  /\ (gh_html_url user = Some u
                      \/ u = append "https://github.com/" login))
    /\ public_email c = gh_email user
    /\ blog c = gh_blog user
    /\ location c = gh_location user
    /\ company c = gh_company user.

(** The characters of a term that cannot end a quoted term of a query or
    start a qualifier: word characters and the space. *)
Definition plain_char (c : ascii) : bool := Py.isword c || Ascii.eqb c " ".

(** * Properties *)

(** ** The scorer *)

Lemma score_step_contribution (text : string) (acc : Q) (term : string) :
  Py.truthy_str term = true ->
  (score_step (Py.lower text) acc term == acc + term_contribution text term)%Q.
Proof.
  intros Hterm. unfold score_step, term_contribution. rewrite Hterm.
  destruct (Py.contains (Py.lower term) (Py.lower text)); ring.
Qed.

Lemma score_loop_sum (text : string) (terms : list string) :
  forall acc acc' : Q,
    (acc == acc')%Q ->
    (fold_left (score_step (Py.lower text)) terms acc
     == acc' + Qsum (map (term_contribution text) (filter Py.truthy_str terms)))%Q.
Proof.
  induction terms as [|term terms IH]; intros acc acc' Hacc; simpl.
  - rewrite Hacc. ring.
  - destruct (Py.truthy_str term) eqn:Hterm.
    + simpl. rewrite (IH _ (acc' + term_contribution text term)%Q).
      * ring.
      * rewrite score_step_contribution by exact Hterm. now rewrite Hacc.
    + apply IH. unfold score_step. now rewrite Hterm.
Qed.

(** C7.  [_score_match] returns 0 for the empty text and otherwise the sum,
    over the non-empty terms, of 2 when the lowercased text contains the
    lowercased term plus a half per occurrence [str.count] counts; on
    ["developer tools for RAG"] and [["rag"]] this is 2.5. *)
Theorem score_match_sum :
  (forall text terms,
      (_score_match text terms
       == if text =? "" then 0
          else Qsum (map (term_contribution text)
                         (filter Py.truthy_str terms)))%Q)
  /\ (forall terms, _score_match "" terms = 0%Q)
  /\ _score_match "developer tools for RAG" ["rag"] = (5 # 2)%Q.
Proof.
  split; [|split].
  - intros text terms. unfold _score_match. unfold Py.truthy_str at 1.
    destruct (text =? "").
    + reflexivity.
    + simpl negb. cbv iota.
      rewrite (score_loop_sum text terms 0 0)%Q by reflexivity. ring.
  - intros terms. reflexivity.
  - vm_compute. reflexivity.
Qed.

(** ** The insertion-ordered dict *)

Section DictFacts.
Context {V : Type}.
Implicit Types (d : dict V) (k : string) (v : V).

Lemma dict_get_None d k : dict_get k d = None <-> ~ In k (dict_keys d).
Proof.
  induction d as [|[k' v'] d IH]; simpl.
  - tauto.
  - destruct (String.eqb_spec k k') as [->|Hne].
    + split; [discriminate | intros H; exfalso; apply H; now left].
    + rewrite IH. split.
      * intros H [E|HIn]; [now apply Hne | now apply H].
      * intros H HIn. apply H. now right.
Qed.

Lemma dict_get_In d k v : dict_get k d = Some v -> In (k, v) d.
Proof.
  induction d as [|[k' v'] d IH]; simpl; [discriminate|].
  destruct (String.eqb_spec k k') as [->|Hne].
  - intros [= ->]. now left.
  - intros H. right. now apply IH.
Qed.

Lemma dict_In_get d k v :
  NoDup (dict_keys d) -> In (k, v) d -> dict_get k d = Some v.
Proof.
  induction d as [|[k' v'] d IH]; simpl; [tauto|].
  intros Hnd [[= -> ->]|HIn].
  - now rewrite String.eqb_refl.
  - inversion Hnd as [|? ? Hnotin Hnd']; subst.
    destruct (String.eqb_spec k k') as [->|Hne].
    + exfalso. apply Hnotin. change k' with (fst (k', v)). now apply in_map.
    + now apply IH.
Qed.

Lemma dict_get_set_eq d k v : dict_get k (dict_set k v d) = Some v.
Proof.
  induction d as [|[k' v'] d IH]; simpl.
  - now rewrite String.eqb_refl.
  - destruct (String.eqb_spec k k') as [->|Hne]; simpl.
    + now rewrite String.eqb_refl.
    + destruct (String.eqb_spec k k'); [contradiction | exact IH].
Qed.

Lemma dict_get_set_ne d k k' v :
  k <> k' -> dict_get k' (dict_set k v d) = dict_get k' d.
Proof.
  intros Hne. induction d as [|[k0 v0] d IH]; simpl.
  - destruct (String.eqb_spec k' k); [congruence | reflexivity].
  - destruct (String.eqb_spec k k0) as [->|Hk]; simpl.
    + destruct (String.eqb_spec k' k0); [congruence | reflexivity].
    + destruct (String.eqb_spec k' k0); [reflexivity | exact IH].
Qed.

(** Assigning under a key the dict has leaves the keys where they are. *)
Lemma dict_keys_set_old d k v :
  In k (dict_keys d) -> dict_keys (dict_set k v d) = dict_keys d.
Proof.
  induction d as [|[k' v'] d IH]; simpl; [tauto|].
  intros HIn. destruct (String.eqb_spec k k') as [->|Hne]; simpl.
  - reflexivity.
  - f_equal. apply IH. destruct HIn; [congruence | assumption].
Qed.

(** Assigning under a new key puts the key last. *)
Lemma dict_keys_set_new d k v :
  ~ In k (dict_keys d) -> dict_keys (dict_set k v d) = dict_keys d ++ [k].
Proof.
  induction d as [|[k' v'] d IH]; simpl; [reflexivity|].
  intros Hnotin. destruct (String.eqb_spec k k') as [->|Hne]; simpl.
  - exfalso. apply Hnotin. now left.
  - f_equal. apply IH. intros H. apply Hnotin. now right.
Qed.

Lemma dict_set_NoDup d k v :
  NoDup (dict_keys d) -> NoDup (dict_keys (dict_set k v d)).
Proof.
  intros Hnd. destruct (in_dec string_dec k (dict_keys d)) as [HIn|Hnotin].
  - now rewrite dict_keys_set_old.
  - rewrite dict_keys_set_new by assumption.
    apply NoDup_app; [assumption | repeat constructor; simpl; tauto |].
    intros x Hx [<-|[]]. contradiction.
Qed.
End DictFacts.

(** ** Comparison of scores *)

Lemma Qgtb_true (a b : Q) : Qgtb a b = true <-> (b < a)%Q.
Proof.
  unfold Qgtb. rewrite (Qgt_alt a b).
  destruct (a ?= b)%Q; split; intros H; congruence.
Qed.

Lemma Qgtb_false (a b : Q) : Qgtb a b = false <-> (a <= b)%Q.
Proof.
  unfold Qgtb. rewrite (Qle_alt a b).
  destruct (a ?= b)%Q; split; intros H; congruence.
Qed.

(** ** Dedup *)

Lemma group_app (k : string) (l1 l2 : list candidate) :
  group k (l1 ++ l2) = group k l1 ++ group k l2.
Proof. apply filter_app. Qed.

Lemma group_In (k : string) (c : candidate) (l : list candidate) :
  In c (group k l) <-> In c l /\ dedup_key c = k.
Proof.
  unfold group, has_key. rewrite filter_In.
  now rewrite String.eqb_eq.
Qed.

Lemma first_best_In (c : candidate) (l : list candidate) :
  first_best c l -> In c l.
Proof.
  intros (pre & post & -> & _). apply in_or_app. right. now left.
Qed.

Lemma first_best_single (c : candidate) : first_best c [c].
Proof.
  exists [], []. repeat split; simpl; tauto.
Qed.

(** A later candidate that does not score more leaves the best in place. *)
Lemma first_best_keep (c it : candidate) (l : list candidate) :
  first_best c l -> (score it <= score c)%Q -> first_best c (l ++ [it]).
Proof.
  intros (pre & post & -> & Hpre & Hpost) Hle.
  exists pre, (post ++ [it]). split; [|split].
  - now rewrite <- app_assoc.
  - exact Hpre.
  - intros d Hd. apply in_app_or in Hd as [Hd|[<-|[]]]; auto.
Qed.

(** A later candidate that scores strictly more becomes the best. *)
Lemma first_best_replace (c it : candidate) (l : list candidate) :
  first_best c l -> (score c < score it)%Q -> first_best it (l ++ [it]).
Proof.
  intros (pre & post & -> & Hpre & Hpost) Hlt.
  exists (pre ++ c :: post), []. split; [reflexivity | split].
  - intros d Hd. apply in_app_or in Hd as [Hd|[<-|Hd]].
    + apply Qlt_trans with (score c); [now apply Hpre | exact Hlt].
    + exact Hlt.
    + apply Qle_lt_trans with (score c); [now apply Hpost | exact Hlt].
  - intros d [].
Qed.

Lemma dedupe_inv_nil : dedupe_inv [] [].
Proof.
  split; [constructor | intros k; reflexivity].
Qed.

Lemma dedupe_inv_step (bykey : dict candidate) (seen : list candidate)
    (it : candidate) :
  dedupe_inv bykey seen ->
  dedupe_inv (dedupe_step_best bykey it) (seen ++ [it]).
Proof.
  intros [Hnd Hget]. unfold dedupe_step_best.
  set (k0 := dedup_key it).
  assert (Hgroup : forall k, group k (seen ++ [it])
                   = group k seen ++ (if k0 =? k then [it] else [])).
  { intros k. rewrite group_app. reflexivity. }
  pose proof (Hget k0) as Hk0.
  destruct (dict_get k0 bykey) as [cur|] eqn:Ecur;
    [destruct (Qgtb (score it) (score cur)) eqn:Egt|].
  - (* the newcomer replaces the stored candidate *)
    split; [now apply dict_set_NoDup|].
    intros k. rewrite Hgroup. destruct (String.eqb_spec k0 k) as [<-|Hne].
    + rewrite dict_get_set_eq. apply (first_best_replace cur); [exact Hk0|].
      now apply Qgtb_true.
    + rewrite dict_get_set_ne by exact Hne. rewrite app_nil_r. apply Hget.
  - (* the stored candidate stays *)
    split; [exact Hnd|].
    intros k. rewrite Hgroup. destruct (String.eqb_spec k0 k) as [<-|Hne].
    + rewrite Ecur. apply first_best_keep; [exact Hk0|].
      now apply Qgtb_false.
    + rewrite app_nil_r. apply Hget.
  - (* a new key *)
    split; [now apply dict_set_NoDup|].
    intros k. rewrite Hgroup. destruct (String.eqb_spec k0 k) as [<-|Hne].
    + rewrite dict_get_set_eq, Hk0. apply first_best_single.
    + rewrite dict_get_set_ne by exact Hne. rewrite app_nil_r. apply Hget.
Qed.

Lemma dedupe_inv_loop (items : list candidate) :
  forall bykey seen,
    dedupe_inv bykey seen ->
    dedupe_inv (fold_left dedupe_step_best items bykey) (seen ++ items).
Proof.
  induction items as [|it items IH]; intros bykey seen Hinv; simpl.
  - now rewrite app_nil_r.
  - replace (seen ++ it :: items) with ((seen ++ [it]) ++ items)
      by now rewrite <- app_assoc.
    apply IH. now apply dedupe_inv_step.
Qed.

Lemma dedupe_inv_final (items : list candidate) :
  dedupe_inv (fold_left dedupe_step_best items []) items.
Proof. apply (dedupe_inv_loop items [] []), dedupe_inv_nil. Qed.

(** Under the invariant every stored candidate stands under its own key. *)
Lemma dedupe_inv_key (bykey : dict candidate) (seen : list candidate) :
  dedupe_inv bykey seen ->
  forall k c, In (k, c) bykey -> dedup_key c = k /\ In c seen.
Proof.
  intros [Hnd Hget] k c HIn.
  apply (dict_In_get _ _ _ Hnd) in HIn.
  specialize (Hget k). rewrite HIn in Hget.
  apply first_best_In, group_In in Hget. tauto.
Qed.

Lemma values_group (bykey : dict candidate) :
  NoDup (dict_keys bykey) ->
  (forall k c, In (k, c) bykey -> dedup_key c = k) ->
  forall k,
    group k (dict_values bykey)
    = match dict_get k bykey with Some c => [c] | None => [] end.
Proof.
  induction bykey as [|[k' c'] d IH]; intros Hnd Hkey k; [reflexivity|].
  inversion Hnd as [|? ? Hnotin Hnd']; subst.
  assert (Hc' : dedup_key c' = k') by (apply Hkey; now left).
  assert (IHd := IH Hnd' (fun k c H => Hkey k c (or_intror H))).
  simpl. unfold has_key at 1. rewrite Hc'.
  destruct (String.eqb_spec k k') as [->|Hne].
  - rewrite String.eqb_refl. f_equal.
    fold (group k' (dict_values d)). rewrite IHd.
    apply dict_get_None in Hnotin. now rewrite Hnotin.
  - destruct (String.eqb_spec k' k); [congruence|]. apply IHd.
Qed.

Lemma map_key_values (bykey : dict candidate) :
  (forall k c, In (k, c) bykey -> dedup_key c = k) ->
  map dedup_key (dict_values bykey) = dict_keys bykey.
Proof.
  induction bykey as [|[k c] d IH]; intros Hkey; [reflexivity|].
  simpl. f_equal.
  - apply Hkey. now left.
  - apply IH. intros k' c' H. apply Hkey. now right.
Qed.

(** The keys of the survivors are distinct. *)
Lemma dedupe_keys_NoDup (items : list candidate) :
  NoDup (map dedup_key (_dedupe_keep_best items)).
Proof.
  unfold _dedupe_keep_best.
  pose proof (dedupe_inv_final items) as Hinv.
  rewrite map_key_values.
  - apply Hinv.
  - intros k c H. now apply (dedupe_inv_key _ _ Hinv).
Qed.

(** Every survivor is one of the items. *)
Lemma dedupe_incl (items : list candidate) :
  incl (_dedupe_keep_best items) items.
Proof.
  intros c Hc. unfold _dedupe_keep_best, dict_values in Hc.
  apply in_map_iff in Hc as ([k c'] & <- & HIn).
  now apply (dedupe_inv_key _ _ (dedupe_inv_final items)) in HIn.
Qed.

Lemma dedupe_group (items : list candidate) (k : string) :
  match group k items with
  | [] => group k (_dedupe_keep_best items) = []
  | _ :: _ =>
      exists c, group k (_dedupe_keep_best items) = [c]
                /\ first_best c (group k items)
  end.
Proof.
  pose proof (dedupe_inv_final items) as Hinv.
  unfold _dedupe_keep_best. rewrite values_group.
  - destruct Hinv as [_ Hget]. specialize (Hget k).
    destruct (dict_get k _) as [c|].
    + destruct (group k items) eqn:E.
      * destruct Hget as (pre & post & Habs & _). now destruct pre.
      * exists c. split; [reflexivity | exact Hget].
    + now rewrite Hget.
  - apply Hinv.
  - intros k' c H. now apply (dedupe_inv_key _ _ Hinv).
Qed.

Lemma unjoin2_join (s : string) : unjoin2 (Py.join "||" (Py.chars s)) = s.
Proof.
  induction s as [|c r IH]; [reflexivity|].
  destruct r as [|c' r']; [reflexivity|].
  change (Py.join "||" (Py.chars (String c (String c' r'))))
    with (String c (String "|" (String "|"
            (Py.join "||" (Py.chars (String c' r')))))).
  cbn [unjoin2]. now rewrite IH.
Qed.

(** Two candidates share a key exactly when their composite texts agree. *)
Lemma dedup_key_composite (a b : candidate) :
  dedup_key a = dedup_key b <-> composite a = composite b.
Proof.
  change (dedup_key a) with (Py.join "||" (Py.chars (composite a))).
  change (dedup_key b) with (Py.join "||" (Py.chars (composite b))).
  split; intros H; [|now rewrite H].
  rewrite <- (unjoin2_join (composite a)), <- (unjoin2_join (composite b)).
  now rewrite H.
Qed.

Lemma dedupe_pair_better_later (a b : candidate) :
  dedup_key a = dedup_key b -> (score a < score b)%Q ->
  _dedupe_keep_best [a; b] = [b].
Proof.
  intros Hk Hlt. unfold _dedupe_keep_best. cbn [fold_left].
  unfold dedupe_step_best. cbn [dict_get dict_set].
  rewrite <- Hk, String.eqb_refl.
  apply Qgtb_true in Hlt. now rewrite Hlt.
Qed.

Lemma dedupe_pair_better_first (a b : candidate) :
  dedup_key a = dedup_key b -> (score a <= score b)%Q ->
  _dedupe_keep_best [b; a] = [b].
Proof.
  intros Hk Hle. unfold _dedupe_keep_best. cbn [fold_left].
  unfold dedupe_step_best. cbn [dict_get dict_set].
  rewrite Hk, String.eqb_refl.
  apply Qgtb_false in Hle. now rewrite Hle.
Qed.

(** C1.  [_dedupe_keep_best] files candidates under the key built from the
    lowercased profile URL and the lowercased username (absent fields read as
    empty).  Of every group of the input exactly one candidate survives: the
    first of the group that has its highest score.  Of two candidates with
    the same profile URL and username scoring 3.0 and 5.0 the latter is kept,
    whichever comes first. *)
Theorem dedupe_keep_best_first_best :
  (forall a b, dedup_key a = dedup_key b <-> composite a = composite b)
  /\ (forall items k,
        match group k items with
        | [] => group k (_dedupe_keep_best items) = []
        | _ :: _ =>
            exists c, group k (_dedupe_keep_best items) = [c]
                      /\ first_best c (group k items)
        end)
  /\ (forall a b,
        profile_url a = profile_url b -> username a = username b ->
        (score a == 3)%Q -> (score b == 5)%Q ->
        _dedupe_keep_best [a; b] = [b] /\ _dedupe_keep_best [b; a] = [b]).
Proof.
  split; [exact dedup_key_composite | split; [exact dedupe_group|]].
  intros a b Hurl Huser Ha Hb.
  assert (Hk : dedup_key a = dedup_key b).
  { apply dedup_key_composite. unfold composite. now rewrite Hurl, Huser. }
  assert (Hlt : (score a < score b)%Q) by (rewrite Ha, Hb; reflexivity).
  split.
  - now apply dedupe_pair_better_later.
  - apply dedupe_pair_better_first; [exact Hk | now apply Qlt_le_weak].
Qed.

Lemma dedupe_keep_best_first_best_witness :
  let a := mkCandidate "github" (Some "Ada") (Some "ada")
             (Some "https://github.com/ada") None None None None JNull 3 in
  let b := mkCandidate "github" (Some "Ada L") (Some "ada")
             (Some "https://github.com/ada") None None None None JNull 5 in
  _dedupe_keep_best [a; b] = [b] /\ _dedupe_keep_best [b; a] = [b].
Proof.
  intros a b.
  apply (proj2 (proj2 dedupe_keep_best_first_best) a b); reflexivity.
Defined.

(** ** The stable sort *)

Section SortedFacts.
Context {A : Type} (key : A -> Q).

Lemma insert_desc_perm (x : A) (l : list A) :
  Permutation (insert_desc key x l) (x :: l).
Proof.
  induction l as [|y ys IH]; simpl; [reflexivity|].
  destruct (Qgtb (key y) (key x)); [|reflexivity].
  rewrite IH. apply perm_swap.
Qed.

Lemma sorted_desc_perm (l : list A) : Permutation (sorted_desc key l) l.
Proof.
  induction l as [|x xs IH]; simpl; [reflexivity|].
  rewrite insert_desc_perm. now constructor.
Qed.

Lemma insert_desc_sorted (x : A) (l : list A) :
  desc key l -> desc key (insert_desc key x l).
Proof.
  unfold desc. induction l as [|y ys IH]; intros Hs; simpl.
  - repeat constructor.
  - inversion Hs as [|? ? Hys Hall]; subst.
    destruct (Qgtb (key y) (key x)) eqn:E.
    + constructor; [now apply IH|].
      apply (Permutation_Forall (x := x :: ys)).
      * symmetry. apply insert_desc_perm.
      * constructor; [|exact Hall].
        apply Qlt_le_weak. now apply Qgtb_true.
    + apply Qgtb_false in E. constructor; [exact Hs|].
      constructor; [exact E|].
      eapply Forall_impl; [|exact Hall].
      intros z Hz. now apply Qle_trans with (key y).
Qed.

Lemma sorted_desc_sorted (l : list A) : desc key (sorted_desc key l).
Proof.
  induction l as [|x xs IH]; simpl.
  - constructor.
  - now apply insert_desc_sorted.
Qed.


End SortedFacts.

(** ** The order of the survivors *)

Lemma mem_true_In (x : string) (l : list string) : mem x l = true <-> In x l.
Proof.
  unfold mem. rewrite existsb_exists. split.
  - intros (y & Hy & E). apply String.eqb_eq in E. now subst.
  - intros H. exists x. split; [exact H | apply String.eqb_refl].
Qed.






(** ** Rank and clip *)

Lemma slice_to_pos {A : Type} (n : Z) (l : list A) :
  (0 <= n)%Z -> Py.slice_to n l = firstn (Z.to_nat n) l.
Proof.
  intros Hn. unfold Py.slice_to.
  now destruct (Z.leb_spec 0 n); [|lia].
Qed.

Lemma dict_set_fresh {V : Type} (d : dict V) (k : string) (v : V) :
  ~ In k (dict_keys d) -> dict_set k v d = d ++ [(k, v)].
Proof.
  induction d as [|[k' v'] d IH]; simpl; [reflexivity|].
  intros Hnotin. destruct (String.eqb_spec k k') as [->|Hne].
  - exfalso. apply Hnotin. now left.
  - f_equal. apply IH. intros H. apply Hnotin. now right.
Qed.

Lemma dedupe_loop_distinct (items : list candidate) :
  forall bykey : dict candidate,
    NoDup (dict_keys bykey ++ map dedup_key items) ->
    fold_left dedupe_step_best items bykey
    = bykey ++ map (fun it => (dedup_key it, it)) items.
Proof.
  induction items as [|it items IH]; intros bykey Hnd; simpl.
  - now rewrite app_nil_r.
  - assert (Hfresh : ~ In (dedup_key it) (dict_keys bykey)).
    { intros HIn. apply NoDup_remove_2 in Hnd. apply Hnd.
      apply in_or_app. now left. }
    unfold dedupe_step_best at 2.
    rewrite (proj2 (dict_get_None bykey (dedup_key it)) Hfresh).
    rewrite dict_set_fresh by exact Hfresh.
    rewrite IH.
    + now rewrite <- app_assoc.
    + unfold dict_keys. rewrite map_app, <- app_assoc. exact Hnd.
Qed.

(** Candidates with pairwise distinct keys all survive, in their order. *)
Lemma dedupe_distinct (items : list candidate) :
  NoDup (map dedup_key items) -> _dedupe_keep_best items = items.
Proof.
  intros Hnd. unfold _dedupe_keep_best.
  rewrite dedupe_loop_distinct by exact Hnd.
  unfold dict_values. simpl. rewrite map_map. apply map_id.
Qed.



(** ** The term extractor *)

Lemma mem_not_In (x : string) (l : list string) : mem x l = false <-> ~ In x l.
Proof.
  rewrite <- mem_true_In. destruct (mem x l); split; congruence.
Qed.

Lemma stop_words :
  stop = ["and"; "or"; "for"; "the"; "a"; "an"; "to"; "of"; "on"; "in";
          "with"; "by"; "from"; "at"; "into"; "over"; "under"; "across"].
Proof. reflexivity. Qed.

(** The stopwords are lowercase. *)
Lemma stop_lower (w : string) : In w stop -> Py.lower w = w.
Proof.
  rewrite stop_words. simpl.
  intros H. repeat (destruct H as [<-|H]; [reflexivity|]). destruct H.
Qed.

Lemma token_ok_term_ok (w : string) : token_ok w = true -> term_ok w.
Proof.
  unfold token_ok, term_ok. rewrite andb_true_iff, negb_true_iff.
  intros [Hlen Hstop]. split.
  - now apply Nat.leb_le.
  - intros HIn. apply mem_not_In in Hstop. apply Hstop.
    now rewrite (stop_lower w HIn).
Qed.

Lemma add_tokens_ok (s : string) (tokens : list string) :
  Forall term_ok tokens -> Forall term_ok (add_tokens tokens s).
Proof.
  unfold add_tokens.
  generalize (fold_left (fun parts w => parts ++ Py.split_on compound_sep w)
                        (Py.split (drop_punctuation s)) []).
  intros parts. revert tokens.
  induction parts as [|w parts IH]; intros tokens Hok; simpl; [exact Hok|].
  apply IH. destruct (token_ok (Py.strip w)) eqn:E; [|exact Hok].
  apply Forall_app. split; [exact Hok|].
  constructor; [now apply token_ok_term_ok | constructor].
Qed.

Lemma collect_tokens_ok (ideas : list string)
    (extra_keywords : option (list json)) :
  Forall term_ok (collect_tokens ideas extra_keywords).
Proof.
  unfold collect_tokens.
  assert (Hideas : forall acc, Forall term_ok acc ->
                               Forall term_ok (fold_left add_tokens ideas acc)).
  { induction ideas as [|s ideas IH]; intros acc Hacc; simpl; [exact Hacc|].
    apply IH. now apply add_tokens_ok. }
  specialize (Hideas [] (Forall_nil _)).
  destruct extra_keywords as [[|k ks]|]; try exact Hideas.
  generalize (k :: ks). intros kws.
  revert Hideas. generalize (fold_left add_tokens ideas []).
  induction kws as [|k' kws IH]; intros acc Hacc; simpl; [exact Hacc|].
  apply IH. destruct k'; try exact Hacc. now apply add_tokens_ok.
Qed.

Lemma expand_step_ok (expanded : list string) (t : string) :
  Forall term_ok expanded -> term_ok t ->
  Forall term_ok (expand_step expanded t).
Proof.
  intros Hexp Ht. unfold expand_step.
  assert (Hlit : forall l, Forall term_ok l ->
                   forall acc, Forall term_ok acc -> Forall term_ok (acc ++ l)).
  { intros l Hl acc Hacc. apply Forall_app. now split. }
  assert (Hfix : forall w, In w ["large language model";
                                 "retrieval augmented generation";
                                 "geopandas"; "openstreetmap"; "osmnx";
                                 "mapbox"; "chatbot"] -> term_ok w).
  { intros w Hw. simpl in Hw.
    repeat (destruct Hw as [<-|Hw];
            [split; [simpl; lia | rewrite stop_words; simpl; intuition discriminate]|]).
    destruct Hw. }
  repeat match goal with
         | |- Forall term_ok (if ?c then _ else _) => destruct c
         | |- Forall term_ok (_ ++ _) => apply Hlit
         | |- Forall term_ok (_ :: _) => constructor
         | |- Forall term_ok [] => constructor
         | |- term_ok ?w => first [exact Ht | apply Hfix; simpl; tauto]
         | |- Forall term_ok expanded => exact Hexp
         end.
Qed.

Lemma expand_terms_ok (ideas : list string)
    (extra_keywords : option (list json)) :
  Forall term_ok (expand_terms ideas extra_keywords).
Proof.
  unfold expand_terms.
  pose proof (collect_tokens_ok ideas extra_keywords) as Htok.
  revert Htok. generalize (collect_tokens ideas extra_keywords).
  intros tokens Htok.
  assert (H : forall acc, Forall term_ok acc ->
                          Forall term_ok (fold_left expand_step tokens acc)).
  { induction tokens as [|t tokens IH]; intros acc Hacc; simpl; [exact Hacc|].
    inversion Htok; subst. apply IH; [assumption|].
    now apply expand_step_ok. }
  apply H. constructor.
Qed.

(** The loop on [(seen, out)] appends to [out] what the recursion keeps. *)
Lemma dedupe_loop_from (l : list string) :
  forall seen out,
    snd (fold_left dedupe_step l (seen, out)) = out ++ dedupe_from seen l.
Proof.
  induction l as [|t l IH]; intros seen out; simpl.
  - now rewrite app_nil_r.
  - destruct (mem (Py.lower t) seen).
    + apply IH.
    + rewrite IH. now rewrite <- app_assoc.
Qed.

Lemma dedupe_terms_from (l : list string) : dedupe_terms l = dedupe_from [] l.
Proof. unfold dedupe_terms. now rewrite dedupe_loop_from. Qed.

Lemma dedupe_from_In (l : list string) :
  forall seen x,
    In x (dedupe_from seen l) -> In x l /\ ~ In (Py.lower x) seen.
Proof.
  induction l as [|t l IH]; intros seen x; simpl; [tauto|].
  destruct (mem (Py.lower t) seen) eqn:E.
  - intros H. apply IH in H. tauto.
  - intros [<-|H].
    + split; [now left | now apply mem_not_In].
    + apply IH in H. simpl in H. tauto.
Qed.

Lemma dedupe_from_NoDup (l : list string) :
  forall seen, NoDup (map Py.lower (dedupe_from seen l)).
Proof.
  induction l as [|t l IH]; intros seen; simpl; [constructor|].
  destruct (mem (Py.lower t) seen); [apply IH|].
  simpl. constructor; [|apply IH].
  intros HIn. apply in_map_iff in HIn as (y & Hy & HIn).
  apply dedupe_from_In in HIn as [_ Hnot]. apply Hnot. left. now symmetry.
Qed.

(** Nothing is lost up to case. *)
Lemma dedupe_from_covers (l : list string) :
  forall seen x,
    In x l ->
    In (Py.lower x) seen
    \/ exists y, In y (dedupe_from seen l) /\ Py.lower y = Py.lower x.
Proof.
  induction l as [|t l IH]; intros seen x; simpl; [tauto|].
  intros [->|HIn].
  - destruct (mem (Py.lower x) seen) eqn:E.
    + left. now apply mem_true_In.
    + right. exists x. split; [now left | reflexivity].
  - destruct (mem (Py.lower t) seen) eqn:E.
    + now apply IH.
    + destruct (IH (Py.lower t :: seen) x HIn) as [[Heq|Hseen]|(y & Hy & E')].
      * right. exists t. split; [now left | exact Heq].
      * now left.
      * right. exists y. split; [now right | exact E'].
Qed.

(** A kept term is the first of its case class, and what is kept before it
    comes before it. *)
Lemma dedupe_from_first (l : list string) :
  forall seen o1 x o2,
    dedupe_from seen l = o1 ++ x :: o2 ->
    exists e1 e2,
      l = e1 ++ x :: e2
      /\ (forall y, In y e1 -> Py.lower y <> Py.lower x)
      /\ (forall y, In y o1 -> In y e1).
Proof.
  induction l as [|t l IH]; intros seen o1 x o2; simpl.
  - intros H. now destruct o1.
  - destruct (mem (Py.lower t) seen) eqn:E.
    + intros H.
      assert (Hx : ~ In (Py.lower x) seen).
      { apply (dedupe_from_In l seen x). rewrite H.
        apply in_or_app. right. now left. }
      destruct (IH _ _ _ _ H) as (e1 & e2 & -> & Hfirst & Hord).
      exists (t :: e1), e2. split; [reflexivity | split].
      * intros y [<-|Hy]; [|now apply Hfirst].
        intros Heq. apply Hx. rewrite <- Heq. now apply mem_true_In.
      * intros y Hy. right. now apply Hord.
    + destruct o1 as [|t' o1]; intros [= -> H].
      * exists [], l. split; [reflexivity | split; intros y []].
      * assert (Hx : ~ In (Py.lower x) (Py.lower t' :: seen)).
        { apply (dedupe_from_In l _ x). rewrite H.
          apply in_or_app. right. now left. }
        destruct (IH _ _ _ _ H) as (e1 & e2 & -> & Hfirst & Hord).
        exists (t' :: e1), e2. split; [reflexivity | split].
        -- intros y [<-|Hy]; [|now apply Hfirst].
           intros Heq. apply Hx. left. exact Heq.
        -- intros y [<-|Hy]; [now left | right; now apply Hord].
Qed.

Lemma NoDup_firstn {A : Type} (n : nat) (l : list A) :
  NoDup l -> NoDup (firstn n l).
Proof.
  intros H. rewrite <- (firstn_skipn n l) in H.
  now apply NoDup_app_remove_r in H.
Qed.

Lemma In_firstn {A : Type} (n : nat) (l : list A) (x : A) :
  In x (firstn n l) -> In x l.
Proof.
  intros H. rewrite <- (firstn_skipn n l). apply in_or_app. now left.
Qed.

(** C6.  The terms [_build_terms] returns are at most 20, none is a
    stopword, no two are equal up to case and none has fewer than two
    characters.  They are the first 20 of the expanded tokens deduplicated
    without regard to case: each kept term is the first of its case class
    among the expanded tokens, the kept terms stand in the order of the
    expanded tokens, and before the cut every expanded token has a kept term
    equal to it up to case. *)
Theorem build_terms_invariant (ideas : list string)
    (extra_keywords : option (list json)) :
  let terms := _build_terms ideas extra_keywords in
  let expanded := expand_terms ideas extra_keywords in
  (List.length terms <= 20)%nat
  /\ (forall t, In t terms -> ~ In t stop)
  /\ NoDup (map Py.lower terms)
  /\ (forall t, In t terms -> (2 <= String.length t)%nat)
  /\ terms = firstn 20 (dedupe_terms expanded)
  /\ (forall o1 x o2,
        terms = o1 ++ x :: o2 ->
        exists e1 e2,
          expanded = e1 ++ x :: e2
          /\ (forall y, In y e1 -> Py.lower y <> Py.lower x)
          /\ (forall y, In y o1 -> In y e1))
  /\ (forall x, In x expanded ->
        exists y, In y (dedupe_terms expanded) /\ Py.lower y = Py.lower x).
Proof.
  intros terms expanded.
  assert (Hterms : terms = firstn 20 (dedupe_from [] expanded)).
  { unfold terms, _build_terms. fold expanded.
    now rewrite dedupe_terms_from. }
  assert (Hok : forall t, In t terms -> term_ok t).
  { intros t Ht. rewrite Hterms in Ht. apply In_firstn in Ht.
    apply dedupe_from_In in Ht as [Ht _].
    pose proof (expand_terms_ok ideas extra_keywords) as Hall.
    rewrite Forall_forall in Hall. now apply Hall. }
  split; [rewrite Hterms; apply firstn_le_length|].
  split; [intros t Ht; now apply Hok|].
  split.
  { rewrite Hterms, <- firstn_map. apply NoDup_firstn, dedupe_from_NoDup. }
  split; [intros t Ht; now apply Hok|].
  split; [now rewrite dedupe_terms_from|].
  split.
  - intros o1 x o2 Hsplit.
    apply (dedupe_from_first expanded [] o1 x
             (o2 ++ skipn 20 (dedupe_from [] expanded))).
    rewrite <- (firstn_skipn 20 (dedupe_from [] expanded)) at 1.
    rewrite <- Hterms, Hsplit. now rewrite <- app_assoc.
  - intros x Hx. rewrite dedupe_terms_from.
    destruct (dedupe_from_covers expanded [] x Hx) as [[]|H]. exact H.
Qed.

Lemma build_terms_invariant_witness :
  let terms := _build_terms ["LLM-powered RAG app for the llm"] None in
  terms = ["LLM"; "large language model"; "powered"; "RAG";
           "retrieval augmented generation"; "app"]
  /\ ~ In "powered" stop
  /\ (2 <= String.length "powered")%nat
  /\ exists e1 e2,
       expand_terms ["LLM-powered RAG app for the llm"] None
       = e1 ++ "powered" :: e2
       /\ (forall y, In y e1 -> Py.lower y <> Py.lower "powered")
       /\ (forall y, In y ["LLM"; "large language model"] -> In y e1).
Proof.
  intros terms.
  pose proof (build_terms_invariant ["LLM-powered RAG app for the llm"] None)
    as (_ & Hstop & _ & Hlen & _ & Hfirst & _).
  split; [reflexivity|].
  split; [apply Hstop; simpl; tauto|].
  split; [apply Hlen; simpl; tauto|].
  apply (Hfirst ["LLM"; "large language model"] "powered"
                ["RAG"; "retrieval augmented generation"; "app"]).
  reflexivity.
Defined.

(** ** The aggregator *)

Lemma slice_to_firstn {A : Type} (n : Z) (l : list A) :
  exists m, Py.slice_to n l = firstn m l.
Proof.
  unfold Py.slice_to. destruct (0 <=? n)%Z; eexists; reflexivity.
Qed.

Lemma clip_incl (items : list candidate) (n : Z) : incl (_clip items n) items.
Proof.
  intros c Hc. unfold _clip in Hc.
  destruct (slice_to_firstn n (sorted_desc score items)) as [m Hm].
  rewrite Hm in Hc. apply In_firstn in Hc.
  now apply (Permutation_in _ (sorted_desc_perm score items)).
Qed.

Lemma clip_length (items : list candidate) (n : Z) :
  (List.length (_clip items n) <= List.length items)%nat.
Proof.
  unfold _clip.
  destruct (slice_to_firstn n (sorted_desc score items)) as [m ->].
  rewrite length_firstn, (Permutation_length (sorted_desc_perm score items)).
  apply Nat.le_min_r.
Qed.

Lemma clip_keys_NoDup (items : list candidate) (n : Z) :
  NoDup (map dedup_key items) -> NoDup (map dedup_key (_clip items n)).
Proof.
  intros Hnd. unfold _clip.
  destruct (slice_to_firstn n (sorted_desc score items)) as [m ->].
  rewrite <- firstn_map. apply NoDup_firstn.
  apply (Permutation_NoDup (l := map dedup_key items)); [|exact Hnd].
  apply Permutation_map. symmetry. apply sorted_desc_perm.
Qed.

Lemma boost_one_same (loc : string) (r : candidate) :
  same_but_score (boost_one loc r) r.
Proof.
  unfold boost_one, same_but_score.
  destruct (Py.contains _ _); simpl; repeat split; reflexivity.
Qed.

Lemma same_but_score_refl (r : candidate) : same_but_score r r.
Proof. unfold same_but_score. repeat split; reflexivity. Qed.

(** The boost, where it does not raise, hands on one candidate per candidate,
    in order, each changed in its score at most. *)
Lemma location_boost_frame (location_ : json) (results boosted : list candidate) :
  location_boost location_ results = Ok boosted ->
  Forall2 same_but_score boosted results.
Proof.
  assert (Hrefl : forall l, Forall2 same_but_score l l).
  { induction l; constructor; [apply same_but_score_refl | assumption]. }
  assert (Hmap : forall loc l, Forall2 same_but_score (map (boost_one loc) l) l).
  { induction l; constructor; [apply boost_one_same | assumption]. }
  unfold location_boost. destruct (truthy location_).
  - destruct location_ as [| | | |loc| |];
      try (destruct results; [intros [= <-]; constructor | discriminate]).
    intros [= <-]. apply Hmap.
  - intros [= <-]. apply Hrefl.
Qed.

Lemma Forall2_In_l {A B : Type} (R : A -> B -> Prop) (l : list A)
    (l' : list B) (a : A) :
  Forall2 R l l' -> In a l -> exists b, In b l' /\ R a b.
Proof.
  induction 1 as [|x y l l' Hxy _ IH]; [intros []|].
  intros [<-|HIn].
  - exists y. split; [now left | exact Hxy].
  - destruct (IH HIn) as (b & Hb & Hab). exists b. split; [now right | exact Hab].
Qed.

(** C10.  Whatever the aggregation returns, every candidate of the output is
    a candidate of the combined adapter results with the same source, name,
    username, profile_url, public_email, blog, location, company and evidence:
    the boost, the dedup and the rank-and-clip change the score at most, and
    the output is no longer than the input. *)
Theorem aggregate_touches_only_score (results : list candidate)
    (location_ : json) (limit : Z) (out : list candidate) :
  aggregate results location_ limit = Ok out ->
  (forall c, In c out -> exists r, In r results /\ same_but_score c r)
  /\ (List.length out <= List.length results)%nat.
Proof.
  unfold aggregate.
  destruct (location_boost location_ results) as [boosted|] eqn:Eboost;
    [|discriminate].
  intros [= <-]. apply location_boost_frame in Eboost. split.
  - intros c Hc. apply clip_incl, dedupe_incl in Hc.
    now apply (Forall2_In_l _ _ _ _ Eboost).
  - rewrite <- (Forall2_length Eboost).
    etransitivity; [apply clip_length|].
    apply NoDup_incl_length; [|apply dedupe_incl].
    apply (NoDup_map_inv dedup_key), dedupe_keys_NoDup.
Qed.

Lemma aggregate_touches_only_score_witness :
  let r := mkCandidate "stackexchange" (Some "Iva") (Some "42")
             (Some "https://stackoverflow.com/users/42") None None
             (Some "Sofia, Bulgaria") None JNull 3%Q in
  exists c, In c [set_score r (3 + (1 # 2))%Q]
            /\ exists r', In r' [r] /\ same_but_score c r'.
Proof.
  intros r. exists (set_score r (3 + (1 # 2))%Q). split; [now left|].
  apply (proj1 (aggregate_touches_only_score [r] (JStr "bulgaria") 10
                  [set_score r (3 + (1 # 2))%Q] eq_refl)).
  now left.
Defined.




(** ** The request handler *)

Lemma gather_contributions (src : sources) (terms : list string)
    (location_ : json) (max_results : Z) :
  gather src terms location_ max_results
  = contribution (github src terms location_ (Z.min PER_SOURCE_CAP max_results))
    ++ contribution
         (stackexchange src terms location_ (Z.min PER_SOURCE_CAP max_results))
    ++ contribution (huggingface src terms 40)
    ++ contribution (paperswithcode src terms (Z.min 50 (max_results * 2)))
    ++ contribution (kaggle src terms (Z.min 40 (max_results * 2))).
Proof.
  unfold gather, attempt, contribution.
  destruct (github src _ _ _), (stackexchange src _ _ _),
    (huggingface src _ _), (paperswithcode src _ _), (kaggle src _ _);
    simpl; rewrite ?app_nil_r, <- ?app_assoc; reflexivity.
Qed.

(** Past the two checks of the body the handler answers 200 unless
    [int()] or the boost raises. *)
Lemma handler_run (src : sources) (payload : list (string * json))
    (kws : list json) :
  ideas_ok (get "ideas" payload) = true ->
  py_or (get "keywords" payload) (JList []) = JList kws ->
  suggest_collaborators src (Some (JDict payload))
  = match py_int (py_or (get "max_results" payload) (JInt DEFAULT_MAX)) with
    | Raise => Unhandled
    | Ok max_results =>
        let terms := _build_terms (strs (items_of (get "ideas" payload)))
                                  (Some kws) in
        let location_ := get "location" payload in
        match aggregate (gather src terms location_ max_results)
                        location_ max_results with
        | Raise => Unhandled
        | Ok ranked => HttpResponse 200 (ResultBody ranked terms location_)
        end
    end.
Proof.
  intros Hideas Hkws. unfold suggest_collaborators.
  now rewrite Hideas, Hkws.
Qed.

Lemma valid_ideas_ok (payload : list (string * json)) :
  valid_ideas payload -> ideas_ok (get "ideas" payload) = true.
Proof. intros (items & -> & _ & Hall). exact Hall. Qed.

Lemma valid_keywords_list (payload : list (string * json)) :
  valid_keywords payload ->
  py_or (get "keywords" payload) (JList [])
  = JList (items_of (get "keywords" payload)).
Proof.
  intros [->|(kws & ->)]; [reflexivity|]. now destruct kws.
Qed.

Lemma valid_max_results_int (payload : list (string * json)) :
  valid_max_results payload ->
  py_int (py_or (get "max_results" payload) (JInt DEFAULT_MAX))
  = Ok (request_limit payload)
  /\ (0 < request_limit payload)%Z.
Proof.
  unfold request_limit. intros [->|(n & Hn & ->)]; [now split|].
  unfold py_or. simpl. destruct (Z.eqb_spec n 0); [lia | now split].
Qed.

Lemma valid_location_boost (payload : list (string * json))
    (results : list candidate) :
  valid_location payload ->
  exists boosted,
    location_boost (get "location" payload) results = Ok boosted.
Proof.
  intros [->|(loc & ->)]; unfold location_boost; simpl.
  - now exists results.
  - destruct (Py.truthy_str loc); eexists; reflexivity.
Qed.

(** On a valid request the handler answers 200 with the aggregation of what
    it gathered. *)
Lemma handler_valid (src : sources) (payload : list (string * json)) :
  valid_request payload ->
  exists ranked,
    aggregate (gather src (request_terms payload) (get "location" payload)
                      (request_limit payload))
              (get "location" payload) (request_limit payload)
    = Ok ranked
    /\ suggest_collaborators src (Some (JDict payload))
       = HttpResponse 200
           (ResultBody ranked (request_terms payload) (get "location" payload)).
Proof.
  intros (Hideas & Hkws & Hloc & Hmax).
  rewrite (handler_run src payload _ (valid_ideas_ok _ Hideas)
             (valid_keywords_list _ Hkws)).
  rewrite (proj1 (valid_max_results_int _ Hmax)). cbv zeta.
  fold (request_terms payload). unfold aggregate.
  destruct (valid_location_boost payload
              (gather src (request_terms payload) (get "location" payload)
                      (request_limit payload)) Hloc) as [boosted ->].
  eexists. split; reflexivity.
Qed.

(** C8.  On a valid request, whichever of the five adapters are made to raise,
    the handler answers 200, and the candidates it returns are the aggregation
    of what the other adapters contribute: a raising adapter adds nothing and
    takes nothing away. *)
Theorem adapter_failures_isolated (src : sources) (g s h p k : bool)
    (payload : list (string * json)) :
  valid_request payload ->
  let terms := request_terms payload in
  let location_ := get "location" payload in
  let limit := request_limit payload in
  let found :=
    (if g then []
     else contribution (github src terms location_ (Z.min PER_SOURCE_CAP limit)))
    ++ (if s then []
        else contribution
               (stackexchange src terms location_ (Z.min PER_SOURCE_CAP limit)))
    ++ (if h then [] else contribution (huggingface src terms 40))
    ++ (if p then []
        else contribution (paperswithcode src terms (Z.min 50 (limit * 2))))
    ++ (if k then []
        else contribution (kaggle src terms (Z.min 40 (limit * 2)))) in
  exists ranked,
    aggregate found location_ limit = Ok ranked
    /\ suggest_collaborators (fail_adapters g s h p k src)
                             (Some (JDict payload))
       = HttpResponse 200 (ResultBody ranked terms location_).
Proof.
  intros Hvalid terms location_ limit found.
  destruct (handler_valid (fail_adapters g s h p k src) payload Hvalid)
    as (ranked & Hagg & Hresp).
  exists ranked. split; [|exact Hresp].
  rewrite <- Hagg. f_equal. rewrite gather_contributions.
  unfold found, fail_adapters. simpl.
  now destruct g, s, h, p, k.
Qed.

Lemma adapter_failures_isolated_witness :
  let ann := mkCandidate "github" (Some "Ann") (Some "ann")
               (Some "https://github.com/ann") None None None None JNull 4%Q in
  let ivo := mkCandidate "stackexchange" (Some "Ivo") (Some "7")
               (Some "https://stackoverflow.com/users/7") None None None None
               JNull 2%Q in
  let src := mkSources (fun _ _ _ => Ok [ann]) (fun _ _ _ => Ok [ivo])
                       (fun _ _ => Ok []) (fun _ _ => Raise)
                       (fun _ _ => Ok []) in
  let payload := [("ideas", JList [JStr "llm agents"]);
                  ("max_results", JInt 5)] in
  valid_request payload
  /\ exists ranked,
       aggregate ([] ++ [ivo] ++ [] ++ [] ++ []) JNull 5 = Ok ranked
       /\ suggest_collaborators (fail_adapters true false false false false src)
                                (Some (JDict payload))
          = HttpResponse 200
              (ResultBody ranked (request_terms payload) JNull).
Proof.
  intros ann ivo src payload.
  assert (Hvalid : valid_request payload).
  { split; [|split; [|split]].
    - exists [JStr "llm agents"].
      split; [reflexivity | split; [discriminate | reflexivity]].
    - now left.
    - now left.
    - right. exists 5%Z. split; [reflexivity | reflexivity]. }
  split; [exact Hvalid|].
  exact (adapter_failures_isolated src true false false false false
           payload Hvalid).
Defined.

(** The value [ideas] takes when it is absent, is not a list, or is a list
    that holds something other than a non-blank string is turned down with a
    400 and the message of line 403, whatever the adapters would do. *)
Lemma bad_ideas_rejected (src : sources) (payload : list (string * json)) :
  ideas_ok (get "ideas" payload) = false ->
  suggest_collaborators src (Some (JDict payload))
  = HttpResponse 400
      (ErrorBody "'ideas' must be a non-empty list of strings").
Proof.
  intros H. unfold suggest_collaborators. now rewrite H.
Qed.

Lemma ideas_ok_false_cases (ideas : json) :
  ideas = JNull
  \/ (forall items, ideas <> JList items)
  \/ (exists items x, ideas = JList items /\ In x items
                      /\ (forall s, x = JStr s -> Py.strip s = "")) ->
  ideas_ok ideas = false.
Proof.
  intros [->|[Hnot|(items & x & -> & HIn & Hx)]]; [reflexivity| |].
  - destruct ideas; try reflexivity. now destruct (Hnot items).
  - simpl. destruct (forallb idea_ok items) eqn:E; [|reflexivity].
    rewrite forallb_forall in E. specialize (E x HIn).
    destruct x; try discriminate. simpl in E.
    now rewrite (Hx s eq_refl) in E.
Qed.

(** C3, at the input the code gets wrong.  [{"ideas": []}] passes the check
    of line 402, [all] being true of the empty list: the adapters are called
    with no terms and the answer is a 200, not the 400 the message of line 403
    promises for a list that is empty. *)
Theorem empty_ideas_accepted (src : sources) :
  ideas_ok (JList []) = true
  /\ exists ranked,
       suggest_collaborators src (Some (JDict [("ideas", JList [])]))
       = HttpResponse 200 (ResultBody ranked [] JNull)
       /\ ranked = _clip (_dedupe_keep_best (gather src [] JNull 10)) 10.
Proof.
  split; [reflexivity|]. eexists. split; reflexivity.
Qed.

(** ** [max_results] *)





(** ** The two location boosts *)

Lemma truthy_str_true (s : string) : Py.truthy_str s = true <-> s <> "".
Proof.
  unfold Py.truthy_str. rewrite negb_true_iff. apply String.eqb_neq.
Qed.

Lemma lower_empty (s : string) : Py.lower s = "" -> s = "".
Proof. now destruct s. Qed.

Lemma contains_in_empty (sub : string) : Py.contains sub "" = true -> sub = "".
Proof. now destruct sub. Qed.

(** A location that contains a non-empty request location is not empty. *)
Lemma matching_location_truthy (loc l : string) :
  loc <> "" -> Py.contains (Py.lower loc) (Py.lower l) = true ->
  Py.truthy_str l = true.
Proof.
  intros Hloc Hin. apply truthy_str_true. intros ->.
  apply contains_in_empty, lower_empty in Hin. contradiction.
Qed.

(** ** Floats that hold halves exactly *)

(** At an exponent [e] below zero, the multiples of a half need no
    rounding. *)
Lemma round_half_even_halves (n dd k e : Z) :
  (0 < dd)%Z -> (n * 2 = k * dd)%Z -> (e <= -1)%Z ->
  (let '(n1, d1) := scale2 n dd e in round_half_even n1 d1)
  = (k * 2 ^ (- e - 1))%Z.
Proof.
  intros Hdd Hn He. unfold scale2.
  destruct (Z.leb_spec 0 e) as [H|_]; [lia|].
  assert (Hpow : (2 ^ (- e) = 2 * 2 ^ (- e - 1))%Z).
  { replace (- e)%Z with (Z.succ (- e - 1)) at 1 by lia.
    apply Z.pow_succ_r. lia. }
  assert (Hn1 : (n * 2 ^ (- e) = k * 2 ^ (- e - 1) * dd)%Z).
  { rewrite Hpow.
    replace (n * (2 * 2 ^ (- e - 1)))%Z with (n * 2 * 2 ^ (- e - 1))%Z by ring.
    rewrite Hn. ring. }
  unfold round_half_even. rewrite Hn1.
  rewrite Z.mod_mul, Z.div_mul by lia.
  change (2 * 0)%Z with 0%Z.
  destruct (Z.compare_spec 0 dd); [lia | reflexivity | lia].
Qed.

Lemma halves_value (k e : Z) :
  (e <= -1)%Z ->
  (Qred ((1 * (k * 2 ^ (- e - 1)))%Z # Z.to_pos (2 ^ (- e))) == k # 2)%Q.
Proof.
  intros He. rewrite Qred_correct. unfold Qeq. cbn [Qnum Qden].
  assert (Hpos : (0 < 2 ^ (- e))%Z) by (apply Z.pow_pos_nonneg; lia).
  rewrite Z2Pos.id by exact Hpos.
  replace (- e)%Z with (Z.succ (- e - 1)) at 2 by lia.
  rewrite Z.pow_succ_r by lia. ring.
Qed.

(** A positive multiple of a half below 2^52 is a float: rounding leaves it
    as it is. *)
Lemma fl_exact_halves (x : Q) (k : Z) :
  (0 < k < 2 ^ 53)%Z -> (x == k # 2)%Q -> (fl x == x)%Q.
Proof.
  intros [Hk0 Hk] Hx. rewrite Hx at 2. clear - Hk0 Hk Hx.
  destruct x as [n d]. unfold Qeq in Hx. cbn [Qnum Qden] in Hx.
  assert (Hn : (0 < n)%Z) by lia.
  unfold fl. cbn [Qnum Qden].
  destruct (Z.eqb_spec n 0) as [E|_]; [lia|].
  rewrite (Z.abs_eq n), (Z.sgn_pos n) by lia.
  set (dd := Zpos d) in *.
  assert (Hdd : (0 < dd)%Z) by (unfold dd; lia).
  destruct (Z.log2_spec n Hn) as [Hla _].
  destruct (Z.log2_spec dd Hdd) as [_ Hld].
  set (e0 := (Z.log2 n - Z.log2 dd - 53)%Z).
  assert (He0 : (e0 <= -1)%Z).
  { assert (H : (2 ^ Z.log2 n < 2 ^ (Z.log2 dd + 53))%Z).
    { replace (Z.log2 dd + 53)%Z with (Z.succ (Z.log2 dd) + 52)%Z by lia.
      rewrite Z.pow_add_r by (pose proof (Z.log2_nonneg dd); lia).
      assert (H52 : (2 ^ 53 = 2 * 2 ^ 52)%Z) by reflexivity.
      assert (Hp52 : (0 < 2 ^ 52)%Z) by reflexivity.
      nia. }
    apply Z.pow_lt_mono_r_iff in H;
      [unfold e0; lia | lia | pose proof (Z.log2_nonneg dd); lia]. }
  assert (Hfirst : (let '(n0, d0) := scale2 n dd e0 in (n0 / d0)%Z)
                   = (k * 2 ^ (- e0 - 1))%Z).
  { unfold scale2. destruct (Z.leb_spec 0 e0) as [H|_]; [lia|].
    assert (Hpow : (2 ^ (- e0) = 2 * 2 ^ (- e0 - 1))%Z).
    { replace (- e0)%Z with (Z.succ (- e0 - 1)) at 1 by lia.
      apply Z.pow_succ_r. lia. }
    rewrite Hpow.
    replace (n * (2 * 2 ^ (- e0 - 1)))%Z
      with (k * 2 ^ (- e0 - 1) * dd)%Z
      by (replace (n * (2 * 2 ^ (- e0 - 1)))%Z
            with (n * 2 * 2 ^ (- e0 - 1))%Z by ring; rewrite Hx; ring).
    apply Z.div_mul. lia. }
  destruct (scale2 n dd e0) as [n0 d0] eqn:Escale. rewrite Hfirst.
  destruct (Z.ltb_spec (k * 2 ^ (- e0 - 1)) (2 ^ 53)) as [Hlt|Hge].
  - rewrite Escale.
    pose proof (round_half_even_halves n dd k e0 Hdd Hx He0) as Hround.
    rewrite Escale in Hround. rewrite Hround.
    destruct (Z.leb_spec 0 e0) as [H|_]; [lia|].
    now apply halves_value.
  - assert (He1 : (e0 + 1 <= -1)%Z).
    { destruct (Z.eq_dec e0 (-1)) as [E|E]; [|lia].
      rewrite E in Hge. change (2 ^ (- -1 - 1))%Z with 1%Z in Hge. lia. }
    pose proof (round_half_even_halves n dd k (e0 + 1) Hdd Hx He1) as Hround.
    destruct (scale2 n dd (e0 + 1)) as [n1 d1]. rewrite Hround.
    destruct (Z.leb_spec 0 (e0 + 1)) as [H|_]; [lia|].
    now apply halves_value.
Qed.
(** The text score is a multiple of a half. *)
Lemma score_loop_halves (t : string) (terms : list string) :
  forall (acc : Q) (k : Z),
    (0 <= k)%Z -> (acc == k # 2)%Q ->
    exists k', (0 <= k')%Z
               /\ (fold_left (score_step t) terms acc == k' # 2)%Q.
Proof.
  induction terms as [|term terms IH]; intros acc k Hk Hacc; simpl.
  - now exists k.
  - unfold score_step at 2.
    destruct (Py.truthy_str term); [|now apply (IH acc k)].
    set (c := Z.of_nat (Py.count t (Py.lower term))).
    assert (Hc : (0 <= c)%Z) by (unfold c; lia).
    destruct (Py.contains (Py.lower term) t).
    + apply (IH _ (k + 4 + c)%Z); [lia|].
      rewrite Hacc. unfold Qeq. simpl. lia.
    + apply (IH _ (k + c)%Z); [lia|].
      rewrite Hacc. unfold Qeq. simpl. lia.
Qed.

Lemma score_match_halves (text : string) (terms : list string) :
  exists k, (0 <= k)%Z /\ (_score_match text terms == k # 2)%Q.
Proof.
  unfold _score_match. destruct (Py.truthy_str text).
  - apply (score_loop_halves _ terms 0%Q 0%Z); [lia | reflexivity].
  - exists 0%Z. split; [lia | reflexivity].
Qed.

(** The aggregation-level boost of a candidate whose location matches: the
    float sum of its score and a half, the other fields untouched. *)
Lemma boost_one_hit (loc l : string) (r : candidate) :
  location r = Some l ->
  Py.contains (Py.lower loc) (Py.lower l) = true ->
  boost_one loc r = set_score r (fadd (score r) (1 # 2)).
Proof.
  intros Hl Hin. unfold boost_one. rewrite Hl. simpl. now rewrite Hin.
Qed.

(** On a score that is a multiple of a half below 2^52 the float sum is the
    exact one. *)
Lemma fadd_half_exact (s : Q) (k : Z) :
  (0 <= k)%Z -> (k + 1 < 2 ^ 53)%Z -> (s == k # 2)%Q ->
  (fadd s (1 # 2) == s + (1 # 2))%Q.
Proof.
  intros Hk0 Hk Hs. unfold fadd.
  apply (fl_exact_halves _ (k + 1)%Z); [lia|].
  rewrite Hs. unfold Qeq. simpl. lia.
Qed.

Lemma location_boost_str (loc : string) (results : list candidate) :
  loc <> "" ->
  location_boost (JStr loc) results = Ok (map (boost_one loc) results).
Proof.
  intros Hloc. unfold location_boost. simpl.
  now rewrite (proj2 (truthy_str_true loc) Hloc).
Qed.

(** C4.  With a request location [loc] (a non-empty string): the
    StackExchange adapter gives a user whose location contains [loc], case
    ignored, the text score plus 1.0; the aggregation-level pass visits every
    candidate once and adds 0.5, as floats, to each whose location contains
    [loc], of whatever source.  The sum is exact on a score that is a
    multiple of a half below 2^52, so that the StackExchange candidate, whose
    text score is such a multiple, ends 1.5 above its text score. *)
Theorem location_boosts_stack (loc : string) :
  loc <> "" ->
  (forall results,
      location_boost (JStr loc) results = Ok (map (boost_one loc) results))
  /\ (forall r l,
        location r = Some l ->
        Py.contains (Py.lower loc) (Py.lower l) = true ->
        score (boost_one loc r) = fadd (score r) (1 # 2)
        /\ same_but_score (boost_one loc r) r
        /\ forall k,
             (0 <= k)%Z -> (k + 1 < 2 ^ 53)%Z -> (score r == k # 2)%Q ->
             (score (boost_one loc r) == score r + (1 # 2))%Q)
  /\ (forall terms u uloc tag_items,
        user_location u = Some uloc ->
        Py.contains (Py.lower loc) (Py.lower uloc) = true ->
        let text :=
          so_text u (filter Py.truthy_str (map Py.or_empty tag_items)) in
        (_score_match text terms < inject_Z (2 ^ 51))%Q ->
        exists c,
          so_candidate terms (JStr loc) u tag_items = Ok c
          /\ source c = "stackexchange"
          /\ location c = Some uloc
          /\ (score c == _score_match text terms + 1)%Q
          /\ (score (boost_one loc c) == _score_match text terms + (3 # 2))%Q).
Proof.
  intros Hloc. split; [|split].
  - intros results. now apply location_boost_str.
  - intros r l Hl Hin. rewrite (boost_one_hit loc l r Hl Hin).
    split; [reflexivity|]. split.
    + rewrite <- (boost_one_hit loc l r Hl Hin). apply boost_one_same.
    + intros k Hk0 Hk Hs. cbn [score set_score].
      now apply (fadd_half_exact _ k).
  - intros terms u uloc tag_items Hu Hin text Hrange.
    unfold so_candidate, so_location_hit. rewrite Hu. simpl.
    rewrite (proj2 (truthy_str_true loc) Hloc).
    rewrite (matching_location_truthy loc uloc Hloc Hin). simpl.
    rewrite Hin. eexists. split; [reflexivity|].
    split; [reflexivity|]. split; [reflexivity|]. split; [reflexivity|].
    unfold boost_one. simpl. rewrite Hin. simpl.
    fold text.
    destruct (score_match_halves text terms) as (k & Hk0 & Hk).
    assert (Hbound : (k < 2 ^ 52)%Z).
    { rewrite Hk in Hrange. unfold Qlt in Hrange. simpl in Hrange.
      change (2 ^ 52)%Z with (2 * 2 ^ 51)%Z.
      change (Z.pow_pos 2 51) with (2 ^ 51)%Z in Hrange. lia. }
    rewrite (fadd_half_exact _ (k + 2)%Z).
    + ring.
    + lia.
    + change (2 ^ 53)%Z with (2 * 2 ^ 52)%Z. lia.
    + rewrite Hk. unfold Qeq. simpl. lia.
Qed.

Lemma location_boosts_stack_witness :
  let iva := mkSoUser 42 (Some "Iva RAG") (Some "https://stackoverflow.com/users/42")
                      None (Some "Sofia, Bulgaria") in
  let api := mkStackApi (fun _ _ => Ok [iva])
                        (fun _ => Ok [Some "python"; None; Some "rag"]) in
  let src := mkSources (fun _ _ _ => Raise) (search_stackexchange_users api)
                       (fun _ _ => Ok []) (fun _ _ => Ok [])
                       (fun _ _ => Ok []) in
  let payload := [("ideas", JList [JStr "rag"]);
                  ("location", JStr "bulgaria")] in
  let terms := ["rag"; "retrieval augmented generation"] in
  let text := so_text iva ["python"; "rag"] in
  (text = "Iva RAG python rag" /\ _score_match text terms == 3)%Q
  /\ (exists c,
         so_candidate terms (JStr "bulgaria") iva
                      [Some "python"; None; Some "rag"]
         = Ok c
         /\ source c = "stackexchange"
         /\ location c = Some "Sofia, Bulgaria"
         /\ (score c == _score_match text terms + 1)%Q
         /\ (score (boost_one "bulgaria" c)
             == _score_match text terms + (3 # 2))%Q)
  /\ exists c,
       suggest_collaborators src (Some (JDict payload))
       = HttpResponse 200 (ResultBody [c] terms (JStr "bulgaria"))
       /\ (score c == 3 + (3 # 2))%Q.
Proof.
  intros iva api src payload terms text.
  split; [split; reflexivity | split].
  - assert (Hloc : "bulgaria" <> "") by discriminate.
    exact (proj2 (proj2 (location_boosts_stack "bulgaria" Hloc))
             terms iva "Sofia, Bulgaria"
             [Some "python"; None; Some "rag"] eq_refl eq_refl eq_refl).
  - eexists. split; [reflexivity | reflexivity].
Defined.

(** A score that is not a multiple of a half is rounded by the boost: 0.3,
    the bonus of one repository, boosted, is the float 0.8 and not 0.3 plus
    a half. *)
Lemma boost_rounds :
  fadd (fl (3 # 10)) (1 # 2) = fmul 4 (fl (2 # 10))
  /\ ~ (fadd (fl (3 # 10)) (1 # 2) == fl (3 # 10) + (1 # 2))%Q.
Proof. split; [vm_compute; reflexivity | vm_compute; discriminate]. Qed.

(** ** Further properties *)

(** The text contains a term exactly when [str.count] counts at least one
    occurrence of it. *)
Lemma contains_count (sub s : string) :
  Py.contains sub s = true <-> (0 < Py.count s sub)%nat.
Proof.
  unfold Py.count. induction s as [|c r IH].
  - simpl. rewrite orb_false_r. destruct sub; simpl; split; intros H;
      first [reflexivity | lia | discriminate].
  - cbn [Py.contains Py.count_from].
    destruct (prefix sub (String c r)); simpl; [split; [lia | reflexivity]|].
    exact IH.
Qed.

Lemma score_step_one (text term : string) (acc : Q) :
  let t := Py.lower text in
  let n := Py.count t (Py.lower term) in
  ((term = "" \/ Py.contains (Py.lower term) t = false)
   /\ (score_step t acc term == acc)%Q)
  \/ (term <> "" /\ Py.contains (Py.lower term) t = true
      /\ (1 <= n)%nat
      /\ (score_step t acc term
          == acc + 2 + (1 # 2) * inject_Z (Z.of_nat n))%Q
      /\ (acc + (5 # 2) <= score_step t acc term)%Q).
Proof.
  intros t n. unfold score_step.
  destruct (Py.truthy_str term) eqn:Eterm.
  - apply truthy_str_true in Eterm. fold n.
    destruct (Py.contains (Py.lower term) t) eqn:E.
    + right. pose proof (proj1 (contains_count _ _) E) as Hn. fold n in Hn.
      split; [exact Eterm|]. split; [reflexivity|]. split; [lia|].
      assert (Heq : (acc + 2 + inject_Z (Z.of_nat n) * (1 # 2)
                     == acc + 2 + (1 # 2) * inject_Z (Z.of_nat n))%Q) by ring.
      split; [exact Heq|]. rewrite Heq.
      assert (Hq : (1 <= inject_Z (Z.of_nat n))%Q).
      { change 1%Q with (inject_Z 1). rewrite <- Zle_Qle. lia. }
      assert (H52 : (acc + (5 # 2) == acc + 2 + (1 # 2) * 1)%Q) by ring.
      rewrite H52. apply Qplus_le_r.
      apply Qmult_le_l; [reflexivity | exact Hq].
    + left. split; [now right|].
      destruct n as [|m] eqn:En.
      * simpl. ring.
      * exfalso. assert (H : (0 < Py.count t (Py.lower term))%nat)
          by (fold n; lia).
        apply contains_count in H. congruence.
  - left. split; [|reflexivity]. left.
    unfold Py.truthy_str in Eterm. apply negb_false_iff in Eterm.
    now apply String.eqb_eq in Eterm.
Qed.

(** X1.  What the scoring loop adds for one term: nothing for an empty term,
    nothing when the lowercased text does not contain the lowercased term,
    and otherwise 2 plus a half per counted occurrence, of which there is at
    least one.  So a term adds 0 or at least 2.5, and the score of a text
    against a single term is 0 or at least 2.5. *)
Theorem score_step_cases (text term : string) (acc : Q) :
  let t := Py.lower text in
  let n := Py.count t (Py.lower term) in
  (((term = "" \/ Py.contains (Py.lower term) t = false)
    /\ (score_step t acc term == acc)%Q)
   \/ (term <> "" /\ Py.contains (Py.lower term) t = true
       /\ (1 <= n)%nat
       /\ (score_step t acc term
           == acc + 2 + (1 # 2) * inject_Z (Z.of_nat n))%Q
       /\ (acc + (5 # 2) <= score_step t acc term)%Q))
  /\ ((_score_match text [term] == 0)%Q
      \/ (5 # 2 <= _score_match text [term])%Q).
Proof.
  intros t n. split; [apply score_step_one|].
  unfold _score_match. destruct (Py.truthy_str text); [|now left].
  cbn [fold_left]. fold t.
  destruct (score_step_one text term 0%Q) as [[_ H]|(_ & _ & _ & _ & H)].
  - left. exact H.
  - right. fold t in H. eapply Qle_trans; [|exact H]. discriminate.
Qed.

Lemma desc_firstn {A : Type} (key : A -> Q) (n : nat) (l : list A) :
  desc key l -> desc key (firstn n l).
Proof.
  unfold desc. revert n. induction l as [|x l IH]; intros n Hs.
  - now rewrite firstn_nil.
  - destruct n as [|n]; [constructor|].
    inversion Hs as [|? ? Hl Hall]; subst. cbn [firstn].
    constructor; [now apply IH|].
    rewrite Forall_forall in *. intros y Hy. apply Hall.
    now apply In_firstn in Hy.
Qed.

(** X2.  On a valid request the candidates of the response are at most
    [max_results] (10 when absent), stand in decreasing order of score, and no
    two of them have the same dedup key. *)
Theorem response_ranked (src : sources) (payload : list (string * json)) :
  valid_request payload ->
  exists ranked,
    suggest_collaborators src (Some (JDict payload))
    = HttpResponse 200
        (ResultBody ranked (request_terms payload) (get "location" payload))
    /\ (Z.of_nat (List.length ranked) <= request_limit payload)%Z
    /\ desc score ranked
    /\ NoDup (map dedup_key ranked).
Proof.
  intros Hvalid.
  destruct (handler_valid src payload Hvalid) as (ranked & Hagg & Hresp).
  exists ranked. split; [exact Hresp|].
  destruct Hvalid as (_ & _ & _ & Hmax).
  apply valid_max_results_int in Hmax as [_ Hpos].
  unfold aggregate in Hagg.
  destruct (location_boost _ _) as [boosted|]; [|discriminate].
  injection Hagg as <-. unfold _clip at 1 2.
  rewrite slice_to_pos by lia. split; [|split].
  - rewrite length_firstn. lia.
  - apply desc_firstn, sorted_desc_sorted.
  - apply clip_keys_NoDup, dedupe_keys_NoDup.
Qed.

Lemma response_ranked_witness :
  let mk := fun (u : string) (s : Q) =>
              mkCandidate "github" None (Some u) None None None None None
                          JNull s in
  let src := mkSources (fun _ _ _ => Ok [mk "ann" 1%Q; mk "bob" 5%Q])
                       (fun _ _ _ => Raise)
                       (fun _ _ => Ok [mk "cy" 3%Q; mk "BOB" 6%Q])
                       (fun _ _ => Ok []) (fun _ _ => Ok []) in
  let payload := [("ideas", JList [JStr "LLM chatbot for customer support"]);
                  ("max_results", JInt 5)] in
  exists ranked,
    suggest_collaborators src (Some (JDict payload))
    = HttpResponse 200
        (ResultBody ranked (request_terms payload) (get "location" payload))
    /\ (Z.of_nat (List.length ranked) <= request_limit payload)%Z
    /\ desc score ranked
    /\ NoDup (map dedup_key ranked).
Proof.
  intros mk src payload. apply response_ranked.
  split; [|split; [|split]].
  - exists [JStr "LLM chatbot for customer support"].
    split; [reflexivity | split; [discriminate | reflexivity]].
  - now left.
  - now left.
  - right. exists 5%Z. split; reflexivity.
Defined.

(** X3.  A body that is not JSON, an [ideas] that fails the check of line
    402 and a [keywords] that is neither empty nor a list are each answered
    with a 400 and a non-empty error message, the same whatever the adapters
    would return: no adapter is consulted. *)
Theorem malformed_request_rejected (src : sources) :
  (exists msg, msg <> ""
               /\ suggest_collaborators src None
                  = HttpResponse 400 (ErrorBody msg))
  /\ forall payload,
       ideas_ok (get "ideas" payload) = false
       \/ (truthy (get "keywords" payload) = true
           /\ forall kws, get "keywords" payload <> JList kws) ->
       exists msg,
         msg <> ""
         /\ forall src', suggest_collaborators src' (Some (JDict payload))
                         = HttpResponse 400 (ErrorBody msg).
Proof.
  split.
  - eexists. split; [|reflexivity]. discriminate.
  - intros payload Hbad.
    destruct (ideas_ok (get "ideas" payload)) eqn:Hideas.
    + destruct Hbad as [Hbad|[Htruthy Hnot]]; [discriminate|].
      eexists. split; [|intros src'; unfold suggest_collaborators].
      2:{ rewrite Hideas. unfold py_or. rewrite Htruthy.
          destruct (get "keywords" payload) eqn:Ek; try reflexivity.
          now destruct (Hnot items). }
      discriminate.
    + eexists. split; [|intros src'; now apply bad_ideas_rejected].
      discriminate.
Qed.

Lemma malformed_request_rejected_witness :
  let src := mkSources (fun _ _ _ => Raise) (fun _ _ _ => Raise)
                       (fun _ _ => Raise) (fun _ _ => Raise)
                       (fun _ _ => Raise) in
  exists msg,
    msg <> ""
    /\ forall src', suggest_collaborators src'
                      (Some (JDict [("ideas", JStr "not-a-list")]))
                    = HttpResponse 400 (ErrorBody msg).
Proof.
  intros src.
  apply (proj2 (malformed_request_rejected src)
               [("ideas", JStr "not-a-list")]).
  left. reflexivity.
Defined.

(** ** The term extractor: keywords, characters, synonyms *)

Lemma keywords_fold (kws : list json) :
  forall tokens,
    fold_left (fun tokens k =>
                 match k with
                 | JStr s => add_tokens tokens s
                 | _ => tokens
                 end) kws tokens
    = fold_left add_tokens (strs kws) tokens.
Proof.
  induction kws as [|k kws IH]; intros tokens; [reflexivity|].
  destruct k; simpl; apply IH.
Qed.

Lemma collect_tokens_keywords (ideas : list string)
    (extra_keywords : option (list json)) :
  collect_tokens ideas extra_keywords
  = fold_left add_tokens
      (ideas ++ match extra_keywords with Some kws => strs kws | None => [] end)
      [].
Proof.
  unfold collect_tokens. rewrite fold_left_app.
  destruct extra_keywords as [[|k ks]|]; try reflexivity.
  apply keywords_fold.
Qed.

(** X4.  The keywords are read as further ideas: the terms of a request are
    those of the ideas followed by the keywords that are strings, a keyword
    that is not a string is passed over, and an absent keyword list is the
    same as an empty one. *)
Theorem build_terms_keywords (ideas : list string) (kws : list json) :
  _build_terms ideas (Some kws) = _build_terms (ideas ++ strs kws) None
  /\ _build_terms ideas (Some kws) = _build_terms ideas (Some (map JStr (strs kws)))
  /\ _build_terms ideas None = _build_terms ideas (Some []).
Proof.
  assert (Hstrs : forall l, strs (map JStr l) = l).
  { induction l as [|x l IH]; simpl; [reflexivity | now rewrite IH]. }
  unfold _build_terms, expand_terms.
  rewrite !collect_tokens_keywords, Hstrs. simpl.
  now rewrite !app_nil_r.
Qed.

Lemma all_chars_impl (p q : ascii -> bool) (s : string) :
  (forall c, p c = true -> q c = true) ->
  all_chars p s = true -> all_chars q s = true.
Proof.
  intros Hpq. induction s as [|c r IH]; simpl; [reflexivity|].
  rewrite !andb_true_iff. intros [Hc Hr]. auto.
Qed.

Lemma drop_punctuation_kept (s : string) :
  all_chars kept_char (drop_punctuation s) = true.
Proof.
  induction s as [|c r IH]; simpl; [reflexivity|].
  rewrite IH, andb_true_r. now destruct (kept_char c) eqn:E.
Qed.

(** Cutting at the separators leaves pieces without separators. *)
Lemma split_on_pieces (sep p : ascii -> bool) (s : string) :
  all_chars p s = true ->
  Forall (fun w => all_chars (fun c => p c && negb (sep c)) w = true)
         (Py.split_on sep s).
Proof.
  induction s as [|c r IH]; simpl.
  - intros _. repeat constructor.
  - rewrite andb_true_iff. intros [Hc Hr]. specialize (IH Hr).
    destruct (sep c) eqn:Esep.
    + constructor; [reflexivity | exact IH].
    + destruct (Py.split_on sep r) as [|w ws].
      * constructor; [|constructor]. simpl. now rewrite Hc, Esep.
      * inversion IH; subst. constructor; [|assumption].
        simpl. now rewrite Hc, Esep.
Qed.

Lemma lstrip_chars (p : ascii -> bool) (s : string) :
  all_chars p s = true -> all_chars p (Py.lstrip s) = true.
Proof.
  induction s as [|c r IH]; simpl; [reflexivity|].
  rewrite andb_true_iff. intros [Hc Hr].
  destruct (Py.isspace c); [now apply IH|]. simpl. now rewrite Hc.
Qed.

Lemma rstrip_chars (p : ascii -> bool) (s : string) :
  all_chars p s = true -> all_chars p (Py.rstrip s) = true.
Proof.
  induction s as [|c r IH]; simpl; [reflexivity|].
  rewrite andb_true_iff. intros [Hc Hr]. specialize (IH Hr).
  destruct (Py.rstrip r); [destruct (Py.isspace c)|]; simpl;
    rewrite ?Hc; auto.
Qed.

Lemma word_piece (c : ascii) :
  (kept_char c && negb (Py.isspace c)) && negb (compound_sep c) = true ->
  Py.isword c = true.
Proof.
  unfold kept_char, compound_sep.
  destruct (Py.isword c), (Py.isspace c), (Ascii.eqb c "-"),
    (Ascii.eqb c "+"), (Ascii.eqb c "/"); simpl; congruence.
Qed.

Lemma add_tokens_words (s : string) (tokens : list string) :
  Forall (fun w => all_chars Py.isword w = true) tokens ->
  Forall (fun w => all_chars Py.isword w = true) (add_tokens tokens s).
Proof.
  unfold add_tokens.
  assert (Hwords : Forall (fun w => all_chars
                             (fun c => kept_char c && negb (Py.isspace c)) w
                             = true)
                          (Py.split (drop_punctuation s))).
  { unfold Py.split. apply Forall_forall. intros w Hw.
    apply filter_In in Hw as [Hw _].
    pose proof (split_on_pieces Py.isspace kept_char _
                  (drop_punctuation_kept s)) as H.
    rewrite Forall_forall in H. now apply H. }
  assert (Hparts : forall words acc,
             Forall (fun w => all_chars Py.isword w = true) acc ->
             Forall (fun w => all_chars
                        (fun c => kept_char c && negb (Py.isspace c)) w
                        = true) words ->
             Forall (fun w => all_chars Py.isword w = true)
                    (fold_left (fun parts w =>
                                  parts ++ Py.split_on compound_sep w)
                               words acc)).
  { induction words as [|w words IH]; intros acc Hacc Hws; simpl;
      [exact Hacc|].
    inversion Hws; subst. apply IH; [|assumption].
    apply Forall_app. split; [exact Hacc|].
    eapply Forall_impl; [|apply split_on_pieces; eassumption].
    intros piece Hpiece. simpl in Hpiece.
    eapply all_chars_impl; [|exact Hpiece]. apply word_piece. }
  specialize (Hparts _ [] (Forall_nil _) Hwords).
  revert Hparts.
  generalize (fold_left (fun parts w => parts ++ Py.split_on compound_sep w)
                        (Py.split (drop_punctuation s)) []).
  intros parts Hparts. revert tokens.
  induction parts as [|w parts IH]; intros tokens Hok; simpl; [exact Hok|].
  inversion Hparts; subst. apply IH; [assumption|].
  destruct (token_ok (Py.strip w)); [|exact Hok].
  apply Forall_app. split; [exact Hok|].
  constructor; [|constructor].
  unfold Py.strip. now apply rstrip_chars, lstrip_chars.
Qed.

Lemma collect_tokens_words (ideas : list string)
    (extra_keywords : option (list json)) :
  Forall (fun w => all_chars Py.isword w = true)
         (collect_tokens ideas extra_keywords).
Proof.
  rewrite collect_tokens_keywords.
  generalize (ideas ++ match extra_keywords with
                       | Some kws => strs kws
                       | None => []
                       end).
  intros l.
  assert (H : forall acc,
             Forall (fun w => all_chars Py.isword w = true) acc ->
             Forall (fun w => all_chars Py.isword w = true)
                    (fold_left add_tokens l acc)).
  { induction l as [|s l IH]; intros acc Hacc; simpl; [exact Hacc|].
    apply IH. now apply add_tokens_words. }
  apply H. constructor.
Qed.

(** What the synonym loop builds: every token, each followed by its
    synonyms. *)
Lemma expand_step_synonyms (expanded : list string) (t : string) :
  expand_step expanded t = expanded ++ t :: synonyms (Py.lower t).
Proof.
  unfold expand_step, synonyms.
  destruct (Py.lower t =? "llm"), (Py.lower t =? "rag"),
    (mem (Py.lower t) ["geospatial"; "gis"]), (Py.lower t =? "langchain");
    simpl; rewrite <- ?app_assoc; reflexivity.
Qed.

Lemma expand_loop_flat (tokens : list string) :
  forall acc,
    fold_left expand_step tokens acc
    = acc ++ flat_map (fun t => t :: synonyms (Py.lower t)) tokens.
Proof.
  induction tokens as [|t tokens IH]; intros acc; simpl.
  - now rewrite app_nil_r.
  - rewrite IH, expand_step_synonyms. now rewrite <- app_assoc.
Qed.

Lemma synonyms_phrases (tl syn : string) :
  In syn (synonyms tl) -> In syn synonym_phrases.
Proof.
  unfold synonyms, synonym_phrases.
  destruct (tl =? "llm"), (tl =? "rag"), (mem tl ["geospatial"; "gis"]),
    (tl =? "langchain"); simpl; tauto.
Qed.

(** X5.  A term is made of word characters alone (letters, digits,
    underscore: no space, hyphen, slash, plus or punctuation) unless it is
    one of the seven synonym phrases. *)
Theorem build_terms_word_characters (ideas : list string)
    (extra_keywords : option (list json)) (t : string) :
  In t (_build_terms ideas extra_keywords) ->
  all_chars Py.isword t = true \/ In t synonym_phrases.
Proof.
  intros Ht. unfold _build_terms in Ht.
  destruct (slice_to_firstn 20 (dedupe_terms (expand_terms ideas extra_keywords)))
    as [m Hm].
  rewrite Hm in Ht. apply In_firstn in Ht.
  rewrite dedupe_terms_from in Ht. apply dedupe_from_In in Ht as [Ht _].
  unfold expand_terms in Ht. rewrite expand_loop_flat in Ht. simpl in Ht.
  apply in_flat_map in Ht as (tok & Htok & [<-|Hsyn]).
  - left. pose proof (collect_tokens_words ideas extra_keywords) as H.
    rewrite Forall_forall in H. now apply H.
  - right. now apply synonyms_phrases in Hsyn.
Qed.

Lemma build_terms_word_characters_witness :
  all_chars Py.isword "co_pilot2" = true \/ In "co_pilot2" synonym_phrases.
Proof.
  apply (build_terms_word_characters
           ["C++/Rust: co_pilot2 (beta), e-mail!"] None).
  simpl. tauto.
Defined.

(** X6.  Before the cut to 20 every synonym of every token is present up to
    case, whatever the case the token was written in: a token that reads
    "llm", "rag", "geospatial", "gis" or "langchain" in lowercase brings its
    phrases into the deduplicated terms. *)
Theorem build_terms_synonyms (ideas : list string)
    (extra_keywords : option (list json)) (t syn : string) :
  In t (collect_tokens ideas extra_keywords) ->
  In syn (synonyms (Py.lower t)) ->
  _build_terms ideas extra_keywords
  = firstn 20 (dedupe_terms (expand_terms ideas extra_keywords))
  /\ exists y,
       In y (dedupe_terms (expand_terms ideas extra_keywords))
       /\ Py.lower y = Py.lower syn.
Proof.
  intros Ht Hsyn. split; [reflexivity|].
  rewrite dedupe_terms_from.
  assert (HIn : In syn (expand_terms ideas extra_keywords)).
  { unfold expand_terms. rewrite expand_loop_flat. simpl.
    apply in_flat_map. exists t. split; [exact Ht | now right]. }
  destruct (dedupe_from_covers _ [] syn HIn) as [[]|H]. exact H.
Qed.

Lemma build_terms_synonyms_witness :
  exists y,
    In y (dedupe_terms (expand_terms ["maps with GIS"] None))
    /\ Py.lower y = Py.lower "osmnx".
Proof.
  apply (build_terms_synonyms ["maps with GIS"] None "GIS" "osmnx").
  - simpl. tauto.
  - simpl. tauto.
Defined.

(** ** The scorer: sign, concatenation, case *)

Lemma term_contribution_nonneg (text term : string) :
  (0 <= term_contribution text term)%Q.
Proof.
  unfold term_contribution.
  apply (Qle_trans _ (0 + 0)%Q); [discriminate|].
  apply Qplus_le_compat.
  - destruct (Py.contains _ _); discriminate.
  - apply Qmult_le_0_compat; [discriminate|].
    change 0%Q with (inject_Z 0). rewrite <- Zle_Qle. lia.
Qed.

Lemma Qsum_nonneg (l : list Q) :
  Forall (fun q => (0 <= q)%Q) l -> (0 <= Qsum l)%Q.
Proof.
  induction 1 as [|q l Hq _ IH]; simpl; [discriminate|].
  apply (Qle_trans _ (0 + 0)%Q); [discriminate|].
  now apply Qplus_le_compat.
Qed.

Lemma score_match_Qsum (text : string) (terms : list string) :
  text <> "" ->
  (_score_match text terms
   == Qsum (map (term_contribution text) (filter Py.truthy_str terms)))%Q.
Proof.
  intros Htext. unfold _score_match.
  rewrite (proj2 (truthy_str_true text) Htext). cbv zeta.
  rewrite (score_loop_sum text terms 0 0)%Q by reflexivity. ring.
Qed.

Lemma lower_truthy (s s' : string) :
  Py.lower s = Py.lower s' -> Py.truthy_str s = Py.truthy_str s'.
Proof.
  destruct s, s'; simpl; intros H; try reflexivity; discriminate.
Qed.

Lemma score_step_lower (t : string) (acc : Q) (term term' : string) :
  Py.lower term = Py.lower term' ->
  score_step t acc term = score_step t acc term'.
Proof.
  intros H. unfold score_step.
  now rewrite (lower_truthy _ _ H), H.
Qed.

Lemma score_loop_lower (t : string) (terms : list string) :
  forall terms' acc,
    map Py.lower terms = map Py.lower terms' ->
    fold_left (score_step t) terms acc = fold_left (score_step t) terms' acc.
Proof.
  induction terms as [|x terms IH]; intros [|x' terms'] acc H;
    try discriminate; [reflexivity|].
  injection H as Hx Hrest. simpl.
  rewrite (score_step_lower t acc x x' Hx). now apply IH.
Qed.

(** X7.  A score is never negative; the score on a concatenation of term
    lists is the sum of the scores on the lists, so a repeated term counts
    each time; and the score depends on the text and on the terms only up to
    the case of their letters. *)
Theorem score_match_algebra (text : string) (terms : list string) :
  (0 <= _score_match text terms)%Q
  /\ (forall more,
         _score_match text (terms ++ more)
         == _score_match text terms + _score_match text more)%Q
  /\ (forall text' terms',
         Py.lower text = Py.lower text' ->
         map Py.lower terms = map Py.lower terms' ->
         _score_match text terms = _score_match text' terms').
Proof.
  split; [|split].
  - destruct (string_dec text "") as [->|Htext]; [discriminate|].
    rewrite score_match_Qsum by exact Htext.
    apply Qsum_nonneg, Forall_forall. intros q Hq.
    apply in_map_iff in Hq as (term & <- & _).
    apply term_contribution_nonneg.
  - intros more.
    destruct (string_dec text "") as [->|Htext]; [reflexivity|].
    rewrite !score_match_Qsum by exact Htext.
    rewrite filter_app, map_app. unfold Qsum. rewrite fold_right_app.
    generalize (map (term_contribution text) (filter Py.truthy_str more)).
    generalize (map (term_contribution text) (filter Py.truthy_str terms)).
    intros l1 l2. induction l1 as [|q l1 IH]; simpl; [ring|].
    rewrite IH. ring.
  - intros text' terms' Htext Hterms. unfold _score_match.
    rewrite (lower_truthy _ _ Htext), Htext.
    destruct (Py.truthy_str text'); [|reflexivity].
    now apply score_loop_lower.
Qed.

Lemma score_match_algebra_witness :
  _score_match "Developer Tools for RAG" ["Rag"; "tools"]
  = _score_match "developer tools for rag" ["RAG"; "TOOLS"].
Proof.
  apply (proj2 (proj2 (score_match_algebra "Developer Tools for RAG"
                         ["Rag"; "tools"]))); reflexivity.
Defined.

(** ** Dedup and clip: repetition and composition *)

(** X8.  Deduplicating loses no key and keeps, for each candidate, a
    survivor of the same key that scores at least as much; the result is no
    longer than the input, and deduplicating it again changes nothing. *)
Theorem dedupe_idempotent_keeps_best (items : list candidate) :
  _dedupe_keep_best (_dedupe_keep_best items) = _dedupe_keep_best items
  /\ (List.length (_dedupe_keep_best items) <= List.length items)%nat
  /\ forall c,
       In c items ->
       exists s,
         In s (_dedupe_keep_best items)
         /\ dedup_key s = dedup_key c
         /\ (score c <= score s)%Q.
Proof.
  split; [apply dedupe_distinct, dedupe_keys_NoDup | split].
  - apply NoDup_incl_length; [|apply dedupe_incl].
    apply (NoDup_map_inv dedup_key), dedupe_keys_NoDup.
  - intros c Hc.
    pose proof (dedupe_group items (dedup_key c)) as Hgroup.
    assert (Hcg : In c (group (dedup_key c) items))
      by (apply group_In; now split).
    destruct (group (dedup_key c) items) as [|g gs] eqn:Eg; [destruct Hcg|].
    destruct Hgroup as (s & Hout & pre & post & Hsplit & Hpre & Hpost).
    exists s.
    assert (Hs : In s (group (dedup_key c) (_dedupe_keep_best items)))
      by (rewrite Hout; now left).
    apply group_In in Hs as [Hs Hkey].
    split; [exact Hs | split; [exact Hkey|]].
    rewrite Hsplit in Hcg. apply in_app_or in Hcg as [H|[<-|H]].
    + apply Qlt_le_weak. now apply Hpre.
    + apply Qle_refl.
    + now apply Hpost.
Qed.

Lemma dedupe_idempotent_keeps_best_witness :
  let mk := fun (u : string) (s : Q) =>
              mkCandidate "github" None (Some u) None None None None None
                          JNull s in
  exists s,
    In s (_dedupe_keep_best [mk "ann" 1%Q; mk "Ann" 4%Q; mk "cy" 3%Q])
    /\ dedup_key s = dedup_key (mk "ann" 1%Q)
    /\ (score (mk "ann" 1%Q) <= score s)%Q.
Proof.
  intros mk.
  apply (proj2 (proj2 (dedupe_idempotent_keeps_best
                         [mk "ann" 1%Q; mk "Ann" 4%Q; mk "cy" 3%Q]))).
  now left.
Defined.

(** Sorting a list whose keys already decrease leaves it as it is. *)
Lemma sorted_desc_fixed {A : Type} (key : A -> Q) (l : list A) :
  desc key l -> sorted_desc key l = l.
Proof.
  unfold desc. induction 1 as [|x l Hl IH Hall]; [reflexivity|].
  cbn [sorted_desc]. rewrite IH.
  destruct l as [|y l]; [reflexivity|]. cbn [insert_desc].
  inversion Hall as [|? ? Hy _]; subst.
  apply Qgtb_false in Hy. now rewrite Hy.
Qed.

(** X9.  Clipping to nothing gives the empty list; a limit of at least the
    number of items gives all of them, ranked; and clipping twice is clipping
    once to the smaller limit. *)
Theorem clip_compose (items : list candidate) :
  _clip items 0 = []
  /\ (forall n, (Z.of_nat (List.length items) <= n)%Z ->
                _clip items n = sorted_desc score items)
  /\ (forall n m, (0 <= n)%Z -> (0 <= m)%Z ->
                  _clip (_clip items n) m = _clip items (Z.min n m)).
Proof.
  split; [reflexivity | split].
  - intros n Hn. unfold _clip. rewrite slice_to_pos by lia.
    apply firstn_all2.
    rewrite (Permutation_length (sorted_desc_perm score items)). lia.
  - intros n m Hn Hm. unfold _clip.
    rewrite !slice_to_pos by lia.
    rewrite sorted_desc_fixed by apply desc_firstn, sorted_desc_sorted.
    rewrite firstn_firstn. f_equal. lia.
Qed.

Lemma clip_compose_witness :
  let mk := fun (u : string) (s : Q) =>
              mkCandidate "github" None (Some u) None None None None None
                          JNull s in
  let items := [mk "ann" 1%Q; mk "bob" 5%Q; mk "cy" 3%Q] in
  _clip (_clip items 2) 7 = _clip items (Z.min 2 7)
  /\ _clip items 3 = sorted_desc score items.
Proof.
  intros mk items.
  destruct (clip_compose items) as (_ & Hall & Htwice).
  split; [apply Htwice; lia | apply Hall; simpl; lia].
Defined.

(** ** The StackExchange adapter as a whole *)

Lemma so_candidate_built (terms : list string) (location_ : json)
    (u : so_user) (tag_items : list (option string)) :
  optional_str location_ ->
  exists c, so_candidate terms location_ u tag_items = Ok c
            /\ so_built terms tag_items u c.
Proof.
  intros Hloc. unfold so_candidate.
  assert (Hhit : exists hit, so_location_hit location_ u = Ok hit).
  { unfold so_location_hit.
    destruct Hloc as [->|(loc & ->)]; simpl; [now exists false|].
    destruct (_ && _); eexists; reflexivity. }
  destruct Hhit as [hit ->]. eexists. split; [reflexivity|].
  unfold so_built. simpl. repeat split; try reflexivity.
  destruct hit; [right | left]; reflexivity.
Qed.

Lemma so_loop_raises (api : stack_api) (terms : list string)
    (location_ : json) (users : list so_user) :
  Exists (fun u => get_top_tags api (user_id u) = Raise) users ->
  forall out, so_loop api terms location_ users out = Raise.
Proof.
  induction 1 as [u users Hu|u users _ IH]; intros out; simpl.
  - now rewrite Hu.
  - destruct (get_top_tags api (user_id u)); [|reflexivity].
    destruct (so_candidate terms location_ u a); [apply IH | reflexivity].
Qed.

Lemma so_loop_builds (api : stack_api) (terms : list string)
    (location_ : json) (users : list so_user) :
  optional_str location_ ->
  Forall (fun u => get_top_tags api (user_id u) <> Raise) users ->
  forall out,
    exists found,
      so_loop api terms location_ users out = Ok (out ++ found)
      /\ Forall2 (fun u c =>
                    exists tag_items,
                      get_top_tags api (user_id u) = Ok tag_items
                      /\ so_built terms tag_items u c)
                 users found.
Proof.
  intros Hloc. induction 1 as [|u users Hu _ IH]; intros out; simpl.
  - exists []. split; [now rewrite app_nil_r | constructor].
  - destruct (get_top_tags api (user_id u)) as [tag_items|] eqn:Etags;
      [|congruence].
    destruct (so_candidate_built terms location_ u tag_items Hloc)
      as (c & -> & Hc).
    destruct (IH (out ++ [c])) as (found & -> & Hfound).
    exists (c :: found). split; [now rewrite <- app_assoc|].
    constructor; [|exact Hfound]. exists tag_items. now split.
Qed.

(** X10.  The StackExchange adapter is all or nothing.  With a location that
    is a string or absent, it raises when the user search fails or the tag
    call of any one user fails, whatever the other users gave; otherwise it
    returns one candidate per user found, in the order of the search, each
    carrying the user id as username and a score equal to the text score or
    one point more.  The name searched is the first term, or "engineer" when
    there is no term. *)
Theorem stackexchange_all_or_nothing (api : stack_api) (terms : list string)
    (location_ : json) (pagesize : Z) :
  optional_str location_ ->
  match get_users api (hd "engineer" terms) pagesize with
  | Raise => search_stackexchange_users api terms location_ pagesize = Raise
  | Ok users =>
      (Exists (fun u => get_top_tags api (user_id u) = Raise) users ->
       search_stackexchange_users api terms location_ pagesize = Raise)
      /\ (Forall (fun u => get_top_tags api (user_id u) <> Raise) users ->
          exists found,
            search_stackexchange_users api terms location_ pagesize = Ok found
            /\ Forall2 (fun u c =>
                          exists tag_items,
                            get_top_tags api (user_id u) = Ok tag_items
                            /\ so_built terms tag_items u c)
                       users found)
  end.
Proof.
  intros Hloc. unfold search_stackexchange_users.
  replace (match terms with t :: _ => t | [] => "engineer" end)
    with (hd "engineer" terms) by now destruct terms.
  destruct (get_users api (hd "engineer" terms) pagesize) as [users|];
    [|reflexivity].
  split.
  - intros Hbad. now apply so_loop_raises.
  - intros Hgood.
    destruct (so_loop_builds api terms location_ users Hloc Hgood [])
      as (found & Hrun & Hfound).
    exists found. now split.
Qed.

Lemma stackexchange_all_or_nothing_witness :
  let u1 := mkSoUser 1 (Some "Ann") None None None in
  let u2 := mkSoUser 2 (Some "Bob") None None (Some "Sofia") in
  let api := mkStackApi (fun _ _ => Ok [u1; u2])
                        (fun uid => if (uid =? 2)%Z then Raise
                                    else Ok [Some "python"]) in
  search_stackexchange_users api ["python"] (JStr "sofia") 10 = Raise.
Proof.
  intros u1 u2 api.
  apply (proj1 (stackexchange_all_or_nothing api ["python"] (JStr "sofia") 10
                  (or_intror (ex_intro _ "sofia" eq_refl)))).
  apply Exists_cons_tl, Exists_cons_hd. reflexivity.
Defined.

(** ** Exceptions the handler lets escape *)

(** X11.  What is answered with an escaping exception rather than a 400: a
    JSON body that is not an object; on a body with valid ideas and keywords,
    a [max_results] that [int()] turns down; and, [int()] passed, exactly the
    case of a location that is neither empty nor a string while some adapter
    has returned a candidate. *)
Theorem unhandled_exceptions (src : sources) :
  (forall v, (forall fields, v <> JDict fields) ->
             suggest_collaborators src (Some v) = Unhandled)
  /\ forall payload,
       valid_ideas payload -> valid_keywords payload ->
       let limit :=
         py_int (py_or (get "max_results" payload) (JInt DEFAULT_MAX)) in
       let location_ := get "location" payload in
       (limit = Raise ->
        suggest_collaborators src (Some (JDict payload)) = Unhandled)
       /\ forall max_results,
            limit = Ok max_results ->
            (suggest_collaborators src (Some (JDict payload)) = Unhandled
             <-> truthy location_ = true
                 /\ (forall s, location_ <> JStr s)
                 /\ gather src (request_terms payload) location_ max_results
                    <> []).
Proof.
  split.
  - intros v Hv. destruct v; try reflexivity. now destruct (Hv fields).
  - intros payload Hideas Hkws limit location_.
    pose proof (handler_run src payload _ (valid_ideas_ok _ Hideas)
                  (valid_keywords_list _ Hkws)) as Hrun.
    fold (request_terms payload) in Hrun. fold limit location_ in Hrun.
    split.
    + intros Hlimit. rewrite Hrun. fold limit. now rewrite Hlimit.
    + intros max_results Hlimit. rewrite Hrun. fold limit. rewrite Hlimit.
      cbv zeta. unfold aggregate, location_boost.
      generalize (gather src (request_terms payload) location_ max_results).
      intros found.
      destruct (truthy location_) eqn:Etruthy.
      * destruct location_ as [| | | |loc| |] eqn:Eloc;
          try (destruct found; split;
               [ discriminate
               | intros (_ & _ & H); now destruct H
               | intros _; repeat split; congruence
               | reflexivity ]).
        split; [discriminate|]. intros (_ & H & _). now destruct (H loc).
      * split; [discriminate | intros (H & _); discriminate].
Qed.

Lemma unhandled_exceptions_witness :
  let ann := mkCandidate "github" None (Some "ann") None None None None None
                         JNull 1%Q in
  let src := mkSources (fun _ _ _ => Ok [ann]) (fun _ _ _ => Raise)
                       (fun _ _ => Ok []) (fun _ _ => Ok [])
                       (fun _ _ => Ok []) in
  suggest_collaborators src
    (Some (JDict [("ideas", JList [JStr "llm agents"]);
                  ("max_results", JStr "ten")]))
  = Unhandled
  /\ suggest_collaborators src
       (Some (JDict [("ideas", JList [JStr "llm agents"]);
                     ("location", JInt 7)]))
     = Unhandled.
Proof.
  intros ann src.
  assert (Hideas : forall rest,
             valid_ideas (("ideas", JList [JStr "llm agents"]) :: rest)).
  { intros rest. exists [JStr "llm agents"].
    split; [reflexivity | split; [discriminate | reflexivity]]. }
  split.
  - apply (proj2 (unhandled_exceptions src) _ (Hideas _)); [now left|].
    reflexivity.
  - assert (Hkws : valid_keywords [("ideas", JList [JStr "llm agents"]);
                                   ("location", JInt 7)]) by now left.
    destruct (proj2 (unhandled_exceptions src) _ (Hideas _) Hkws)
      as [_ Hiff].
    apply (Hiff 10%Z eq_refl).
    split; [reflexivity | split; discriminate].
Defined.

(** ** The Papers with Code adapter *)

Lemma pwc_candidate_built (terms : list string) (p : pwc_paper)
    (a : pwc_author) :
  if anonymous a then pwc_candidate terms p a = Raise
  else exists c, pwc_candidate terms p a = Ok c /\ pwc_built terms (p, a) c.
Proof.
  unfold anonymous, pwc_candidate, pwc_profile, no_profile.
  assert (Hprefix : forall n,
             append "https://paperswithcode.com/search?q_author=" n <> "")
    by (intros n; discriminate).
  destruct a as [[n|] [u|]|s]; simpl;
    try destruct (Py.truthy_str u) eqn:Eu; simpl;
    try reflexivity;
    eexists; (split; [reflexivity|]); unfold pwc_built; simpl;
    repeat split; try reflexivity; eexists; (split; [reflexivity|]);
    first [apply Hprefix | now apply truthy_str_true].
Qed.

Lemma pwc_authors_loop_raises (terms : list string) (p : pwc_paper)
    (authors : list pwc_author) :
  Exists (fun a => anonymous a = true) authors ->
  forall out, pwc_authors_loop terms p authors out = Raise.
Proof.
  induction 1 as [a authors Ha|a authors _ IH]; intros out; simpl.
  - pose proof (pwc_candidate_built terms p a) as H.
    rewrite Ha in H. now rewrite H.
  - destruct (pwc_candidate terms p a); [apply IH | reflexivity].
Qed.

Lemma pwc_authors_loop_builds (terms : list string) (p : pwc_paper)
    (authors : list pwc_author) :
  Forall (fun a => anonymous a = false) authors ->
  forall out,
    exists found,
      pwc_authors_loop terms p authors out = Ok (out ++ found)
      /\ Forall2 (pwc_built terms) (map (pair p) authors) found.
Proof.
  induction 1 as [|a authors Ha _ IH]; intros out; simpl.
  - exists []. split; [now rewrite app_nil_r | constructor].
  - pose proof (pwc_candidate_built terms p a) as H. rewrite Ha in H.
    destruct H as (c & -> & Hc).
    destruct (IH (out ++ [c])) as (found & -> & Hfound).
    exists (c :: found). split; [now rewrite <- app_assoc|].
    now constructor.
Qed.

Lemma pwc_papers_loop_raises (terms : list string)
    (papers : list pwc_paper) :
  Exists (fun pa => anonymous (snd pa) = true) (pwc_pairs papers) ->
  forall out, pwc_papers_loop terms papers out = Raise.
Proof.
  unfold pwc_pairs. induction papers as [|p papers IH]; intros Hbad out.
  - inversion Hbad.
  - simpl in Hbad. apply Exists_app in Hbad. simpl.
    change (Py.slice_to 3 (paper_authors p))
      with (firstn 3 (paper_authors p)).
    destruct Hbad as [Hbad|Hbad].
    + rewrite pwc_authors_loop_raises; [reflexivity|].
      apply Exists_exists in Hbad as ([p' a] & HIn & Ha).
      apply in_map_iff in HIn as (a' & [= <- <-] & HIn).
      apply Exists_exists. now exists a'.
    + destruct (pwc_authors_loop terms p _ out); [now apply IH | reflexivity].
Qed.

Lemma pwc_papers_loop_builds (terms : list string)
    (papers : list pwc_paper) :
  Forall (fun pa => anonymous (snd pa) = false) (pwc_pairs papers) ->
  forall out,
    exists found,
      pwc_papers_loop terms papers out = Ok (out ++ found)
      /\ Forall2 (pwc_built terms) (pwc_pairs papers) found.
Proof.
  unfold pwc_pairs. induction papers as [|p papers IH]; intros Hgood out.
  - exists []. split; [simpl; now rewrite app_nil_r | constructor].
  - simpl in Hgood. apply Forall_app in Hgood as [Hp Hrest]. simpl.
    change (Py.slice_to 3 (paper_authors p))
      with (firstn 3 (paper_authors p)).
    assert (Hauthors : Forall (fun a => anonymous a = false)
                              (firstn 3 (paper_authors p))).
    { apply Forall_forall. intros a Ha. rewrite Forall_forall in Hp.
      apply (Hp (p, a)). apply in_map_iff. now exists a. }
    destruct (pwc_authors_loop_builds terms p _ Hauthors out)
      as (found1 & -> & Hfound1).
    destruct (IH Hrest (out ++ found1)) as (found2 & -> & Hfound2).
    exists (found1 ++ found2). split; [now rewrite <- app_assoc|].
    now apply Forall2_app.
Qed.

(** X12.  The Papers with Code adapter raises when the search fails or when,
    among the first three authors of some paper, one is a dict with neither a
    name nor a profile URL; an answer that is not a dict gives no candidate.
    Otherwise it returns one candidate for each of the first three authors
    of each paper, paper by paper: without username, location or contact
    fields, with a profile URL that is never empty, and scored with the text
    score of title and name plus one point when the paper has a repository
    URL.  The query is made of the first six terms. *)
Theorem paperswithcode_candidates (api : pwc_api) (terms : list string)
    (per_page : Z) :
  match api (Py.join " " (firstn 6 terms)) per_page with
  | Raise => search_paperswithcode_authors api terms per_page = Raise
  | Ok None => search_paperswithcode_authors api terms per_page = Ok []
  | Ok (Some papers) =>
      (Exists (fun pa => anonymous (snd pa) = true) (pwc_pairs papers) ->
       search_paperswithcode_authors api terms per_page = Raise)
      /\ (Forall (fun pa => anonymous (snd pa) = false) (pwc_pairs papers) ->
          exists found,
            search_paperswithcode_authors api terms per_page = Ok found
            /\ Forall2 (pwc_built terms) (pwc_pairs papers) found
            /\ (List.length found <= 3 * List.length papers)%nat)
  end.
Proof.
  unfold search_paperswithcode_authors.
  change (Py.slice_to 6 terms) with (firstn 6 terms).
  destruct (api (Py.join " " (firstn 6 terms)) per_page) as [[papers|]|];
    try reflexivity.
  split.
  - intros Hbad. now apply pwc_papers_loop_raises.
  - intros Hgood.
    destruct (pwc_papers_loop_builds terms papers Hgood [])
      as (found & Hrun & Hfound).
    exists found. split; [exact Hrun | split; [exact Hfound|]].
    rewrite <- (Forall2_length Hfound). unfold pwc_pairs.
    clear. induction papers as [|p papers IH]; [simpl; lia|].
    cbn [flat_map List.length]. rewrite length_app, length_map.
    pose proof (firstn_le_length 3 (paper_authors p)) as Hle.
    assert (Hle3 : (List.length (firstn 3 (paper_authors p)) <= 3)%nat)
      by (rewrite length_firstn; apply Nat.le_min_l).
    lia.
Qed.

Lemma paperswithcode_candidates_witness :
  let p1 := mkPaper (Some "RAG at scale") None
                    [AuthorText "Ann Lee"; AuthorDict (Some "Bo") None;
                     AuthorDict None (Some "https://example.org/cy");
                     AuthorDict None None]
                    (Some "https://github.com/x/rag") in
  let api : pwc_api := fun _ _ => Ok (Some [p1]) in
  exists found,
    search_paperswithcode_authors api ["rag"] 20 = Ok found
    /\ Forall2 (pwc_built ["rag"]) (pwc_pairs [p1]) found
    /\ (List.length found <= 3 * List.length [p1])%nat.
Proof.
  intros p1 api.
  apply (proj2 (paperswithcode_candidates api ["rag"] 20)).
  repeat constructor.
Defined.

Lemma lower_append (a b : string) :
  Py.lower (append a b) = append (Py.lower a) (Py.lower b).
Proof. induction a as [|c a IH]; simpl; [reflexivity | now rewrite IH]. Qed.

Lemma append_bar_inj (a b : string) :
  append a "|" = append b "|" -> a = b.
Proof.
  revert b. induction a as [|c a IH]; intros [|d b]; simpl; intros H.
  - reflexivity.
  - injection H as _ H. now destruct b.
  - injection H as _ H. now destruct a.
  - injection H as -> H. now rewrite (IH b H).
Qed.

(** Quoting commutes with lower-casing, up to the case of the result. *)
Lemma quote_char_lower (c : ascii) :
  Py.lower (quote_char c) = Py.lower (quote_char (Py.lower_char c)).
Proof. destruct c as [[] [] [] [] [] [] [] []]; reflexivity. Qed.

Lemma quote_plus_lower (s : string) :
  Py.lower (quote_plus s) = Py.lower (quote_plus (Py.lower s)).
Proof.
  induction s as [|c r IH]; [reflexivity|].
  simpl. rewrite !lower_append, IH. now rewrite quote_char_lower.
Qed.

Lemma unquote_quote_char (c : ascii) (t : string) :
  unquote (append (Py.lower (quote_char c)) t)
  = String (Py.lower_char c) (unquote t).
Proof. destruct c as [[] [] [] [] [] [] [] []]; reflexivity. Qed.

Lemma unquote_quote_plus (s : string) :
  unquote (Py.lower (quote_plus s)) = Py.lower s.
Proof.
  induction s as [|c r IH]; [reflexivity|].
  simpl. now rewrite lower_append, unquote_quote_char, IH.
Qed.

(** Quoted names agree up to case exactly when the names do. *)
Lemma quote_plus_lower_inj (a b : string) :
  Py.lower (quote_plus a) = Py.lower (quote_plus b)
  <-> Py.lower a = Py.lower b.
Proof.
  split; intros H.
  - now rewrite <- (unquote_quote_plus a), <- (unquote_quote_plus b), H.
  - now rewrite (quote_plus_lower a), (quote_plus_lower b), H.
Qed.

Lemma dedupe_pair_distinct (a b : candidate) :
  dedup_key a <> dedup_key b -> _dedupe_keep_best [a; b] = [a; b].
Proof.
  intros Hk. unfold _dedupe_keep_best. cbn [fold_left].
  unfold dedupe_step_best. cbn [dict_get dict_set].
  apply String.eqb_neq in Hk. rewrite String.eqb_sym in Hk.
  rewrite Hk. cbn [dict_get dict_set]. rewrite String.eqb_sym in Hk.
  now rewrite ?Hk.
Qed.

Lemma pwc_fallback_composite (terms : list string) (p : pwc_paper)
    (a : pwc_author) (c : candidate) (n : string) :
  pwc_candidate terms p a = Ok c -> no_profile a = true ->
  pwc_name a = Some n ->
  composite c
  = append (Py.lower "https://paperswithcode.com/search?q_author=")
           (append (Py.lower (quote_plus n)) "|").
Proof.
  unfold pwc_candidate, pwc_profile, no_profile, composite.
  intros Hc Hno Hn. rewrite Hn in Hc.
  assert (Hgiven : match a with
                   | AuthorDict _ (Some u) =>
                       if Py.truthy_str u then Some u else None
                   | _ => None
                   end = None).
  { destruct a as [? [u|]|?]; try reflexivity.
    apply negb_true_iff in Hno. now rewrite Hno. }
  rewrite Hgiven in Hc. injection Hc as <-.
  reflexivity.
Qed.

(** X13.  Two Papers with Code candidates whose authors have a name but no
    profile URL get the search URL of the quoted name as profile; they share
    a deduplication key exactly when the two names are equal up to ASCII
    case.  Deduplication then keeps one of them, with the higher score;
    candidates of differently named authors are both kept. *)
Theorem paperswithcode_same_author (terms : list string)
    (p1 p2 : pwc_paper) (a1 a2 : pwc_author) (c1 c2 : candidate)
    (n1 n2 : string) :
  pwc_candidate terms p1 a1 = Ok c1 -> pwc_candidate terms p2 a2 = Ok c2 ->
  no_profile a1 = true -> no_profile a2 = true ->
  pwc_name a1 = Some n1 -> pwc_name a2 = Some n2 ->
  (dedup_key c1 = dedup_key c2 <-> Py.lower n1 = Py.lower n2)
  /\ (Py.lower n1 = Py.lower n2 ->
      exists c, _dedupe_keep_best [c1; c2] = [c]
                /\ (c = c1 \/ c = c2)
                /\ (score c1 <= score c)%Q /\ (score c2 <= score c)%Q)
  /\ (Py.lower n1 <> Py.lower n2 -> _dedupe_keep_best [c1; c2] = [c1; c2]).
Proof.
  intros Hc1 Hc2 Hno1 Hno2 Hn1 Hn2.
  assert (Hkey : dedup_key c1 = dedup_key c2 <-> Py.lower n1 = Py.lower n2).
  { rewrite dedup_key_composite.
    rewrite (pwc_fallback_composite terms p1 a1 c1 n1 Hc1 Hno1 Hn1).
    rewrite (pwc_fallback_composite terms p2 a2 c2 n2 Hc2 Hno2 Hn2).
    rewrite <- quote_plus_lower_inj. split; intros H.
    - apply append_bar_inj. simpl in H. now injection H.
    - now rewrite H. }
  split; [exact Hkey|]. split.
  - intros Hsame. apply Hkey in Hsame.
    destruct (Qgtb (score c2) (score c1)) eqn:Ecmp.
    + apply Qgtb_true in Ecmp. exists c2.
      rewrite (dedupe_pair_better_later c1 c2 Hsame Ecmp).
      repeat split; [now right | now apply Qlt_le_weak | apply Qle_refl].
    + apply Qgtb_false in Ecmp. exists c1.
      unfold _dedupe_keep_best. cbn [fold_left].
      unfold dedupe_step_best. cbn [dict_get dict_set].
      rewrite <- Hsame, String.eqb_refl.
      apply Qgtb_false in Ecmp. rewrite Ecmp.
      repeat split; [now left | apply Qle_refl | now apply Qgtb_false].
  - intros Hdiff. apply dedupe_pair_distinct. now rewrite Hkey.
Qed.

Lemma paperswithcode_same_author_witness :
  let p1 := mkPaper (Some "Graph RAG") None [] None in
  let p2 := mkPaper (Some "Fast RAG") None []
                    (Some "https://github.com/x/rag") in
  let a1 := AuthorText "Ann Lee" in
  let a2 := AuthorDict (Some "ann LEE") (Some "") in
  exists c1 c2,
    pwc_candidate ["rag"] p1 a1 = Ok c1
    /\ pwc_candidate ["rag"] p2 a2 = Ok c2
    /\ (dedup_key c1 = dedup_key c2 <-> Py.lower "Ann Lee" = Py.lower "ann LEE").
Proof.
  intros p1 p2 a1 a2.
  destruct (pwc_candidate ["rag"] p1 a1) as [c1|] eqn:E1; [|discriminate].
  destruct (pwc_candidate ["rag"] p2 a2) as [c2|] eqn:E2; [|discriminate].
  exists c1, c2. split; [reflexivity|]. split; [reflexivity|].
  exact (proj1 (paperswithcode_same_author ["rag"] p1 p2 a1 a2 c1 c2
                  "Ann Lee" "ann LEE" E1 E2 eq_refl eq_refl eq_refl eq_refl)).
Defined.

Lemma boost_one_unlocated (loc : string) (r : candidate) :
  loc <> "" -> Py.or_empty (location r) = "" -> boost_one loc r = r.
Proof.
  intros Hloc Hr. unfold boost_one. rewrite Hr.
  destruct (Py.contains (Py.lower loc) (Py.lower "")) eqn:E; [|reflexivity].
  apply contains_in_empty, lower_empty in E. contradiction.
Qed.

Lemma location_boost_unlocated (location_ : json)
    (results : list candidate) :
  optional_str location_ ->
  Forall (fun c => Py.or_empty (location c) = "") results ->
  location_boost location_ results = Ok results.
Proof.
  intros [->|[loc ->]] Hres; [reflexivity|].
  unfold location_boost. simpl.
  destruct (Py.truthy_str loc) eqn:Eloc; [|reflexivity].
  apply truthy_str_true in Eloc. f_equal.
  induction Hres as [|r results Hr _ IH]; [reflexivity|].
  simpl. now rewrite IH, boost_one_unlocated.
Qed.

Lemma pwc_authors_loop_inv (terms : list string) (p : pwc_paper)
    (authors : list pwc_author) :
  forall out out',
    pwc_authors_loop terms p authors out = Ok out' ->
    exists found,
      out' = out ++ found
      /\ Forall (fun c => exists pa, pwc_built terms pa c) found.
Proof.
  induction authors as [|a authors IH]; intros out out'; simpl.
  - intros [= <-]. exists []. split; [now rewrite app_nil_r | constructor].
  - pose proof (pwc_candidate_built terms p a) as H.
    destruct (anonymous a); [now rewrite H|].
    destruct H as (c & -> & Hc). intros Hrun.
    destruct (IH _ _ Hrun) as (found & -> & Hfound).
    exists (c :: found). split; [now rewrite <- app_assoc|].
    constructor; [now exists (p, a) | exact Hfound].
Qed.

Lemma pwc_papers_loop_inv (terms : list string) (papers : list pwc_paper) :
  forall out out',
    pwc_papers_loop terms papers out = Ok out' ->
    exists found,
      out' = out ++ found
      /\ Forall (fun c => exists pa, pwc_built terms pa c) found.
Proof.
  induction papers as [|p papers IH]; intros out out'; simpl.
  - intros [= <-]. exists []. split; [now rewrite app_nil_r | constructor].
  - destruct (pwc_authors_loop terms p _ out) as [out1|] eqn:E1;
      [|discriminate].
    intros Hrun.
    destruct (pwc_authors_loop_inv _ _ _ _ _ E1) as (f1 & -> & Hf1).
    destruct (IH _ _ Hrun) as (f2 & -> & Hf2).
    exists (f1 ++ f2). split; [now rewrite <- app_assoc|].
    apply Forall_app. now split.
Qed.

Lemma search_paperswithcode_built (api : pwc_api) (terms : list string)
    (per_page : Z) (found : list candidate) :
  search_paperswithcode_authors api terms per_page = Ok found ->
  Forall (fun c => exists pa, pwc_built terms pa c) found.
Proof.
  unfold search_paperswithcode_authors.
  destruct (api _ per_page) as [[papers|]|]; [| |discriminate].
  - intros Hrun.
    destruct (pwc_papers_loop_inv _ _ _ _ Hrun) as (f & -> & Hf).
    exact Hf.
  - intros [= <-]. constructor.
Qed.

(** X14.  The location boost needs a location on the candidate: with a
    request location that is a string or absent, candidates whose location
    is absent or empty keep their scores, so the answer is the ranked,
    deduplicated input whatever the request location.  Every candidate of
    the Papers with Code adapter is such a candidate. *)
Theorem location_needs_candidate_location (location_ : json) (limit : Z) :
  optional_str location_ ->
  (forall results,
      Forall (fun c => Py.or_empty (location c) = "") results ->
      location_boost location_ results = Ok results
      /\ aggregate results location_ limit
         = Ok (_clip (_dedupe_keep_best results) limit))
  /\ (forall api terms per_page found,
         search_paperswithcode_authors api terms per_page = Ok found ->
         aggregate found location_ limit
         = Ok (_clip (_dedupe_keep_best found) limit)).
Proof.
  intros Hloc.
  assert (Hgen : forall results,
             Forall (fun c => Py.or_empty (location c) = "") results ->
             location_boost location_ results = Ok results
             /\ aggregate results location_ limit
                = Ok (_clip (_dedupe_keep_best results) limit)).
  { intros results Hres. unfold aggregate.
    now rewrite (location_boost_unlocated _ _ Hloc Hres). }
  split; [exact Hgen|].
  intros api terms per_page found Hrun. apply Hgen.
  apply search_paperswithcode_built in Hrun.
  eapply Forall_impl; [|exact Hrun].
  intros c ([p a] & Hc). unfold pwc_built in Hc.
  destruct Hc as (_ & _ & _ & _ & _ & _ & Hl & _). now rewrite Hl.
Qed.

Lemma location_needs_candidate_location_witness :
  let c := mkCandidate "huggingface" (Some "ann") (Some "ann")
             (Some "https://huggingface.co/ann") None None (Some "") None
             (JDict []) 2 in
  location_boost (JStr "Sofia") [c] = Ok [c]
  /\ aggregate [c] (JStr "Sofia") 10 = Ok (_clip (_dedupe_keep_best [c]) 10).
Proof.
  intros c.
  apply (proj1 (location_needs_candidate_location (JStr "Sofia") 10
                  (or_intror (ex_intro _ "Sofia" eq_refl)))).
  repeat constructor.
Defined.

(** ** Grouping with a dict *)

Lemma first_new_snoc (k : string) (ks : list string) :
  forall seen,
    first_new seen (ks ++ [k])
    = first_new seen ks ++ (if mem k seen || mem k ks then [] else [k]).
Proof.
  induction ks as [|k' ks IH]; intros seen; simpl.
  - rewrite orb_false_r. now destruct (mem k seen).
  - destruct (mem k' seen) eqn:Ek'.
    + rewrite IH. f_equal.
      destruct (String.eqb_spec k k') as [->|Hne]; simpl;
        [now rewrite Ek' | reflexivity].
    + simpl. rewrite IH. f_equal. f_equal. simpl.
      destruct (k =? k'), (mem k seen), (mem k ks); reflexivity.
Qed.

Lemma first_new_In (k : string) (ks : list string) :
  forall seen,
    In k (first_new seen ks) <-> In k ks /\ mem k seen = false.
Proof.
  induction ks as [|k' ks IH]; intros seen; simpl; [tauto|].
  destruct (mem k' seen) eqn:Ek'.
  - rewrite IH. split; [tauto|]. intros [[->|H] Hk]; [congruence | tauto].
  - simpl. rewrite IH. simpl.
    destruct (String.eqb_spec k k') as [->|Hne]; simpl.
    + split; [tauto | intros _; now left].
    + split; [intros [E|H]; [congruence | tauto]|]. intros [[E|H] Hk];
        [congruence | tauto].
Qed.

Lemma first_new_NoDup (ks : list string) :
  forall seen, NoDup (first_new seen ks).
Proof.
  induction ks as [|k ks IH]; intros seen; simpl; [constructor|].
  destruct (mem k seen); [apply IH|].
  constructor; [|apply IH].
  rewrite first_new_In. simpl. rewrite String.eqb_refl. simpl.
  intros [_ H]. discriminate.
Qed.

Lemma mem_first_new (k : string) (ks : list string) :
  mem k (first_new [] ks) = mem k ks.
Proof.
  apply eq_true_iff_eq. rewrite !mem_true_In, first_new_In. simpl. tauto.
Qed.

Section GroupingFacts.
Context {X V : Type} (key : X -> option string) (init : V)
        (add : V -> X -> V).

Lemma dict_get_keyed_map (f : string -> V) (k : string) (l : list string) :
  dict_get k (map (fun k' => (k', f k')) l)
  = if mem k l then Some (f k) else None.
Proof.
  induction l as [|k' l IH]; simpl; [reflexivity|].
  destruct (String.eqb_spec k k') as [->|Hne]; simpl; [reflexivity | exact IH].
Qed.

Lemma dict_set_keyed_map (f : string -> V) (k : string) (v : V)
    (l : list string) :
  NoDup l -> In k l ->
  dict_set k v (map (fun k' => (k', f k')) l)
  = map (fun k' => (k', if k' =? k then v else f k')) l.
Proof.
  induction 1 as [|k' l Hnotin Hnd IH]; simpl; [tauto|].
  intros HIn. destruct (String.eqb_spec k k') as [->|Hne].
  - rewrite String.eqb_refl. f_equal. apply map_ext_in.
    intros k'' Hk''. destruct (String.eqb_spec k'' k') as [->|]; tauto.
  - destruct (String.eqb_spec k' k) as [E|_]; [congruence|].
    f_equal. apply IH. destruct HIn; [congruence | assumption].
Qed.

Lemma keys_of_snoc (xs : list X) (x : X) :
  keys_of key (xs ++ [x])
  = keys_of key xs ++ match key x with Some k => [k] | None => [] end.
Proof. unfold keys_of. rewrite flat_map_app. simpl. now rewrite app_nil_r. Qed.

Lemma keyed_In (k : string) (xs : list X) :
  In k (keys_of key xs) <-> exists x, In x xs /\ key x = Some k.
Proof.
  unfold keys_of. rewrite in_flat_map. split.
  - intros (x & Hx & Hk). exists x. split; [exact Hx|].
    destruct (key x); simpl in Hk; [|tauto]. destruct Hk; [congruence|tauto].
  - intros (x & Hx & Hk). exists x. split; [exact Hx|]. rewrite Hk. now left.
Qed.

Lemma filter_keyed_none (k : string) (xs : list X) :
  ~ In k (keys_of key xs) -> filter (keyed key k) xs = [].
Proof.
  intros Hnotin. induction xs as [|x xs IH]; [reflexivity|].
  simpl. unfold keyed at 1.
  destruct (key x) as [k'|] eqn:Ek.
  - destruct (String.eqb_spec k' k) as [->|Hne].
    + exfalso. apply Hnotin. apply keyed_In. exists x. split; [now left|exact Ek].
    + apply IH. intros H. apply Hnotin. apply keyed_In.
      apply keyed_In in H as (y & Hy & Hky). exists y. split; [now right|exact Hky].
  - apply IH. intros H. apply Hnotin. apply keyed_In.
    apply keyed_In in H as (y & Hy & Hky). exists y. split; [now right|exact Hky].
Qed.

Lemma filter_keyed_snoc (k : string) (xs : list X) (x : X) :
  filter (keyed key k) (xs ++ [x])
  = filter (keyed key k) xs ++ (if keyed key k x then [x] else []).
Proof. rewrite filter_app. simpl. now destruct (keyed key k x). Qed.

Lemma keyed_some (k k' : string) (x : X) :
  key x = Some k -> keyed key k' x = (k =? k').
Proof. intros H. unfold keyed. now rewrite H. Qed.

Lemma keyed_no_key (k' : string) (x : X) :
  key x = None -> keyed key k' x = false.
Proof. intros H. unfold keyed. now rewrite H. Qed.

(** The dict loop computes the grouping. *)
Lemma group_fold (xs : list X) :
  fold_left (group_step key init add) xs []
  = map (fun kg => (fst kg, fold_left add (snd kg) init)) (grouped key xs).
Proof.
  unfold grouped. rewrite map_map. cbn [fst snd].
  induction xs as [|x xs IH] using rev_ind; [reflexivity|].
  rewrite fold_left_app. cbn [fold_left]. rewrite IH. clear IH.
  unfold group_step. rewrite keys_of_snoc.
  destruct (key x) as [k|] eqn:Ek.
  - rewrite first_new_snoc. cbn [mem existsb orb].
    rewrite (dict_get_keyed_map
               (fun k' => fold_left add (filter (keyed key k') xs) init)).
    rewrite mem_first_new.
    destruct (mem k (keys_of key xs)) eqn:Emem.
    + rewrite app_nil_r.
      rewrite (dict_set_keyed_map
                 (fun k' => fold_left add (filter (keyed key k') xs) init));
        [ | apply first_new_NoDup
          | apply first_new_In; split;
            [now apply mem_true_In | reflexivity] ].
      apply map_ext. intros k'. f_equal.
      rewrite filter_keyed_snoc, (keyed_some k k' x Ek), String.eqb_sym.
      destruct (String.eqb_spec k k') as [->|Hne].
      * now rewrite fold_left_app.
      * now rewrite app_nil_r.
    + apply mem_not_In in Emem.
      rewrite dict_set_fresh.
      2:{ unfold dict_keys. rewrite map_map. cbn [fst]. rewrite map_id.
          rewrite first_new_In. tauto. }
      rewrite map_app. cbn [map]. f_equal.
      * apply map_ext_in. intros k' Hk'. f_equal.
        rewrite filter_keyed_snoc, (keyed_some k k' x Ek).
        destruct (String.eqb_spec k k') as [->|Hne];
          [|now rewrite app_nil_r].
        apply first_new_In in Hk'. tauto.
      * rewrite filter_keyed_snoc, (keyed_some k k x Ek).
        rewrite String.eqb_refl, (filter_keyed_none k xs Emem).
        reflexivity.
  - rewrite app_nil_r. apply map_ext. intros k'. f_equal.
    rewrite filter_keyed_snoc, (keyed_no_key k' x Ek).
    now rewrite app_nil_r.
Qed.

End GroupingFacts.

Lemma first_new_length (ks : list string) :
  forall seen, (List.length (first_new seen ks) <= List.length ks)%nat.
Proof.
  induction ks as [|k ks IH]; intros seen; simpl; [lia|].
  destruct (mem k seen); simpl.
  - specialize (IH seen). lia.
  - specialize (IH (k :: seen)). lia.
Qed.

Lemma keys_of_length {X : Type} (key : X -> option string) (xs : list X) :
  (List.length (keys_of key xs) <= List.length xs)%nat.
Proof.
  induction xs as [|x xs IH]; simpl; [lia|].
  rewrite length_app. destruct (key x); simpl; lia.
Qed.

Lemma grouped_keys {X : Type} (key : X -> option string) (xs : list X) :
  map fst (grouped key xs) = first_new [] (keys_of key xs).
Proof. unfold grouped. rewrite map_map. apply map_id. Qed.

Lemma grouped_length {X : Type} (key : X -> option string) (xs : list X) :
  (List.length (grouped key xs) <= List.length xs)%nat.
Proof.
  unfold grouped. rewrite length_map.
  pose proof (first_new_length (keys_of key xs) []).
  pose proof (keys_of_length key xs). lia.
Qed.

(** Every group has a key some item carries, and holds the items with that
    key, so at least one. *)
Lemma grouped_groups {X : Type} (key : X -> option string) (xs : list X) :
  Forall (fun kg => snd kg = filter (keyed key (fst kg)) xs
                    /\ snd kg <> []
                    /\ Forall (fun x => key x = Some (fst kg)) (snd kg))
         (grouped key xs).
Proof.
  unfold grouped. apply Forall_forall. intros [k g] HIn.
  apply in_map_iff in HIn as (k' & [= <- <-] & Hk).
  cbn [fst snd]. split; [reflexivity|]. split.
  - apply first_new_In in Hk as [Hk _].
    unfold keys_of in Hk. apply in_flat_map in Hk as (x & Hx & Hkx).
    assert (HIn : In x (filter (keyed key k') xs)).
    { apply filter_In. split; [exact Hx|]. unfold keyed.
      destruct (key x) as [k''|]; simpl in Hkx; [|tauto].
      destruct Hkx as [->|[]]. apply String.eqb_refl. }
    intros E. now rewrite E in HIn.
  - apply Forall_forall. intros x Hx. apply filter_In in Hx as [_ Hx].
    unfold keyed in Hx. destruct (key x) as [k''|]; [|discriminate].
    apply String.eqb_eq in Hx. now subst.
Qed.

Lemma NoDup_map_Some {A : Type} (l : list A) :
  NoDup l -> NoDup (map Some l).
Proof.
  induction 1 as [|x l Hx _ IH]; simpl; constructor; [|exact IH].
  intros H. apply in_map_iff in H as (y & [= ->] & Hy). contradiction.
Qed.

(** ** The Hugging Face adapter *)

Lemma fold_left_snoc {A : Type} (g : list A) :
  forall acc, fold_left (fun l x => l ++ [x]) g acc = acc ++ g.
Proof.
  induction g as [|x g IH]; intros acc; simpl.
  - now rewrite app_nil_r.
  - now rewrite IH, <- app_assoc.
Qed.

Lemma hf_group_step_key (d : dict (list hf_model)) (m : hf_model) :
  hf_author m <> Raise ->
  hf_group_step d m
  = Ok (group_step hf_key [] (fun l x => l ++ [x]) d m).
Proof.
  unfold hf_group_step, group_step, hf_key.
  destruct (hf_author m) as [a|]; [|congruence]. intros _.
  now destruct (Py.truthy_str a).
Qed.

Lemma hf_group_loop_raises (models : list hf_model) :
  Exists (fun m => hf_author m = Raise) models ->
  forall d, hf_group_loop models d = Raise.
Proof.
  induction 1 as [m models Hm|m models _ IH]; intros d; simpl.
  - unfold hf_group_step. now rewrite Hm.
  - destruct (hf_group_step d m); [apply IH | reflexivity].
Qed.

Lemma hf_group_loop_groups (models : list hf_model) :
  Forall (fun m => hf_author m <> Raise) models ->
  forall d,
    hf_group_loop models d
    = Ok (fold_left (group_step hf_key [] (fun l x => l ++ [x])) models d).
Proof.
  induction 1 as [|m models Hm _ IH]; intros d; simpl; [reflexivity|].
  now rewrite (hf_group_step_key d m Hm), IH.
Qed.

(** X15.  The Hugging Face adapter queries with the first four terms and
    reads the first [max_models] models.  It raises when the search fails or
    when one of these models has no author and a [modelId] that is [None]; an
    answer that is not a list gives no candidate.  Otherwise it returns one
    candidate per distinct author, in the order in which the authors first
    occur, built from all the models of that author in their order: so the
    usernames are non-empty and pairwise distinct, and there are at most as
    many candidates as models read. *)
Theorem huggingface_groups_by_author (api : hf_api) (terms : list string)
    (max_models : Z) :
  match api (Py.join " " (firstn 4 terms)) with
  | Raise => search_huggingface_authors api terms max_models = Raise
  | Ok None => search_huggingface_authors api terms max_models = Ok []
  | Ok (Some models) =>
      let read := Py.slice_to max_models models in
      (Exists (fun m => hf_author m = Raise) read ->
       search_huggingface_authors api terms max_models = Raise)
      /\ (Forall (fun m => hf_author m <> Raise) read ->
          exists found,
            search_huggingface_authors api terms max_models = Ok found
            /\ found = map (fun ag => hf_candidate terms (fst ag) (snd ag))
                           (grouped hf_key read)
            /\ map username found
               = map Some (first_new [] (keys_of hf_key read))
            /\ NoDup (map username found)
            /\ ~ In (Some "") (map username found)
            /\ (List.length found <= List.length read)%nat)
  end.
Proof.
  unfold search_huggingface_authors.
  change (Py.slice_to 4 terms) with (firstn 4 terms).
  destruct (api (Py.join " " (firstn 4 terms))) as [[models|]|];
    try reflexivity.
  cbv beta iota zeta. set (read := Py.slice_to max_models models). split.
  - intros Hbad. now rewrite (hf_group_loop_raises read Hbad).
  - intros Hgood. rewrite (hf_group_loop_groups read Hgood), group_fold.
    exists (map (fun ag => hf_candidate terms (fst ag) (snd ag))
                (grouped hf_key read)).
    split.
    { f_equal. rewrite map_map. apply map_ext. intros [a g].
      cbn [fst snd]. now rewrite fold_left_snoc. }
    assert (Hnames : map username
                         (map (fun ag => hf_candidate terms (fst ag) (snd ag))
                              (grouped hf_key read))
                     = map Some (first_new [] (keys_of hf_key read))).
    { rewrite map_map. cbn [username hf_candidate].
      now rewrite <- (grouped_keys hf_key read), map_map. }
    split; [reflexivity|]. split; [exact Hnames|]. rewrite Hnames.
    split; [apply NoDup_map_Some, first_new_NoDup|]. split.
    + intros H. apply in_map_iff in H as (a & [= ->] & Ha).
      apply first_new_In in Ha as [Ha _].
      unfold keys_of in Ha. apply in_flat_map in Ha as (m & _ & Hm).
      unfold hf_key in Hm. destruct (hf_author m) as [a|]; [|easy].
      destruct (Py.truthy_str a) eqn:Ea; [|easy].
      destruct Hm as [->|[]]. discriminate.
    + rewrite length_map. apply grouped_length.
Qed.

Lemma huggingface_groups_by_author_witness :
  let m1 := mkModel (Some "ann") (Some (Some "ann/rag-small")) (Some 3%Z) None in
  let m2 := mkModel None (Some (Some "bo/bert")) None (Some 10%Z) in
  let m3 := mkModel (Some "") (Some (Some "ann/rag-large")) None None in
  let m4 := mkModel None None None None in
  let api : hf_api := fun _ => Ok (Some [m1; m2; m3; m4]) in
  exists found,
    search_huggingface_authors api ["rag"] 40 = Ok found
    /\ found = map (fun ag => hf_candidate ["rag"] (fst ag) (snd ag))
                   (grouped hf_key [m1; m2; m3; m4])
    /\ map username found
       = map Some (first_new [] (keys_of hf_key [m1; m2; m3; m4]))
    /\ NoDup (map username found)
    /\ ~ In (Some "") (map username found)
    /\ (List.length found <= 4)%nat.
Proof.
  intros m1 m2 m3 m4 api.
  apply (proj2 (huggingface_groups_by_author api ["rag"] 40)).
  repeat constructor; discriminate.
Defined.

(** ** The Kaggle adapter *)

Lemma fold_left_same_step {A B : Type} (f g : A -> B -> A) :
  (forall a b, f a b = g a b) ->
  forall l a, fold_left f l a = fold_left g l a.
Proof.
  intros H. induction l as [|b l IH]; intros a; simpl; [reflexivity|].
  now rewrite H, IH.
Qed.

Lemma kaggle_group_step_key (by_owner : dict kaggle_info)
    (d : kaggle_dataset) :
  kaggle_group_step by_owner d
  = group_step kaggle_key (mkInfo 0 [])
      (fun e d => mkInfo (info_count e + 1)
                         (info_datasets e
                          ++ [(dataset_title d, kaggle_url d)]))
      by_owner d.
Proof.
  unfold kaggle_group_step, group_step, kaggle_key.
  now destruct (Py.truthy_str (Py.or_empty (kaggle_owner d))).
Qed.

Lemma kaggle_entry_fold (g : list kaggle_dataset) :
  forall e,
    fold_left (fun e d => mkInfo (info_count e + 1)
                                 (info_datasets e
                                  ++ [(dataset_title d, kaggle_url d)]))
              g e
    = mkInfo (info_count e + Z.of_nat (List.length g))
             (info_datasets e
              ++ map (fun d => (dataset_title d, kaggle_url d)) g).
Proof.
  induction g as [|d g IH]; intros [c l]; simpl.
  - now rewrite Z.add_0_r, app_nil_r.
  - rewrite IH. simpl. rewrite <- app_assoc. f_equal. lia.
Qed.

Lemma kaggle_keys_truthy (rows : list kaggle_dataset) :
  ~ In "" (keys_of kaggle_key rows).
Proof.
  unfold keys_of. intros H. apply in_flat_map in H as (d & _ & Hd).
  unfold kaggle_key in Hd.
  destruct (Py.truthy_str (Py.or_empty (kaggle_owner d))) eqn:E; [|easy].
  destruct Hd as [Hd|[]]. now rewrite Hd in E.
Qed.

(** X16.  The Kaggle adapter never raises.  It returns nothing when Kaggle
    is not enabled, when the listing fails or when its result is not a list.
    Otherwise it reads the first [max_rows] datasets and returns one
    candidate per distinct owner, in the order in which the owners first
    occur; the entry of an owner counts all of the owner's datasets among
    those read and lists them in their order.  The usernames are non-empty
    and pairwise distinct. *)
Theorem kaggle_groups_by_owner (enabled : bool) (api : kaggle_api)
    (terms : list string) (max_rows : Z) :
  let found := search_kaggle_owners_by_datasets enabled api terms max_rows in
  found
  = match (if enabled then api (Py.join " " (firstn 4 terms)) else Raise) with
    | Ok (Some ds) =>
        map (fun og => kaggle_candidate terms (fst og)
                         (kaggle_info_of (snd og)))
            (grouped kaggle_key (Py.slice_to max_rows ds))
    | _ => []
    end
  /\ NoDup (map username found)
  /\ ~ In (Some "") (map username found)
  /\ Forall (fun c => name c = username c /\ location c = None
                      /\ source c = "kaggle") found.
Proof.
  intros found.
  assert (Hfound :
            found
            = match (if enabled then api (Py.join " " (firstn 4 terms))
                     else Raise) with
              | Ok (Some ds) =>
                  map (fun og => kaggle_candidate terms (fst og)
                                   (kaggle_info_of (snd og)))
                      (grouped kaggle_key (Py.slice_to max_rows ds))
              | _ => []
              end).
  { unfold found, search_kaggle_owners_by_datasets.
    change (Py.slice_to 4 terms) with (firstn 4 terms).
    destruct enabled; [|reflexivity]. cbn [negb].
    destruct (api (Py.join " " (firstn 4 terms))) as [[ds|]|];
      try reflexivity.
    rewrite (fold_left_same_step _ _ kaggle_group_step_key).
    rewrite group_fold, map_map. apply map_ext. intros [o g].
    cbn [fst snd]. f_equal. now rewrite kaggle_entry_fold. }
  split; [exact Hfound|]. rewrite Hfound.
  destruct (if enabled then api (Py.join " " (firstn 4 terms)) else Raise)
    as [[ds|]|];
    try (split; [constructor | split; [easy | constructor]]).
  set (rows := Py.slice_to max_rows ds).
  assert (Hnames : map username
                     (map (fun og => kaggle_candidate terms (fst og)
                                       (kaggle_info_of (snd og)))
                          (grouped kaggle_key rows))
                   = map Some (first_new [] (keys_of kaggle_key rows))).
  { rewrite map_map. cbn [username kaggle_candidate].
    now rewrite <- (grouped_keys kaggle_key rows), map_map. }
  rewrite Hnames. split; [apply NoDup_map_Some, first_new_NoDup|]. split.
  - intros H. apply in_map_iff in H as (o & [= ->] & Ho).
    apply first_new_In in Ho as [Ho _]. now apply kaggle_keys_truthy in Ho.
  - apply Forall_forall. intros c Hc.
    apply in_map_iff in Hc as (og & <- & _). now repeat split.
Qed.

(** ** Deduplication keys of the Hugging Face and Kaggle candidates *)

Lemma lower_length (s : string) : String.length (Py.lower s) = String.length s.
Proof. induction s as [|c s IH]; simpl; [reflexivity | now rewrite IH]. Qed.

Lemma append_length (a b : string) :
  String.length (append a b) = (String.length a + String.length b)%nat.
Proof. induction a as [|c a IH]; simpl; [reflexivity | now rewrite IH]. Qed.

Lemma append_prefix_inj (a b s t : string) :
  String.length a = String.length b -> append a s = append b t -> a = b.
Proof.
  revert b. induction a as [|c a IH]; intros [|d b]; simpl;
    try discriminate; [reflexivity|].
  intros [= Hlen] [= -> H]. now rewrite (IH b Hlen H).
Qed.

(** A text followed by a bar and itself determines the text. *)
Lemma doubled_inj (a b : string) :
  append a (append "|" a) = append b (append "|" b) -> a = b.
Proof.
  intros H. apply (append_prefix_inj a b (append "|" a) (append "|" b));
    [|exact H].
  apply (f_equal String.length) in H.
  rewrite !append_length in H. simpl in H. lia.
Qed.

Lemma hf_composite (terms : list string) (a : string)
    (g : list hf_model) :
  composite (hf_candidate terms a g)
  = append "https://huggingface.co/"
           (append (Py.lower a) (append "|" (Py.lower a))).
Proof.
  unfold composite. cbn [profile_url username hf_candidate Py.or_empty].
  now rewrite lower_append.
Qed.

Lemma kaggle_composite (terms : list string) (o : string)
    (i : kaggle_info) :
  composite (kaggle_candidate terms o i)
  = append "https://www.kaggle.com/"
           (append (Py.lower o) (append "|" (Py.lower o))).
Proof.
  unfold composite. cbn [profile_url username kaggle_candidate Py.or_empty].
  now rewrite lower_append.
Qed.

Lemma NoDup_map_finer {A B C : Type} (f : A -> B) (g : A -> C)
    (l : list A) :
  (forall x y, In x l -> In y l -> f x = f y -> g x = g y) ->
  NoDup (map g l) -> NoDup (map f l).
Proof.
  induction l as [|x l IH]; intros Hfg Hnd; simpl; [constructor|].
  inversion Hnd as [|? ? Hx Hl]; subst. constructor.
  - intros H. apply in_map_iff in H as (y & Hy & HIn). apply Hx.
    apply in_map_iff. exists y. split; [|exact HIn].
    apply Hfg; [now right | now left | exact Hy].
  - apply IH; [|exact Hl]. intros a b Ha Hb. apply Hfg; now right.
Qed.

Lemma search_huggingface_built (api : hf_api) (terms : list string)
    (max_models : Z) (found : list candidate) :
  search_huggingface_authors api terms max_models = Ok found ->
  Forall (fun c => exists a g, c = hf_candidate terms a g) found.
Proof.
  unfold search_huggingface_authors.
  destruct (api _) as [models|]; [|discriminate].
  destruct (match models with
            | Some ms => hf_group_loop (Py.slice_to max_models ms) []
            | None => Ok []
            end) as [by_author|]; [|discriminate].
  intros [= <-]. apply Forall_forall. intros c Hc.
  apply in_map_iff in Hc as ([a g] & <- & _). now exists a, g.
Qed.

Lemma search_kaggle_built (enabled : bool) (api : kaggle_api)
    (terms : list string) (max_rows : Z) :
  Forall (fun c => exists o i, c = kaggle_candidate terms o i)
         (search_kaggle_owners_by_datasets enabled api terms max_rows).
Proof.
  unfold search_kaggle_owners_by_datasets.
  destruct enabled; [|constructor]. cbn [negb].
  destruct (api _) as [ds|]; [|constructor].
  apply Forall_forall. intros c Hc.
  apply in_map_iff in Hc as ([o i] & <- & _). now exists o, i.
Qed.

Lemma hf_keys (terms terms' : list string) (a b : string)
    (g g' : list hf_model) :
  dedup_key (hf_candidate terms a g) = dedup_key (hf_candidate terms' b g')
  <-> Py.lower a = Py.lower b.
Proof.
  rewrite dedup_key_composite, !hf_composite. split; intros H.
  - apply doubled_inj. simpl in H. now injection H.
  - now rewrite H.
Qed.

Lemma kaggle_keys (terms terms' : list string) (o o' : string)
    (i i' : kaggle_info) :
  dedup_key (kaggle_candidate terms o i)
  = dedup_key (kaggle_candidate terms' o' i')
  <-> Py.lower o = Py.lower o'.
Proof.
  rewrite dedup_key_composite, !kaggle_composite. split; intros H.
  - apply doubled_inj. simpl in H. now injection H.
  - now rewrite H.
Qed.

Lemma hf_kaggle_keys (terms terms' : list string) (a o : string)
    (g : list hf_model) (i : kaggle_info) :
  dedup_key (hf_candidate terms a g)
  <> dedup_key (kaggle_candidate terms' o i).
Proof.
  rewrite dedup_key_composite, hf_composite, kaggle_composite.
  simpl. discriminate.
Qed.

(** X17.  Two Hugging Face candidates share a deduplication key exactly when
    their authors are equal up to ASCII case, and so do two Kaggle candidates
    with their owners; a Hugging Face candidate and a Kaggle candidate never
    share a key.  So when no two authors and no two owners differ by case
    only, deduplication keeps every candidate of the two adapters. *)
Theorem hub_candidates_kept (hf : hf_api) (enabled : bool)
    (kg : kaggle_api) (terms : list string) (max_models max_rows : Z)
    (authors : list candidate) :
  let owners := search_kaggle_owners_by_datasets enabled kg terms max_rows in
  let lowered c := Py.lower (Py.or_empty (username c)) in
  search_huggingface_authors hf terms max_models = Ok authors ->
  (forall c d, In c authors -> In d authors ->
               (dedup_key c = dedup_key d <-> lowered c = lowered d))
  /\ (forall c d, In c owners -> In d owners ->
                  (dedup_key c = dedup_key d <-> lowered c = lowered d))
  /\ (forall c d, In c authors -> In d owners -> dedup_key c <> dedup_key d)
  /\ (NoDup (map lowered authors) -> NoDup (map lowered owners) ->
      _dedupe_keep_best (authors ++ owners) = authors ++ owners).
Proof.
  intros owners lowered Hrun.
  pose proof (search_huggingface_built _ _ _ _ Hrun) as Hhf.
  pose proof (search_kaggle_built enabled kg terms max_rows) as Hkg.
  fold owners in Hkg. rewrite Forall_forall in Hhf, Hkg.
  assert (H1 : forall c d, In c authors -> In d authors ->
                 (dedup_key c = dedup_key d <-> lowered c = lowered d)).
  { intros c d Hc Hd.
    destruct (Hhf c Hc) as (a & g & ->). destruct (Hhf d Hd) as (b & g' & ->).
    apply hf_keys. }
  assert (H2 : forall c d, In c owners -> In d owners ->
                 (dedup_key c = dedup_key d <-> lowered c = lowered d)).
  { intros c d Hc Hd.
    destruct (Hkg c Hc) as (a & g & ->). destruct (Hkg d Hd) as (b & g' & ->).
    apply kaggle_keys. }
  assert (H3 : forall c d, In c authors -> In d owners ->
                           dedup_key c <> dedup_key d).
  { intros c d Hc Hd.
    destruct (Hhf c Hc) as (a & g & ->). destruct (Hkg d Hd) as (b & g' & ->).
    apply hf_kaggle_keys. }
  split; [exact H1|]. split; [exact H2|]. split; [exact H3|].
  intros Ha Ho. apply dedupe_distinct. rewrite map_app.
  apply NoDup_app.
  - apply (NoDup_map_finer dedup_key lowered); [|exact Ha].
    intros x y Hx Hy. apply H1; assumption.
  - apply (NoDup_map_finer dedup_key lowered); [|exact Ho].
    intros x y Hx Hy. apply H2; assumption.
  - intros k Hk1 Hk2.
    apply in_map_iff in Hk1 as (c & <- & Hc).
    apply in_map_iff in Hk2 as (d & Hd & HIn).
    now apply (H3 c d Hc HIn).
Qed.

Lemma hub_candidates_kept_witness :
  let m1 := mkModel (Some "ann") (Some (Some "ann/rag")) None None in
  let m2 := mkModel (Some "Bo") (Some (Some "Bo/bert")) None None in
  let d1 := mkDataset (Some "ann") None (Some "RAG corpus") (Some (Some "rag")) in
  let hf : hf_api := fun _ => Ok (Some [m1; m2]) in
  let kg : kaggle_api := fun _ => Ok (Some [d1]) in
  exists authors,
    search_huggingface_authors hf ["rag"] 40 = Ok authors
    /\ _dedupe_keep_best
         (authors ++ search_kaggle_owners_by_datasets true kg ["rag"] 20)
       = authors ++ search_kaggle_owners_by_datasets true kg ["rag"] 20.
Proof.
  intros m1 m2 d1 hf kg.
  destruct (search_huggingface_authors hf ["rag"] 40) as [authors|] eqn:E;
    [|discriminate].
  exists authors. split; [reflexivity|].
  apply (hub_candidates_kept hf true kg ["rag"] 40 20 authors E).
  - injection E as <-. repeat constructor; simpl; intuition discriminate.
  - repeat constructor. simpl. tauto.
Defined.

(** ** The GitHub adapter *)

Lemma or_else_truthy (a : option string) (b : string) :
  b <> "" ->
  or_else a b <> "" /\ (a = Some (or_else a b) \/ or_else a b = b).
Proof.
  intros Hb. unfold or_else.
  destruct (Py.truthy_str (Py.or_empty a)) eqn:Ea; [|now split; [|right]].
  split; [now apply truthy_str_true|]. left.
  destruct a as [s|]; [reflexivity | discriminate].
Qed.

Lemma gh_candidate_built (api : github_api) (terms : list string)
    (login : string) (user : gh_user) (repos : option (list gh_repo)) :
  login <> "" ->
  gh_get_user api login = Ok user ->
  gh_get_repos api login = Ok repos ->
  gh_built api terms login
    (gh_candidate terms login user
                  match repos with Some l => l | None => [] end).
Proof.
  intros Hlogin Huser Hrepos. exists user, repos.
  split; [exact Huser|]. split; [exact Hrepos|].
  cbn [gh_candidate source username name profile_url public_email blog
       location company].
  split; [reflexivity|]. split; [reflexivity|]. split.
  - destruct (or_else_truthy (gh_name user) login Hlogin) as [Hn Hor].
    eexists. split; [reflexivity|]. split; [exact Hn | exact Hor].
  - split; [|now repeat split].
    assert (Hurl : append "https://github.com/" login <> "") by discriminate.
    destruct (or_else_truthy (gh_html_url user) _ Hurl) as [Hn Hor].
    eexists. split; [reflexivity|]. split; [exact Hn | exact Hor].
Qed.

Lemma gh_loop_raises (api : github_api) (terms : list string)
    (items : list gh_item) :
  Exists (fun l => gh_get_user api l = Raise \/ gh_get_repos api l = Raise)
         (gh_logins items) ->
  forall out, gh_loop api terms items out = Raise.
Proof.
  unfold gh_logins. induction items as [|u items IH]; intros Hbad out.
  - inversion Hbad.
  - simpl in Hbad. simpl.
    destruct (Py.truthy_str (Py.or_empty (item_login u))) eqn:El; simpl.
    + inversion Hbad as [? ? [Hu|Hr]|? ? Hrest]; subst.
      * now rewrite Hu.
      * rewrite Hr. now destruct (gh_get_user api _).
      * destruct (gh_get_user api _); [|reflexivity].
        destruct (gh_get_repos api _); [|reflexivity]. now apply IH.
    + now apply IH.
Qed.

Lemma gh_loop_builds (api : github_api) (terms : list string)
    (items : list gh_item) :
  Forall (fun l => gh_get_user api l <> Raise /\ gh_get_repos api l <> Raise)
         (gh_logins items) ->
  forall out,
    exists found,
      gh_loop api terms items out = Ok (out ++ found)
      /\ Forall2 (gh_built api terms) (gh_logins items) found.
Proof.
  unfold gh_logins. induction items as [|u items IH]; intros Hgood out.
  - exists []. split; [simpl; now rewrite app_nil_r | constructor].
  - simpl in Hgood. simpl.
    destruct (Py.truthy_str (Py.or_empty (item_login u))) eqn:El; simpl.
    + inversion Hgood as [|? ? [Hu Hr] Hrest]; subst.
      destruct (gh_get_user api _) as [user|] eqn:Euser; [|congruence].
      destruct (gh_get_repos api _) as [repos|] eqn:Erepos; [|congruence].
      destruct (IH Hrest (out ++ [gh_candidate terms
                                    (Py.or_empty (item_login u)) user
                                    match repos with
                                    | Some l => l
                                    | None => []
                                    end]))
        as (found & -> & Hfound).
      eexists. split; [now rewrite <- app_assoc|]. simpl.
      constructor; [|exact Hfound].
      apply gh_candidate_built; [now apply truthy_str_true | assumption..].
    + now apply IH.
Qed.

Lemma search_github_items (api : github_api) (terms : list string)
    (location_ : option string) (per_page : Z) :
  search_github_users api terms location_ per_page
  = match gh_items api terms location_ per_page with
    | Raise => Raise
    | Ok items => gh_loop api terms items []
    end.
Proof.
  unfold search_github_users, gh_items.
  destruct (gh_search api (github_qA terms location_) per_page)
    as [[|u items]|]; reflexivity.
Qed.

(** X18.  The GitHub adapter works on the items of the targeted query, or on
    those of the broader query, made only when the targeted one finds
    nothing.  It is all or nothing: it raises when a query it makes fails or
    when the user call or the repository call fails for one login; otherwise
    it returns one candidate per item with a login, in the order of the
    items, with that login as username, a name and a profile URL that are
    never empty (the login and the github.com page of the login stand in
    for missing ones), and email, blog, location and company as the user
    call gave them. *)
Theorem github_all_or_nothing (api : github_api) (terms : list string)
    (location_ : option string) (per_page : Z) :
  match gh_items api terms location_ per_page with
  | Raise => search_github_users api terms location_ per_page = Raise
  | Ok items =>
      (Exists (fun l => gh_get_user api l = Raise
                        \/ gh_get_repos api l = Raise)
              (gh_logins items) ->
       search_github_users api terms location_ per_page = Raise)
      /\ (Forall (fun l => gh_get_user api l <> Raise
                           /\ gh_get_repos api l <> Raise)
                 (gh_logins items) ->
          exists found,
            search_github_users api terms location_ per_page = Ok found
            /\ Forall2 (gh_built api terms) (gh_logins items) found)
  end.
Proof.
  rewrite search_github_items.
  destruct (gh_items api terms location_ per_page) as [items|];
    [|reflexivity].
  split.
  - intros Hbad. now apply gh_loop_raises.
  - intros Hgood.
    destruct (gh_loop_builds api terms items Hgood []) as (found & H & Hf).
    now exists found.
Qed.

Lemma github_all_or_nothing_witness :
  let user := mkGhUser None (Some "RAG pipelines") None None None None
                       (Some "Sofia") in
  let api :=
    mkGithubApi
      (fun q _ => if Py.contains "location:" q then Ok []
                  else Ok [mkGhItem (Some "ann"); mkGhItem None])
      (fun _ => Ok user)
      (fun _ => Ok None) in
  exists found,
    search_github_users api ["rag"] (Some "Sofia") 10 = Ok found
    /\ Forall2 (gh_built api ["rag"]) ["ann"] found.
Proof.
  intros user api.
  apply (proj2 (github_all_or_nothing api ["rag"] (Some "Sofia") 10)).
  repeat constructor; discriminate.
Defined.

Lemma build_terms_chars (ideas : list string)
    (extra_keywords : option (list json)) (t : string) :
  In t (_build_terms ideas extra_keywords) ->
  all_chars Py.isword t = true \/ In t synonym_phrases.
Proof.
  intros Ht. unfold _build_terms in Ht.
  destruct (slice_to_firstn 20 (dedupe_terms (expand_terms ideas extra_keywords)))
    as [m Hm].
  rewrite Hm in Ht. apply In_firstn in Ht.
  rewrite dedupe_terms_from in Ht. apply dedupe_from_In in Ht as [Ht _].
  unfold expand_terms in Ht. rewrite expand_loop_flat in Ht. simpl in Ht.
  apply in_flat_map in Ht as (tok & Htok & [<-|Hsyn]).
  - left. pose proof (collect_tokens_words ideas extra_keywords) as H.
    rewrite Forall_forall in H. now apply H.
  - right. now apply synonyms_phrases in Hsyn.
Qed.

Lemma github_key_terms_from (terms : list string) (t : string) :
  In t (github_key_terms terms) -> In t terms \/ t = "developer".
Proof.
  unfold github_key_terms.
  destruct (slice_to_firstn 6
              (filter (fun t => (3 <=? String.length t)%nat) terms))
    as [m Hm].
  rewrite Hm.
  destruct (firstn m (filter _ terms)) as [|k ks] eqn:E.
  - intros [<-|[]]. now right.
  - intros Ht. left. rewrite <- E in Ht. apply In_firstn in Ht.
    now apply filter_In in Ht.
Qed.

Lemma github_key_terms_count (terms : list string) :
  (1 <= List.length (github_key_terms terms) <= 6)%nat.
Proof.
  unfold github_key_terms. change (Py.slice_to 6 ?l) with (firstn 6 l).
  pose proof (firstn_le_length 6
                (filter (fun t => (3 <=? String.length t)%nat) terms)) as H1.
  assert (H2 : (List.length
                  (firstn 6 (filter (fun t => (3 <=? String.length t)%nat)
                                    terms)) <= 6)%nat)
    by (rewrite length_firstn; apply Nat.le_min_l).
  destruct (firstn 6 _) as [|k ks]; simpl in *; lia.
Qed.

(** X19.  The GitHub query of a request cannot be bent by the ideas or the
    keywords: it names between one and six quoted terms, and each of them is
    made of letters, digits, underscores and spaces only, so none can close
    its quotes, add a qualifier or a parenthesis.  The terms named are terms
    of the request, or "developer" when no term has three characters. *)
Theorem github_query_terms_plain (ideas : list string)
    (extra_keywords : option (list json)) :
  let key_terms := github_key_terms (_build_terms ideas extra_keywords) in
  github_or_block (_build_terms ideas extra_keywords)
  = Py.join " OR " (map quoted key_terms)
  /\ (1 <= List.length key_terms <= 6)%nat
  /\ Forall (fun t => all_chars plain_char t = true
                      /\ (In t (_build_terms ideas extra_keywords)
                          \/ t = "developer"))
            key_terms.
Proof.
  intros key_terms. split; [reflexivity|].
  split; [apply github_key_terms_count|].
  apply Forall_forall. intros t Ht.
  apply github_key_terms_from in Ht. split; [|exact Ht].
  destruct Ht as [Ht| ->]; [|reflexivity].
  apply build_terms_chars in Ht as [Hw|Hsyn].
  - apply (all_chars_impl Py.isword); [|exact Hw].
    intros c Hc. unfold plain_char. now rewrite Hc.
  - simpl in Hsyn. repeat (destruct Hsyn as [<-|Hsyn]; [reflexivity|]).
    destruct Hsyn.
Qed.

(** ** The bonuses of the adapters *)

(** The bonus for zero to five models, at 0.2 each, and for zero to five
    repositories or datasets, at 0.3 each, as the binary64 values they are:
    three times 0.2 is 0.6000000000000001, five times 0.2 is 1.0 and five
    times 0.3 is 1.5. *)
Lemma adapter_bonuses :
  map (fun k => fmul (inject_Z k) (fl (2 # 10))) [0; 1; 2; 3; 4; 5]%Z
  = [0; 3602879701896397 # 18014398509481984;
     3602879701896397 # 9007199254740992;
     1351079888211149 # 2251799813685248;
     3602879701896397 # 4503599627370496; 1]%Q
  /\ map (fun k => fmul (inject_Z k) (fl (3 # 10))) [0; 1; 2; 3; 4; 5]%Z
     = [0; 5404319552844595 # 18014398509481984;
        5404319552844595 # 9007199254740992;
        2026619832316723 # 2251799813685248;
        5404319552844595 # 4503599627370496; 3 # 2]%Q.
Proof. split; vm_compute; reflexivity. Qed.
